(** * vcr/patch.py: transport interception and lifecycle management

    A shallow embedding of [vcr/patch.py].  Python objects live in a heap
    indexed by their identity; classes carry their [__mro__] and their own
    [__dict__]; attribute lookup walks the resolution order as CPython does.
    The builder's substitute-type cache, the patch handles of
    [unittest.mock], the connection pools of urllib3 and the
    [ConnectionRemover] are modelled on top of it with explicit state
    passing and an outcome type for raised exceptions. *)

From stdpp Require Import functions gmap strings list fin_maps.

Set Warnings "-clear-no-such-hyp".

Open Scope string_scope.
Open Scope list_scope.

(** ** Outcomes and the state-and-exception monad *)

Inductive exn :=
  AttributeError | KeyError | TypeError | NameError | ImportError | RuntimeError
| ClosedPoolError.

Inductive outcome (A : Type) :=
| Returns (a : A)
| Raises (e : exn).
Arguments Returns {A} a.
Arguments Raises {A} e.

(** A Python statement sequence over a mutable state [S]: the state it
    leaves behind is kept also when an exception is raised. *)
Definition M (S A : Type) : Type := S -> outcome A * S.

Definition ret {S A} (a : A) : M S A := fun s => (Returns a, s).
Definition raise {S A} (e : exn) : M S A := fun s => (Raises e, s).
Definition bind {S A B} (m : M S A) (k : A -> M S B) : M S B :=
  fun s => match m s with
           | (Returns a, s') => k a s'
           | (Raises e, s') => (Raises e, s')
           end.
Definition gets {S A} (f : S -> A) : M S A := fun s => (Returns (f s), s).
Definition modify {S} (f : S -> S) : M S unit := fun s => (Returns tt, f s).

Notation "'let*' x ':=' m 'in' k" := (bind m (fun x => k))
  (at level 10, x pattern, m at level 100, k at level 200).

(** ** Values and objects *)

(** Identity of a heap object ([id(obj)]). *)
Abbreviation ref := nat (only parsing).

#[warnings="-register-all"] Inductive value :=
| VNone
| VBool (b : bool)
| VInt (n : N)
| VRef (r : ref)                       (* a module, class, function or instance *)
| VCassette (c : nat)                  (* a cassette object, by identity *)
| VDict (items : list (string * value)).

Definition is_None (v : value) : bool :=
  match v with VNone => true | _ => false end.

Inductive kind := KModule | KClass | KFunction | KInstance | KMock.

Definition kind_eqb (a b : kind) : bool :=
  match a, b with
  | KModule, KModule | KClass, KClass | KFunction, KFunction
  | KInstance, KInstance | KMock, KMock => true
  | _, _ => false
  end.

Record pyobj := PyObj {
  py_kind : kind;
  py_name : string;                    (* __name__ *)
  py_mro : list ref;                   (* __mro__[1:], the bases in resolution order *)
  py_dict : gmap string value          (* the object's own __dict__ *)
}.

Abbreviation heap := (list pyobj) (only parsing).

Definition own_attr (h : heap) (o : ref) (a : string) : option value :=
  match h !! o with
  | Some ob => py_dict ob !! a
  | None => None
  end.

Fixpoint resolve_attr (h : heap) (chain : list ref) (a : string) : option value :=
  match chain with
  | [] => None
  | c :: chain' =>
      match own_attr h c a with
      | Some v => Some v
      | None => resolve_attr h chain' a
      end
  end.

(** [getattr(x, a)], [None] standing for AttributeError.  A [Mock] answers
    every attribute it does not hold with a child mock; the child is
    represented by the mock itself, only its being different from [None] is
    ever observed. *)
Definition getattr (h : heap) (x : value) (a : string) : option value :=
  match x with
  | VRef o =>
      match h !! o with
      | Some ob =>
          match py_kind ob with
          | KMock =>
              match resolve_attr h (o :: py_mro ob) a with
              | Some v => Some v
              | None => Some (VRef o)
              end
          | _ => resolve_attr h (o :: py_mro ob) a
          end
      | None => None
      end
  | _ => None
  end.

Definition hasattr (h : heap) (x : value) (a : string) : bool :=
  bool_decide (is_Some (getattr h x a)).

Arguments getattr : simpl never.
Arguments hasattr : simpl never.

Definition is_class (h : heap) (o : ref) : bool :=
  match h !! o with
  | Some ob => kind_eqb (py_kind ob) KClass
  | None => false
  end.

(** [issubclass(a, b)]: [b] occurs in the resolution order of [a]. *)
Definition issubclass (h : heap) (a b : ref) : bool :=
  match h !! a with
  | Some ob => bool_decide (b ∈ a :: py_mro ob)
  | None => false
  end.

(** Every reference stored in a resolution order is allocated. *)
Definition heap_closed (h : heap) : Prop :=
  Forall (fun ob => Forall (fun r => r < length h) (py_mro ob)) h.

(** ** The session and the builder *)

(** A custom interception triple [(obj, patched_attribute, replacement)]. *)
Record triple := Triple {
  t_obj : value;
  t_attribute : string;
  t_replacement : value
}.

Record cassette := Cassette {
  cassette_id : nat;
  _path : string;
  custom_patches : list triple
}.

Record CassettePatcherBuilder := Builder {
  _cassette : cassette;
  _class_to_cassette_subclass : gmap nat nat
}.

(** [CassettePatcherBuilder.__init__] *)
Definition __init__ (c : cassette) : CassettePatcherBuilder :=
  {| _cassette := c; _class_to_cassette_subclass := ∅ |}.

(** The state threaded through the builder's methods. *)
Record world := World {
  w_builder : CassettePatcherBuilder;
  w_heap : list pyobj
}.

Definition set_heap (h : heap) (w : world) : world :=
  {| w_builder := w_builder w; w_heap := h |}.

Definition set_cache (m : gmap nat nat) (w : world) : world :=
  {| w_builder := {| _cassette := _cassette (w_builder w);
                     _class_to_cassette_subclass := m |};
     w_heap := w_heap w |}.

(** [type(name, (base_class,), dict(cassette=self._cassette))].  In Python 3
    [issubclass(base_class, object)] holds for every class, and raises
    TypeError when [base_class] is not a class. *)
Definition _build_cassette_subclass (base_class : ref) : M world ref :=
  fun w =>
    let h := w_heap w in
    match h !! base_class with
    | Some ob =>
        if kind_eqb (py_kind ob) KClass then
          let c := _cassette (w_builder w) in
          let sub := {| py_kind := KClass;
                        py_name := py_name ob +:+ _path c;
                        py_mro := base_class :: py_mro ob;
                        py_dict := {[ "cassette" := VCassette (cassette_id c) ]} |} in
          (Returns (length h), set_heap (h ++ [sub]) w)
        else (Raises TypeError, w)
    | None => (Raises TypeError, w)
    end.

(** [x.a], raising AttributeError when the lookup fails. *)
Definition attribute (x : value) (a : string) : M world value :=
  fun w =>
    match getattr (w_heap w) x a with
    | Some v => (Returns v, w)
    | None => (Raises AttributeError, w)
    end.

(** [self._class_to_cassette_subclass[klass]] *)
Definition cache_get (klass : ref) : M world ref :=
  fun w =>
    match _class_to_cassette_subclass (w_builder w) !! klass with
    | Some sub => (Returns sub, w)
    | None => (Raises KeyError, w)
    end.

(** [self._class_to_cassette_subclass[klass] = subclass] *)
Definition cache_set (klass subclass : ref) : M world unit :=
  modify (fun w =>
    set_cache (<[klass := subclass]> (_class_to_cassette_subclass (w_builder w))) w).

Definition _get_cassette_subclass (klass : ref) : M world ref :=
  let* v := attribute (VRef klass) "cassette" in
  if negb (is_None v) then ret klass
  else
    let* _ := (fun w =>
      match _class_to_cassette_subclass (w_builder w) !! klass with
      | None =>
          (let* subclass := _build_cassette_subclass klass in
           cache_set klass subclass) w
      | Some _ => (Returns tt, w)
      end) in
    cache_get klass.

(** The dictionary is rewritten value by value, keys and their order kept;
    a value exposing a [cassette] attribute is sent through the cache. *)
Fixpoint _recursively_apply_get_cassette_subclass
    (replacement_dict_or_obj : value) : M world value :=
  match replacement_dict_or_obj with
  | VDict items =>
      let* items' :=
        (fix go (items : list (string * value)) : M world (list (string * value)) :=
           match items with
           | [] => ret []
           | (key, replacement_obj) :: rest =>
               let* replacement_obj' :=
                 _recursively_apply_get_cassette_subclass replacement_obj in
               let* rest' := go rest in
               ret ((key, replacement_obj') :: rest')
           end) items in
      ret (VDict items')
  | VRef klass =>
      fun w =>
        if hasattr (w_heap w) (VRef klass) "cassette" then
          (let* sub := _get_cassette_subclass klass in ret (VRef sub)) w
        else (Returns (VRef klass), w)
  | other => ret other
  end.

(** A [mock.patch.object(obj, attribute, new)] handle, not yet entered. *)
Record patcher := Patcher {
  p_target : value;
  p_attribute : string;
  p_new : value
}.

Definition _build_patcher (obj : value) (patched_attribute : string)
    (replacement_class : value) : M world (option patcher) :=
  fun w =>
    if negb (hasattr (w_heap w) obj patched_attribute) then (Returns None, w)
    else
      (let* new := _recursively_apply_get_cassette_subclass replacement_class in
       ret (Some {| p_target := obj; p_attribute := patched_attribute; p_new := new |})) w.

(** The generator, run to exhaustion.  A patch handle is always truthy. *)
Fixpoint _build_patchers_from_mock_triples (mock_triples : list triple)
    : M world (list patcher) :=
  match mock_triples with
  | [] => ret []
  | args :: rest =>
      let* patcher := _build_patcher (t_obj args) (t_attribute args) (t_replacement args) in
      let* others := _build_patchers_from_mock_triples rest in
      ret (match patcher with Some p => p :: others | None => others end)
  end.

(** The class object [type(...)] creates for [base_class] in world [w]. *)
Definition new_subclass (w : world) (klass : ref) (ob : pyobj) : pyobj :=
  {| py_kind := KClass;
     py_name := py_name ob +:+ _path (_cassette (w_builder w));
     py_mro := klass :: py_mro ob;
     py_dict := {[ "cassette" := VCassette (cassette_id (_cassette (w_builder w))) ]} |}.

(** The world after a cache miss on [klass]. *)
Definition after_miss (klass : ref) (ob : pyobj) (w : world) : world :=
  set_cache (<[klass := length (w_heap w)]> (_class_to_cassette_subclass (w_builder w)))
            (set_heap (w_heap w ++ [new_subclass w klass ob]) w).

(** The five ways a call can go. *)
Inductive get_case (klass : ref) (w : world) : outcome ref -> world -> Prop :=
| get_no_attribute :
    getattr (w_heap w) (VRef klass) "cassette" = None ->
    get_case klass w (Raises AttributeError) w
| get_bound v :
    getattr (w_heap w) (VRef klass) "cassette" = Some v -> v <> VNone ->
    get_case klass w (Returns klass) w
| get_hit sub :
    getattr (w_heap w) (VRef klass) "cassette" = Some VNone ->
    _class_to_cassette_subclass (w_builder w) !! klass = Some sub ->
    get_case klass w (Returns sub) w
| get_miss ob :
    getattr (w_heap w) (VRef klass) "cassette" = Some VNone ->
    _class_to_cassette_subclass (w_builder w) !! klass = None ->
    w_heap w !! klass = Some ob -> py_kind ob = KClass ->
    get_case klass w (Returns (length (w_heap w))) (after_miss klass ob w)
| get_not_a_class :
    getattr (w_heap w) (VRef klass) "cassette" = Some VNone ->
    _class_to_cassette_subclass (w_builder w) !! klass = None ->
    is_class (w_heap w) klass = false ->
    get_case klass w (Raises TypeError) w.

(** [sub] is a substitute of [klass] for session [c]: it derives from
    [klass] and its [cassette] attribute is bound to [c]. *)
Definition substitute_of (h : heap) (c : cassette) (klass sub : ref) : Prop :=
  getattr h (VRef sub) "cassette" = Some (VCassette (cassette_id c))
  /\ issubclass h sub klass = true.

(** The cache maps base classes to substitutes of this builder's session. *)
Definition cache_ok (w : world) : Prop :=
  map_Forall (fun klass sub =>
                substitute_of (w_heap w) (_cassette (w_builder w)) klass sub)
             (_class_to_cassette_subclass (w_builder w)).




(** The world left behind by a series of requests made to the same builder,
    whatever each of them returned or raised. *)
Fixpoint requests (ks : list ref) (w : world) : world :=
  match ks with
  | [] => w
  | k :: ks' => requests ks' (_get_cassette_subclass k w).2
  end.

(** [klass] is unbound and the cache already answers [sub] for it. *)
Definition memoized (klass sub : ref) (w : world) : Prop :=
  heap_closed (w_heap w)
  /\ getattr (w_heap w) (VRef klass) "cassette" = Some VNone
  /\ _class_to_cassette_subclass (w_builder w) !! klass = Some sub.

Definition heap_stub : list pyobj :=
  [ {| py_kind := KClass; py_name := "VCRHTTPConnection"; py_mro := [];
       py_dict := {[ "cassette" := VNone ]} |};
    {| py_kind := KClass; py_name := "VCRHTTPSConnection"; py_mro := [];
       py_dict := {[ "cassette" := VNone ]} |} ].

Definition world_stub : world :=
  {| w_builder := __init__ {| cassette_id := 7; _path := "tape.yaml";
                              custom_patches := [] |};
     w_heap := heap_stub |}.

(** ** Well-formed inputs *)

(** The replacement can be resolved without a TypeError: every reference
    in it is allocated, and one whose [cassette] attribute is [None] is a
    class, so that [type(...)] can derive from it. *)
Fixpoint resolvable (h : heap) (v : value) : bool :=
  match v with
  | VDict items => forallb (fun kv => resolvable h (snd kv)) items
  | VRef o =>
      bool_decide (o < length h)
      && match getattr h (VRef o) "cassette" with
         | Some VNone => is_class h o
         | _ => true
         end
  | _ => true
  end.

(** The target of a triple is an allocated object (or no object at all). *)
Definition allocated (h : heap) (x : value) : bool :=
  match x with
  | VRef o => bool_decide (o < length h)
  | _ => true
  end.

Definition triple_ok (h : heap) (t : triple) : bool :=
  allocated h (t_obj t) && resolvable h (t_replacement t).

(** [hasattr(obj, patched_attribute)] for a triple. *)
Definition present (h : heap) (t : triple) : bool :=
  hasattr h (t_obj t) (t_attribute t).

(** The seam a triple or a handle is about. *)
Definition seam : Type := value * string.
Definition triple_seam (t : triple) : seam := (t_obj t, t_attribute t).
Definition patcher_seam (p : patcher) : seam := (p_target p, p_attribute p).

(** The later world has the same session and a heap that extends the
    earlier one. *)
Definition extends (w w' : world) : Prop :=
  _cassette (w_builder w') = _cassette (w_builder w)
  /\ heap_closed (w_heap w')
  /\ exists ext, w_heap w' = w_heap w ++ ext.

(** A process with [http.client] loaded and the two stub classes of
    [vcr.stubs]; the session brings two custom triples, the second of which
    names an attribute the module does not have. *)
Definition heap_httplib : list pyobj :=
  [ {| py_kind := KClass; py_name := "VCRHTTPConnection"; py_mro := [];
       py_dict := {[ "cassette" := VNone ]} |};
    {| py_kind := KClass; py_name := "VCRHTTPSConnection"; py_mro := [];
       py_dict := {[ "cassette" := VNone ]} |};
    {| py_kind := KClass; py_name := "HTTPConnection"; py_mro := [];
       py_dict := ∅ |};
    {| py_kind := KClass; py_name := "HTTPSConnection"; py_mro := [2];
       py_dict := ∅ |};
    {| py_kind := KModule; py_name := "http.client"; py_mro := [];
       py_dict := {[ "HTTPConnection" := VRef 2; "HTTPSConnection" := VRef 3 ]} |} ].

Definition triple_present : triple :=
  {| t_obj := VRef 4; t_attribute := "HTTPConnection"; t_replacement := VRef 0 |}.

Definition triple_absent : triple :=
  {| t_obj := VRef 4; t_attribute := "HTTP2Connection"; t_replacement := VRef 1 |}.

Definition cassette_custom : cassette :=
  {| cassette_id := 3; _path := "custom.yaml";
     custom_patches := [triple_present; triple_absent] |}.

Definition world_custom : world :=
  {| w_builder := __init__ cassette_custom; w_heap := heap_httplib |}.

(** ** Patch handles ([unittest.mock.patch.object]) and [ExitStack] *)

Definition with_dict (f : gmap string value -> gmap string value) (ob : pyobj) : pyobj :=
  {| py_kind := py_kind ob; py_name := py_name ob; py_mro := py_mro ob;
     py_dict := f (py_dict ob) |}.

(** [setattr(o, a, v)] and [delattr(o, a)] on the object's own dictionary. *)
Definition setattr (h : heap) (o : ref) (a : string) (v : value) : list pyobj :=
  alter (with_dict (insert a v)) o h.

Definition delattr (h : heap) (o : ref) (a : string) : list pyobj :=
  alter (with_dict (delete a)) o h.

(** A handle that has been entered: it remembers the value it replaced and
    whether that value sat in the target's own dictionary. *)
Record entered := Entered {
  e_patcher : patcher;
  temp_original : value;
  is_local : bool
}.

(** [_patch.get_original]: the own entry if there is one, else the
    inherited value; AttributeError when the target has neither. *)
Definition get_original (p : patcher) (h : heap) : outcome (value * bool) :=
  match p_target p with
  | VRef o =>
      match own_attr h o (p_attribute p) with
      | Some v => Returns (v, true)
      | None =>
          match getattr h (VRef o) (p_attribute p) with
          | Some v => Returns (v, false)
          | None => Raises AttributeError
          end
      end
  | _ => Raises AttributeError
  end.

(** [_patch.__enter__] *)
Definition patch_enter (p : patcher) : M (list pyobj) entered :=
  fun h =>
    match get_original p h, p_target p with
    | Returns (original, local), VRef o =>
        (Returns {| e_patcher := p; temp_original := original; is_local := local |},
         setattr h o (p_attribute p) (p_new p))
    | Returns _, _ => (Raises AttributeError, h)
    | Raises e, _ => (Raises e, h)
    end.

(** [_patch.__exit__]: an own entry is written back; an inherited one is
    uncovered again by deleting the own entry, and written back only if the
    attribute has vanished altogether. *)
Definition patch_exit (e : entered) : M (list pyobj) unit :=
  fun h =>
    let a := p_attribute (e_patcher e) in
    match p_target (e_patcher e) with
    | VRef o =>
        if is_local e then (Returns tt, setattr h o a (temp_original e))
        else
          match own_attr h o a with
          | None => (Raises AttributeError, h)
          | Some _ =>
              let h' := delattr h o a in
              if negb (hasattr h' (VRef o) a)
              then (Returns tt, setattr h' o a (temp_original e))
              else (Returns tt, h')
          end
    | _ => (Raises AttributeError, h)
    end.

(** [exit_stack.enter_context(p)] for each handle in turn; the stack holds
    the entered handles, the latest on top. *)
Fixpoint enter_contexts (ps : list patcher) (stack : list entered) (h : heap)
    : outcome unit * list entered * list pyobj :=
  match ps with
  | [] => (Returns tt, stack, h)
  | p :: ps' =>
      match patch_enter p h with
      | (Returns e, h') => enter_contexts ps' (e :: stack) h'
      | (Raises x, h') => (Raises x, stack, h')
      end
  end.

(** [ExitStack.__exit__]: every callback runs, latest first; an exception
    raised by a callback replaces the pending outcome. *)
Fixpoint close {A} (stack : list entered) (pending : outcome A) (h : heap)
    : outcome A * list pyobj :=
  match stack with
  | [] => (pending, h)
  | e :: stack' =>
      match patch_exit e h with
      | (Returns _, h') => close stack' pending h'
      | (Raises x, h') => close stack' (Raises x) h'
      end
  end.

(** [with ExitStack() as exit_stack: enter the handles; body] *)
Definition with_exit_stack {A} (ps : list patcher) (body : M (list pyobj) A)
    : M (list pyobj) A :=
  fun h =>
    match enter_contexts ps [] h with
    | (Returns _, stack, h1) => let (r, h2) := body h1 in close stack r h2
    | (Raises x, stack, h1) => close stack (Raises x) h1
    end.

(** Sessions nested in strict LIFO order: the handles of a session stay
    entered while the sessions inside it run one after the other. *)
#[warnings="-register-all"] Inductive scope := Scope (handles : list patcher) (inner : list scope).

Fixpoint run_scope (s : scope) : M (list pyobj) unit :=
  match s with
  | Scope handles inner =>
      with_exit_stack handles
        ((fix run_all (ss : list scope) : M (list pyobj) unit :=
            match ss with
            | [] => ret tt
            | s' :: ss' => let* _ := run_scope s' in run_all ss'
            end) inner)
  end.

Definition run_scopes : list scope -> M (list pyobj) unit :=
  fix run_all (ss : list scope) : M (list pyobj) unit :=
    match ss with
    | [] => ret tt
    | s' :: ss' => let* _ := run_scope s' in run_all ss'
    end.

(** The value a seam shows to the program. *)
Definition seam_value (h : heap) (s : seam) : option value := getattr h (fst s) (snd s).

(** Two handles of nested sessions on [http.client.HTTPConnection]. *)
Definition handle_outer : patcher :=
  {| p_target := VRef 4; p_attribute := "HTTPConnection"; p_new := VRef 0 |}.

Definition handle_inner : patcher :=
  {| p_target := VRef 4; p_attribute := "HTTPConnection"; p_new := VRef 1 |}.

(** Two nested sessions, each with its own builder, patch
    [http.client.HTTPConnection] with [VCRHTTPConnection]; the list is what
    the seam shows before, inside the outer session, inside the inner one,
    after the inner one has left, and after the outer one has. *)
Definition nested_trace : list (option value) :=
  let s := (VRef 4, "HTTPConnection") in
  let outer := {| cassette_id := 1; _path := "outer.yaml"; custom_patches := [] |} in
  let inner := {| cassette_id := 2; _path := "inner.yaml"; custom_patches := [] |} in
  match _build_patcher (VRef 4) "HTTPConnection" (VRef 0)
                       {| w_builder := __init__ outer; w_heap := heap_httplib |} with
  | (Returns (Some a), wa) =>
      match patch_enter a (w_heap wa) with
      | (Returns ea, ha) =>
          match _build_patcher (VRef 4) "HTTPConnection" (VRef 0)
                               {| w_builder := __init__ inner; w_heap := ha |} with
          | (Returns (Some b), wb) =>
              match patch_enter b (w_heap wb) with
              | (Returns eb, hb) =>
                  let hb' := (patch_exit eb hb).2 in
                  let ha' := (patch_exit ea hb').2 in
                  [ seam_value heap_httplib s; seam_value ha s; seam_value hb s;
                    seam_value hb' s; seam_value ha' s;
                    getattr hb (VRef 5) "cassette"; getattr hb (VRef 6) "cassette" ]
              | _ => []
              end
          | _ => []
          end
      | _ => []
      end
  | _ => []
  end.

(** ** Connections and connection pools *)

(** A connection object: its identity and its type. *)
Record connection_object := Conn {
  conn_id : nat;
  conn_class : ref
}.

#[global] Instance conn_eq_dec : EqDecision connection_object.
Proof. solve_decision. Defined.

#[global] Instance conn_countable : Countable connection_object.
Proof.
  refine (inj_countable' (fun c => (conn_id c, conn_class c))
                         (fun p => {| conn_id := p.1; conn_class := p.2 |}) _).
  by intros [].
Defined.

(** What a pool's queue holds: a connection, or the [None] urllib3 fills
    the free slots with. *)
Abbreviation entry := (option connection_object) (only parsing).

(** [isinstance(connection, connection_class)] *)
Definition isinstance (h : heap) (x : entry) (connection_class : ref) : bool :=
  match x with
  | Some c => issubclass h (conn_class c) connection_class
  | None => false
  end.

Arguments isinstance : simpl never.

(** [pool.QueueCls]: urllib3 uses [queue.LifoQueue]; a subclass may choose
    [queue.Queue]. *)
Inductive queue_class := LifoQueue | FifoQueue.

(** A connection pool.  [pool_pool] is the content of [pool.pool] in the
    order in which [get()] hands it out, and [None] once the pool is
    closed; [ConnectionCls] is [None] when the pool has no such attribute.
    A put follows at least as many gets here, so the capacity of the queue
    never comes into play and is left out. *)
Record connection_pool := Pool {
  ConnectionCls : option ref;
  QueueCls : queue_class;
  pool_pool : option (list (option connection_object))
}.

Definition set_queue (q : list entry) (p : connection_pool) : connection_pool :=
  {| ConnectionCls := ConnectionCls p; QueueCls := QueueCls p; pool_pool := Some q |}.

(** [queue.put(x)]: on top of a LIFO queue, at the back of a FIFO queue. *)
Definition queue_put (d : queue_class) (x : entry) (q : list entry) : list entry :=
  match d with
  | LifoQueue => x :: q
  | FifoQueue => q ++ [x]
  end.

(** [pool._put_conn(conn)]: a closed pool swallows the connection. *)
Definition _put_conn (x : entry) (p : connection_pool) : connection_pool :=
  match pool_pool p with
  | Some q => set_queue (queue_put (QueueCls p) x q) p
  | None => p
  end.

(** ** ConnectionRemover *)

Module ConnectionRemover.

(** The dictionary keeps its keys, the pools, in insertion order. *)
Record t := Make {
  _connection_class : ref;
  _connection_pool_to_connections : list (nat * gset connection_object)
}.

Definition __init__ (connection_class : ref) : t :=
  {| _connection_class := connection_class;
     _connection_pool_to_connections := [] |}.

(** [d.setdefault(pool, set()).add(connection)] *)
Fixpoint setdefault_add (pool : nat) (connection : connection_object)
    (d : list (nat * gset connection_object)) : list (nat * gset connection_object) :=
  match d with
  | [] => [(pool, {[ connection ]})]
  | (k, s) :: d' =>
      if decide (k = pool) then (k, {[ connection ]} ∪ s) :: d'
      else (k, s) :: setdefault_add pool connection d'
  end.

Definition add_connection_to_pool_entry (h : heap) (pool : nat)
    (connection : connection_object) (self : t) : t :=
  if isinstance h (Some connection) (_connection_class self) then
    {| _connection_class := _connection_class self;
       _connection_pool_to_connections :=
         setdefault_add pool connection (_connection_pool_to_connections self) |}
  else self.

(** The dictionary is indexed with the connection class, which is never
    one of its keys, the pools: for an instance of the class the lookup
    raises. *)
Definition remove_connection_to_pool_entry (h : heap) (pool : nat)
    (connection : connection_object) : M t unit :=
  fun self =>
    if isinstance h (Some connection) (_connection_class self)
    then (Raises KeyError, self)
    else (Returns tt, self).

Definition __enter__ (self : t) : t := self.

(** [connections.remove(connection)] on a set. *)
Definition set_remove (x : entry) (connections : gset connection_object)
    : outcome (gset connection_object) :=
  match x with
  | Some c =>
      if decide (c ∈ connections) then Returns (connections ∖ {[ c ]})
      else Raises KeyError
  | None => Raises KeyError
  end.

(** The state of the [while] loop over one pool. *)
Record drained := Drained {
  d_queue : list (option connection_object);       (* what is left in [pool.pool] *)
  d_connections : gset connection_object;         (* the tracked set *)
  d_readd : list (option connection_object)       (* [readd_connections] *)
}.

(** [while pool.pool and not pool.pool.empty() and connections: ...] *)
Fixpoint drain (h : heap) (connection_class : ref) (queue : list entry)
    (connections : gset connection_object) (readd_connections : list entry)
    : outcome unit * drained :=
  match queue with
  | [] => (Returns tt, Drained [] connections readd_connections)
  | connection :: queue' =>
      if decide (connections = ∅)
      then (Returns tt, Drained queue connections readd_connections)
      else if isinstance h connection connection_class then
        match set_remove connection connections with
        | Returns connections' =>
            drain h connection_class queue' connections' readd_connections
        | Raises e => (Raises e, Drained queue' connections readd_connections)
        end
      else drain h connection_class queue' connections
                 (readd_connections ++ [connection])
  end.

(** [for connection in readd_connections: pool._put_conn(connection)] *)
Definition readd (readd_connections : list entry) (p : connection_pool) : connection_pool :=
  foldl (fun p x => _put_conn x p) p readd_connections.

(** The body of the [for] loop of [__exit__] for one pool. *)
Definition sift (h : heap) (connection_class : ref) (p : connection_pool)
    (connections : gset connection_object) : outcome unit * (connection_pool * gset connection_object) :=
  match pool_pool p with
  | None => (Returns tt, (p, connections))
  | Some queue =>
      match drain h connection_class queue connections [] with
      | (Returns _, d) =>
          (Returns tt, (readd (d_readd d) (set_queue (d_queue d) p), d_connections d))
      | (Raises e, d) => (Raises e, (set_queue (d_queue d) p, d_connections d))
      end
  end.

(** [for pool, connections in self._connection_pool_to_connections.items()] *)
Fixpoint sift_items (h : heap) (connection_class : ref)
    (items : list (nat * gset connection_object)) (pools : nat -> connection_pool)
    : outcome unit * (list (nat * gset connection_object) * (nat -> connection_pool)) :=
  match items with
  | [] => (Returns tt, ([], pools))
  | (pool, connections) :: rest =>
      match sift h connection_class (pools pool) connections with
      | (Returns _, (p', connections')) =>
          match sift_items h connection_class rest (<[pool := p']> pools) with
          | (out, (rest', pools')) => (out, ((pool, connections') :: rest', pools'))
          end
      | (Raises e, (p', connections')) =>
          (Raises e, ((pool, connections') :: rest, <[pool := p']> pools))
      end
  end.

(** [__exit__], over the remover and the pools it reaches. *)
Definition __exit__ (h : heap) : M (t * (nat -> connection_pool)) unit :=
  fun '(self, pools) =>
    match sift_items h (_connection_class self)
                     (_connection_pool_to_connections self) pools with
    | (out, (items', pools')) =>
        (out, ({| _connection_class := _connection_class self;
                  _connection_pool_to_connections := items' |}, pools'))
    end.

End ConnectionRemover.

(** ** Drain-and-sift: vocabulary *)

(** The entries of a queue that are not instances of the class, in queue
    order, and the connections that are. *)
Definition noninstances (h : heap) (connection_class : ref) (q : list entry)
    : list (option connection_object) :=
  List.filter (fun x => negb (isinstance h x connection_class)) q.

Definition instances (h : heap) (connection_class : ref) (q : list entry)
    : list connection_object :=
  omap (fun x => if isinstance h x connection_class then x else None) q.

Arguments noninstances : simpl never.
Arguments instances : simpl never.

(** Every connection of the tracked class that sits in the queue sits there
    once and is in the tracked set. *)
Definition tracked_ok (h : heap) (connection_class : ref) (q : list entry)
    (connections : gset connection_object) : Prop :=
  NoDup (instances h connection_class q)
  /\ Forall (fun c => c ∈ connections) (instances h connection_class q).

(** The queue after the entries [aside], taken out in this order, have been
    put back over the untouched [rest]. *)
Definition requeued (d : queue_class) (aside rest : list entry) : list (option connection_object) :=
  match d with
  | LifoQueue => rev aside ++ rest
  | FifoQueue => rest ++ aside
  end.

Definition queue_of (p : connection_pool) : list (option connection_object) := default [] (pool_pool p).

(** The dictionary of the remover has each pool once, and every pool it
    names satisfies [tracked_ok] with its tracked set. *)
Definition exit_ready (h : heap) (self : ConnectionRemover.t) (pools : nat -> connection_pool) : Prop :=
  NoDup (map fst (ConnectionRemover._connection_pool_to_connections self))
  /\ Forall (fun item => tracked_ok h (ConnectionRemover._connection_class self)
                                    (queue_of (pools (fst item))) (snd item))
            (ConnectionRemover._connection_pool_to_connections self).

(** The tracker holds instances of the remover's class only. *)
Definition tracks_instances (h : heap) (self : ConnectionRemover.t) : Prop :=
  Forall (fun item =>
            set_Forall (fun c => isinstance h (Some c)
                                   (ConnectionRemover._connection_class self) = true)
                       (snd item))
         (ConnectionRemover._connection_pool_to_connections self).

(** C5 as the specification words it: the entries that are kept keep their
    relative order in the pool. *)
Definition keeps_relative_order (h : heap) (self : ConnectionRemover.t)
    (pools : nat -> connection_pool) : Prop :=
  forall out self' pools' pid,
    ConnectionRemover.__exit__ h (self, pools) = (out, (self', pools')) ->
    noninstances h (ConnectionRemover._connection_class self) (queue_of (pools' pid))
    = noninstances h (ConnectionRemover._connection_class self) (queue_of (pools pid)).

(** C6 as the specification words it: no pool makes [__exit__] raise. *)
Definition never_raises (h : heap) (self : ConnectionRemover.t)
    (pools : nat -> connection_pool) : Prop :=
  exists st, ConnectionRemover.__exit__ h (self, pools) = (Returns tt, st).

(** A session's substitute of [VCRRequestsHTTPConnection] (class 2), the
    connection class of urllib3 (class 1), three connections made by the
    session and two that were in the pool before it. *)
Definition heap_pool : list pyobj :=
  [ {| py_kind := KClass; py_name := "VCRRequestsHTTPConnection"; py_mro := [];
       py_dict := {[ "cassette" := VNone ]} |};
    {| py_kind := KClass; py_name := "HTTPConnection"; py_mro := [];
       py_dict := ∅ |};
    {| py_kind := KClass; py_name := "VCRRequestsHTTPConnectiontape.yaml";
       py_mro := [0]; py_dict := {[ "cassette" := VCassette 7 ]} |} ].

Definition conn_s1 : connection_object := {| conn_id := 11; conn_class := 2 |}.
Definition conn_s2 : connection_object := {| conn_id := 12; conn_class := 2 |}.
Definition conn_a : connection_object := {| conn_id := 1; conn_class := 1 |}.
Definition conn_b : connection_object := {| conn_id := 2; conn_class := 1 |}.

Definition closed_pool : connection_pool :=
  {| ConnectionCls := Some 2; QueueCls := LifoQueue; pool_pool := None |}.

(** Pool 0, a LIFO pool: [conn_b] on top, then [conn_a], then the session's
    [conn_s1] at the bottom. *)
Definition pools_lifo : nat -> connection_pool :=
  <[0 := {| ConnectionCls := Some 2; QueueCls := LifoQueue;
            pool_pool := Some [Some conn_b; Some conn_a; Some conn_s1] |}]>
  (fun _ => closed_pool).

(** The same pool as a FIFO queue with [conn_a] at the front. *)
Definition pools_fifo : nat -> connection_pool :=
  <[0 := {| ConnectionCls := Some 2; QueueCls := FifoQueue;
            pool_pool := Some [Some conn_a; Some conn_s1; Some conn_b] |}]>
  (fun _ => closed_pool).

Definition remover_s1 : ConnectionRemover.t :=
  ConnectionRemover.add_connection_to_pool_entry heap_pool 0 conn_s1
    (ConnectionRemover.__init__ 2).

(** Pool 0 holds a connection of the tracked class that the tracker has
    never seen, above a connection that predates the session. *)
Definition pools_untracked : nat -> connection_pool :=
  <[0 := {| ConnectionCls := Some 2; QueueCls := LifoQueue;
            pool_pool := Some [None; Some conn_s2; Some conn_a] |}]>
  (fun _ => closed_pool).

(** The pool once the sweep has set [aside] apart and put it back over
    [rest]; a closed pool is left as it is. *)
Definition sifted (p : connection_pool) (aside rest : list entry) : connection_pool :=
  match pool_pool p with
  | Some _ => set_queue (requeued (QueueCls p) aside rest) p
  | None => p
  end.

(** What the sweep does to one pool and its tracked set: it takes a prefix
    of the queue, strikes the instances of the class off the tracked set,
    puts the other entries back, and stops at the first moment the queue or
    the tracked set is exhausted. *)
Definition swept (h : heap) (connection_class : ref) (p p' : connection_pool)
    (connections connections' : gset connection_object) : Prop :=
  exists taken rest,
    queue_of p = taken ++ rest
    /\ p' = sifted p (noninstances h connection_class taken) rest
    /\ connections' = connections ∖ list_to_set (instances h connection_class taken)
    /\ (rest = [] \/ connections' = ∅)
    /\ (forall m, m < length taken ->
          connections
            ∖ list_to_set (instances h connection_class (take m (queue_of p))) ≠ ∅).

(** Nothing is left for the sweep to do in any pool the remover names: the
    pool is closed, empty or already drained, or its tracked set is empty. *)
Definition nothing_to_drain (self : ConnectionRemover.t) (pools : nat -> connection_pool) : Prop :=
  Forall (fun item => queue_of (pools (fst item)) = [] \/ snd item = ∅)
         (ConnectionRemover._connection_pool_to_connections self).

Definition pools_drained : nat -> connection_pool :=
  <[0 := {| ConnectionCls := Some 2; QueueCls := LifoQueue; pool_pool := Some [] |}]>
  (fun _ => closed_pool).

(** ** Pool-aware seam: the acquire wrapper *)

(** The pools together with a count of the calls made to the pools'
    original acquire primitive. *)
Record acquiring := Acquiring {
  pools : nat -> connection_pool;
  get_conn_calls : nat
}.

(** [pool.ConnectionCls if hasattr(pool, "ConnectionCls") else
    connection_class_getter()] *)
Definition expected_class (connection_class_getter : ref) (p : connection_pool) : ref :=
  default connection_class_getter (ConnectionCls p).

(** The connections in a queue that are not instances of the class. *)
Definition wrong_type (h : heap) (connection_class : ref) (q : list entry)
    : list (option connection_object) :=
  List.filter (fun x => match x with
                        | Some _ => negb (isinstance h x connection_class)
                        | None => false
                        end) q.

Section PoolAware.
Context (h : list pyobj).

(** The pool's creation primitive, as the seam [_new_conn] stands when the
    wrapper runs. *)
Context (new_conn : nat -> M (nat -> connection_pool) connection_object).

(** Modelled from the spec: the pool's original acquire primitive, urllib3's
    [HTTPConnectionPool._get_conn], which [_patched_get_conn] wraps and which
    is not part of [patch.py].  It hands out the next entry of the queue and
    falls back on the creation primitive when the queue is drained or the
    entry is a free slot; a closed pool raises. *)
Definition get_conn (pool : nat) : M acquiring connection_object :=
  fun s =>
    let counted ps := {| pools := ps; get_conn_calls := S (get_conn_calls s) |} in
    let create ps :=
      match new_conn pool ps with
      | (out, ps') => (out, counted ps')
      end in
    match pool_pool (pools s pool) with
    | None => (Raises ClosedPoolError, counted (pools s))
    | Some [] => create (pools s)
    | Some (Some c :: q) =>
        (Returns c, counted (<[pool := set_queue q (pools s pool)]> (pools s)))
    | Some (None :: q) =>
        create (<[pool := set_queue q (pools s pool)]> (pools s))
    end.

(** [while not isinstance(connection, connection_class): connection =
    get_conn(pool, timeout)], for at most [fuel] rounds; [None] says the
    loop was still running when the fuel ran out. *)
Fixpoint while_not_instance (fuel : nat) (pool : nat) (connection_class : ref)
    (connection : connection_object) : M acquiring (option connection_object) :=
  if isinstance h (Some connection) connection_class then ret (Some connection)
  else
    match fuel with
    | 0 => ret None
    | S fuel' =>
        let* connection' := get_conn pool in
        while_not_instance fuel' pool connection_class connection'
    end.

(** The closure [_patched_get_conn] returns. *)
Definition patched_get_conn (fuel : nat) (connection_class_getter : ref)
    (pool : nat) : M acquiring (option connection_object) :=
  let* connection := get_conn pool in
  let* connection_class :=
    gets (fun s => expected_class connection_class_getter (pools s pool)) in
  while_not_instance fuel pool connection_class connection.

End PoolAware.

(** A creation primitive that builds a connection of class [k]. *)
Definition create_connection (k : ref) (fresh : nat) (pool : nat)
    : M (nat -> connection_pool) connection_object :=
  ret {| conn_id := fresh; conn_class := k |}.

(** The creation primitive always yields an instance of the class and
    leaves the pool's queue and connection class as they are. *)
Definition creates_instances (h : heap) (new_conn : nat -> M (nat -> connection_pool) connection_object)
    (pool : nat) (connection_class : ref) : Prop :=
  forall ps, exists c ps',
    new_conn pool ps = (Returns c, ps')
    /\ isinstance h (Some c) connection_class = true
    /\ ps' pool = ps pool.

(** A pool that three connections of urllib3's own class were left in
    before the session patched [ConnectionCls]. *)
Definition pools_stale : nat -> connection_pool :=
  <[0 := {| ConnectionCls := Some 2; QueueCls := LifoQueue;
            pool_pool := Some [Some conn_a; Some conn_b; None; Some conn_a] |}]>
  (fun _ => closed_pool).

(** ** The process: module table, heap-level helpers *)

(** [x.a] on the heap alone. *)
Definition attr (x : value) (a : string) : M (list pyobj) value :=
  fun h =>
    match getattr h x a with
    | Some v => (Returns v, h)
    | None => (Raises AttributeError, h)
    end.

(** [x.a.b...] *)
Fixpoint attr_path (x : value) (path : list string) : M (list pyobj) value :=
  match path with
  | [] => ret x
  | a :: path' => let* y := attr x a in attr_path y path'
  end.

(** A new object enters the heap. *)
Definition alloc (ob : pyobj) : M (list pyobj) value :=
  fun h => (Returns (VRef (length h)), h ++ [ob]).

(** A heap computation inside a method of the builder. *)
Definition lift {A} (m : M (list pyobj) A) : M world A :=
  fun w => match m (w_heap w) with (out, h') => (out, set_heap h' w) end.

(** A module-level name that is bound only if its [try] block went through:
    using it unbound raises NameError. *)
Definition bound {S} (name : option value) : M S value :=
  match name with
  | Some v => ret v
  | None => raise NameError
  end.

(** The names [patch.py] binds when it is loaded. *)
Record globals := Globals {
  httplib : value;
  VCRHTTPConnection : value;
  VCRHTTPSConnection : value;
  _HTTPConnection : value;
  _HTTPSConnection : value;
  _Boto3VerifiedHTTPSConnection : option value;
  _cpoolBoto3HTTPConnection : option value;
  _cpoolBoto3HTTPSConnection : option value;
  cpool : value;
  conn : value;
  _VerifiedHTTPSConnection : option value;
  _connHTTPConnection : option value;
  _connHTTPSConnection : option value;
  _HTTPConnectionWithTimeout : option value;
  _HTTPSConnectionWithTimeout : option value;
  _SCHEME_TO_CONNECTION : option value;
  _CertValidatingHTTPSConnection : option value;
  _SimpleAsyncHTTPClient_fetch_impl : option value;
  _CurlAsyncHTTPClient_fetch_impl : option value;
  _AiohttpClientSessionRequest : option value;
  _HttpxSyncClient_send : option value;
  _HttpxAsyncClient_send : option value
}.

Section Process.

(** [sys.modules] together with everything the interpreter could import:
    the name of a module to its module object. *)
Context (sys_modules : gmap string nat).

(** [import name] *)
Definition import_module {S} (name : string) : M S value :=
  match sys_modules !! name with
  | Some m => ret (VRef m)
  | None => raise ImportError
  end.

(** [try: import name / except ImportError: ...], the module if there is one. *)
Definition try_import {S} (name : string) : M S (option value) :=
  ret (VRef <$> sys_modules !! name).

(** [from module import name] *)
Definition import_from (module name : string) : M (list pyobj) value :=
  fun h =>
    match sys_modules !! module with
    | Some m =>
        match getattr h (VRef m) name with
        | Some v => (Returns v, h)
        | None => (Raises ImportError, h)
        end
    | None => (Raises ImportError, h)
    end.

(** [try: import module / except ImportError: pass / else: X = module.path] *)
Definition capture (module : string) (path : list string)
    : M (list pyobj) (option value) :=
  match sys_modules !! module with
  | Some m => let* v := attr_path (VRef m) path in ret (Some v)
  | None => ret None
  end.

(** The [botocore] block: the names come from [botocore.awsrequest]; when
    they cannot be imported, a vendored [requests] means an old botocore. *)
Definition load_boto3 : M (list pyobj) (option (value * value)) :=
  fun h =>
    match import_from "botocore.awsrequest" "AWSHTTPConnection" h with
    | (Returns http, _) =>
        match import_from "botocore.awsrequest" "AWSHTTPSConnection" h with
        | (Returns https, _) => (Returns (Some (http, https)), h)
        | (Raises _, _) =>
            match sys_modules !! "botocore.vendored.requests" with
            | Some _ => (Raises RuntimeError, h)
            | None => (Returns None, h)
            end
        end
    | (Raises _, _) =>
        match sys_modules !! "botocore.vendored.requests" with
        | Some _ => (Raises RuntimeError, h)
        | None => (Returns None, h)
        end
    end.

(** The [requests] block: [requests.__build__ < 0x021602] is fatal. *)
Definition load_requests : M (list pyobj) unit :=
  let* requests := try_import "requests" in
  match requests with
  | None => ret tt
  | Some requests =>
      let* build := attr requests "__build__" in
      match build with
      | VInt n => if (n <? 0x021602)%N then raise RuntimeError else ret tt
      | _ => raise TypeError
      end
  end.

(** The module-level code of [patch.py], lines 1 to 107. *)
Definition load : M (list pyobj) globals :=
  let* httplib := import_module "http.client" in
  let* VCRHTTPConnection := import_from "vcr.stubs" "VCRHTTPConnection" in
  let* VCRHTTPSConnection := import_from "vcr.stubs" "VCRHTTPSConnection" in
  let* _HTTPConnection := attr httplib "HTTPConnection" in
  let* _HTTPSConnection := attr httplib "HTTPSConnection" in
  let* boto3 := load_boto3 in
  let* conn := try_import "urllib3.connection" in
  let* cpool :=
    match conn with
    | Some _ => try_import "urllib3.connectionpool"
    | None => ret None
    end in
  let urllib3 := match cpool with Some _ => conn | None => None end in
  let* _VerifiedHTTPSConnection :=
    match urllib3 with
    | Some conn => let* v := attr conn "VerifiedHTTPSConnection" in ret (Some v)
    | None => ret None
    end in
  let* _connHTTPConnection :=
    match urllib3 with
    | Some conn => let* v := attr conn "HTTPConnection" in ret (Some v)
    | None => ret None
    end in
  let* _connHTTPSConnection :=
    match urllib3 with
    | Some conn => let* v := attr conn "HTTPSConnection" in ret (Some v)
    | None => ret None
    end in
  let* _ := load_requests in
  let* _HTTPConnectionWithTimeout := capture "httplib2" ["HTTPConnectionWithTimeout"] in
  let* _HTTPSConnectionWithTimeout := capture "httplib2" ["HTTPSConnectionWithTimeout"] in
  let* _SCHEME_TO_CONNECTION := capture "httplib2" ["SCHEME_TO_CONNECTION"] in
  let* _CertValidatingHTTPSConnection :=
    capture "boto.https_connection" ["CertValidatingHTTPSConnection"] in
  let* _SimpleAsyncHTTPClient_fetch_impl :=
    capture "tornado.simple_httpclient" ["SimpleAsyncHTTPClient"; "fetch_impl"] in
  let* _CurlAsyncHTTPClient_fetch_impl :=
    capture "tornado.curl_httpclient" ["CurlAsyncHTTPClient"; "fetch_impl"] in
  let* _AiohttpClientSessionRequest :=
    capture "aiohttp.client" ["ClientSession"; "_request"] in
  let* _HttpxSyncClient_send := capture "httpx" ["Client"; "send"] in
  let* _HttpxAsyncClient_send := capture "httpx" ["AsyncClient"; "send"] in
  ret {| httplib := httplib;
         VCRHTTPConnection := VCRHTTPConnection;
         VCRHTTPSConnection := VCRHTTPSConnection;
         _HTTPConnection := _HTTPConnection;
         _HTTPSConnection := _HTTPSConnection;
         _Boto3VerifiedHTTPSConnection := snd <$> boto3;
         _cpoolBoto3HTTPConnection := fst <$> boto3;
         _cpoolBoto3HTTPSConnection := snd <$> boto3;
         cpool := default VNone cpool;
         conn := default VNone conn;
         _VerifiedHTTPSConnection := _VerifiedHTTPSConnection;
         _connHTTPConnection := _connHTTPConnection;
         _connHTTPSConnection := _connHTTPSConnection;
         _HTTPConnectionWithTimeout := _HTTPConnectionWithTimeout;
         _HTTPSConnectionWithTimeout := _HTTPSConnectionWithTimeout;
         _SCHEME_TO_CONNECTION := _SCHEME_TO_CONNECTION;
         _CertValidatingHTTPSConnection := _CertValidatingHTTPSConnection;
         _SimpleAsyncHTTPClient_fetch_impl := _SimpleAsyncHTTPClient_fetch_impl;
         _CurlAsyncHTTPClient_fetch_impl := _CurlAsyncHTTPClient_fetch_impl;
         _AiohttpClientSessionRequest := _AiohttpClientSessionRequest;
         _HttpxSyncClient_send := _HttpxSyncClient_send;
         _HttpxAsyncClient_send := _HttpxAsyncClient_send |}.

End Process.

(** ** Per-backend seam adapters and [build] *)

(** What [build] hands to the session: patch handles and pool guards. *)
Inductive resource :=
| RPatch (p : patcher)
| RRemover (r : ConnectionRemover.t).

Definition function_object (name : string) : pyobj :=
  {| py_kind := KFunction; py_name := name; py_mro := []; py_dict := ∅ |}.

(** [mock.Mock(return_value=False)] *)
Definition Mock : M world value :=
  lift (alloc {| py_kind := KMock; py_name := "Mock"; py_mro := []; py_dict := ∅ |}).

(** [klass.cassette] on anything that is not an object raises
    AttributeError. *)
Definition get_cassette_subclass_of (klass : value) : M world ref :=
  match klass with
  | VRef k => _get_cassette_subclass k
  | _ => raise AttributeError
  end.

(** The closure's behaviour is [patched_get_conn]; to the builder it is a
    new function object, made after [connection_pool_class._get_conn] has
    been read. *)
Definition _patched_get_conn (connection_pool_class : value) : M world value :=
  let* get_conn := lift (attr connection_pool_class "_get_conn") in
  lift (alloc (function_object "_get_conn")).

(** Likewise for the creation wrapper, which calls the original
    [_new_conn] and then [add_connection_to_pool_entry]. *)
Definition _patched_new_conn (connection_pool_class : value) : M world value :=
  let* new_conn := lift (attr connection_pool_class "_new_conn") in
  lift (alloc (function_object "_new_conn")).

(** The decorator: the triples an adapter yields go through
    [_build_patchers_from_mock_triples].  Generators are run to exhaustion
    here, an adapter's triples first and its handles after. *)
Definition _build_patchers_from_mock_triples_decorator
    (function : M world (list triple)) : M world (list resource) :=
  let* mock_triples := function in
  let* patchers := _build_patchers_from_mock_triples mock_triples in
  ret (RPatch <$> patchers).

(** What [_urllib3_patchers] has ready when it returns: the triples its
    generator will go through, and the two removers chained after them. *)
Record urllib3_patchers := Urllib3Patchers {
  mock_triples : list triple;
  removers : list ConnectionRemover.t
}.

Definition _urllib3_patchers (cpool conn stubs : value) : M world urllib3_patchers :=
  let* http_stub := lift (attr stubs "VCRRequestsHTTPConnection") in
  let* http_class := get_cassette_subclass_of http_stub in
  let http_connection_remover := ConnectionRemover.__init__ http_class in
  let* https_stub := lift (attr stubs "VCRRequestsHTTPSConnection") in
  let* https_class := get_cassette_subclass_of https_stub in
  let https_connection_remover := ConnectionRemover.__init__ https_class in
  let* t1 := lift (attr stubs "VCRRequestsHTTPSConnection") in
  let* t2 := lift (attr stubs "VCRRequestsHTTPConnection") in
  let* t3 := lift (attr stubs "VCRRequestsHTTPSConnection") in
  let* is_connection_dropped := Mock in
  let* HTTPConnectionPool := lift (attr cpool "HTTPConnectionPool") in
  let* t5 := lift (attr stubs "VCRRequestsHTTPConnection") in
  let* HTTPSConnectionPool := lift (attr cpool "HTTPSConnectionPool") in
  let* t6 := lift (attr stubs "VCRRequestsHTTPSConnection") in
  let* HTTPConnectionPool' := lift (attr cpool "HTTPConnectionPool") in
  let* get_conn_http := _patched_get_conn HTTPConnectionPool' in
  let* HTTPSConnectionPool' := lift (attr cpool "HTTPSConnectionPool") in
  let* get_conn_https := _patched_get_conn HTTPSConnectionPool' in
  let* HTTPConnectionPool'' := lift (attr cpool "HTTPConnectionPool") in
  let* new_conn_http := _patched_new_conn HTTPConnectionPool'' in
  let* HTTPSConnectionPool'' := lift (attr cpool "HTTPSConnectionPool") in
  let* new_conn_https := _patched_new_conn HTTPSConnectionPool'' in
  ret {| mock_triples :=
           [ Triple conn "VerifiedHTTPSConnection" t1;
             Triple conn "HTTPConnection" t2;
             Triple conn "HTTPSConnection" t3;
             Triple cpool "is_connection_dropped" is_connection_dropped;
             Triple HTTPConnectionPool "ConnectionCls" t5;
             Triple HTTPSConnectionPool "ConnectionCls" t6;
             Triple HTTPConnectionPool' "_get_conn" get_conn_http;
             Triple HTTPSConnectionPool' "_get_conn" get_conn_https;
             Triple HTTPConnectionPool'' "_new_conn" new_conn_http;
             Triple HTTPSConnectionPool'' "_new_conn" new_conn_https ];
         removers := [http_connection_remover; https_connection_remover] |}.

(** [itertools.chain(self._build_patchers_from_mock_triples(mock_triples),
    (http_connection_remover, https_connection_remover))], consumed. *)
Definition chain_urllib3 (u : option urllib3_patchers) : M world (list resource) :=
  match u with
  | None => ret []
  | Some u =>
      let* patchers := _build_patchers_from_mock_triples (mock_triples u) in
      ret ((RPatch <$> patchers) ++ (RRemover <$> removers u))
  end.

Section Adapters.
Context (sys_modules : gmap string nat) (g : globals).

Definition _httplib : M world (list triple) :=
  ret [ Triple (httplib g) "HTTPConnection" (VCRHTTPConnection g);
        Triple (httplib g) "HTTPSConnection" (VCRHTTPSConnection g) ].

Definition _requests : M world (option urllib3_patchers) :=
  let* requests_stubs := try_import sys_modules "vcr.stubs.requests_stubs" in
  match requests_stubs with
  | None => ret None
  | Some requests_stubs =>
      let* u := _urllib3_patchers (cpool g) (conn g) requests_stubs in ret (Some u)
  end.

Definition _boto3 : M world (list triple) :=
  let* cpool := try_import sys_modules "botocore.awsrequest" in
  match cpool with
  | None => ret []
  | Some cpool =>
      let* boto3_stubs := import_module sys_modules "vcr.stubs.boto3_stubs" in
      let* http_pool := lift (attr cpool "AWSHTTPConnectionPool") in
      let* http := lift (attr boto3_stubs "VCRRequestsHTTPConnection") in
      let* https_pool := lift (attr cpool "AWSHTTPSConnectionPool") in
      let* https := lift (attr boto3_stubs "VCRRequestsHTTPSConnection") in
      ret [ Triple http_pool "ConnectionCls" http;
            Triple https_pool "ConnectionCls" https ]
  end.

Definition _urllib3 : M world (option urllib3_patchers) :=
  let* conn := try_import sys_modules "urllib3.connection" in
  let* cpool :=
    match conn with
    | Some _ => try_import sys_modules "urllib3.connectionpool"
    | None => ret None
    end in
  match conn, cpool with
  | Some conn, Some cpool =>
      let* urllib3_stubs := import_module sys_modules "vcr.stubs.urllib3_stubs" in
      let* u := _urllib3_patchers cpool conn urllib3_stubs in ret (Some u)
  | _, _ => ret None
  end.

Definition _httplib2 : M world (list triple) :=
  let* cpool := try_import sys_modules "httplib2" in
  match cpool with
  | None => ret []
  | Some cpool =>
      let* VCRHTTPConnectionWithTimeout :=
        lift (import_from sys_modules "vcr.stubs.httplib2_stubs"
                          "VCRHTTPConnectionWithTimeout") in
      let* VCRHTTPSConnectionWithTimeout :=
        lift (import_from sys_modules "vcr.stubs.httplib2_stubs"
                          "VCRHTTPSConnectionWithTimeout") in
      ret [ Triple cpool "HTTPConnectionWithTimeout" VCRHTTPConnectionWithTimeout;
            Triple cpool "HTTPSConnectionWithTimeout" VCRHTTPSConnectionWithTimeout;
            Triple cpool "SCHEME_TO_CONNECTION"
                   (VDict [ ("http", VCRHTTPConnectionWithTimeout);
                            ("https", VCRHTTPSConnectionWithTimeout) ]) ]
  end.

Definition _boto : M world (list triple) :=
  let* cpool := try_import sys_modules "boto.https_connection" in
  match cpool with
  | None => ret []
  | Some cpool =>
      let* VCRCertValidatingHTTPSConnection :=
        lift (import_from sys_modules "vcr.stubs.boto_stubs"
                          "VCRCertValidatingHTTPSConnection") in
      ret [ Triple cpool "CertValidatingHTTPSConnection"
                   VCRCertValidatingHTTPSConnection ]
  end.

(** A stub factory such as [vcr_fetch_impl(self._cassette, original)]: its
    code is in [vcr.stubs]; what the builder sees of the call is that the
    factory and the saved original are looked up and a new function object
    comes back. *)
Definition call_stub (module factory : string) (original : option value)
    (name : string) : M world value :=
  let* f := lift (import_from sys_modules module factory) in
  let* original := bound original in
  lift (alloc (function_object name)).

Definition _tornado : M world (list triple) :=
  let* simple := try_import sys_modules "tornado.simple_httpclient" in
  let* first :=
    match simple with
    | None => ret []
    | Some simple =>
        let* new_fetch_impl :=
          call_stub "vcr.stubs.tornado_stubs" "vcr_fetch_impl"
                    (_SimpleAsyncHTTPClient_fetch_impl g) "new_fetch_impl" in
        let* target := lift (attr simple "SimpleAsyncHTTPClient") in
        ret [ Triple target "fetch_impl" new_fetch_impl ]
    end in
  let* curl := try_import sys_modules "tornado.curl_httpclient" in
  let* second :=
    match curl with
    | None => ret []
    | Some curl =>
        let* new_fetch_impl :=
          call_stub "vcr.stubs.tornado_stubs" "vcr_fetch_impl"
                    (_CurlAsyncHTTPClient_fetch_impl g) "new_fetch_impl" in
        let* target := lift (attr curl "CurlAsyncHTTPClient") in
        ret [ Triple target "fetch_impl" new_fetch_impl ]
    end in
  ret (first ++ second).

Definition _aiohttp : M world (list triple) :=
  let* client := try_import sys_modules "aiohttp.client" in
  match client with
  | None => ret []
  | Some client =>
      let* new_request :=
        call_stub "vcr.stubs.aiohttp_stubs" "vcr_request"
                  (_AiohttpClientSessionRequest g) "new_request" in
      let* target := lift (attr client "ClientSession") in
      ret [ Triple target "_request" new_request ]
  end.

Definition _httpx : M world (list triple) :=
  let* httpx := try_import sys_modules "httpx" in
  match httpx with
  | None => ret []
  | Some httpx =>
      let* new_async_client_send :=
        call_stub "vcr.stubs.httpx_stubs" "async_vcr_send"
                  (_HttpxAsyncClient_send g) "new_async_client_send" in
      let* async_client := lift (attr httpx "AsyncClient") in
      let* new_sync_client_send :=
        call_stub "vcr.stubs.httpx_stubs" "sync_vcr_send"
                  (_HttpxSyncClient_send g) "new_sync_client_send" in
      let* client := lift (attr httpx "Client") in
      ret [ Triple async_client "send" new_async_client_send;
            Triple client "send" new_sync_client_send ]
  end.

(** [build]: the arguments of [itertools.chain] are evaluated first, which
    runs [_requests] and [_urllib3] as far as their own [chain]; then the
    chain is consumed from left to right. *)
Definition build : M world (list resource) :=
  let* requests := _requests in
  let* urllib3 := _urllib3 in
  let* custom := gets (fun w => custom_patches (_cassette (w_builder w))) in
  let* from_httplib := _build_patchers_from_mock_triples_decorator _httplib in
  let* from_requests := chain_urllib3 requests in
  let* from_boto3 := _build_patchers_from_mock_triples_decorator _boto3 in
  let* from_urllib3 := chain_urllib3 urllib3 in
  let* from_httplib2 := _build_patchers_from_mock_triples_decorator _httplib2 in
  let* from_boto := _build_patchers_from_mock_triples_decorator _boto in
  let* from_tornado := _build_patchers_from_mock_triples_decorator _tornado in
  let* from_aiohttp := _build_patchers_from_mock_triples_decorator _aiohttp in
  let* from_httpx := _build_patchers_from_mock_triples_decorator _httpx in
  let* from_custom := _build_patchers_from_mock_triples custom in
  ret (from_httplib ++ from_requests ++ from_boto3 ++ from_urllib3
       ++ from_httplib2 ++ from_boto ++ from_tornado ++ from_aiohttp
       ++ from_httpx ++ (RPatch <$> from_custom)).

End Adapters.

(** ** GlobalRestoreOperation: [reset_patchers] and [force_reset] *)

(** [mock.patch.object(target, attribute, new)] *)
Definition patch_object (target : value) (attribute : string) (new : value) : patcher :=
  {| p_target := target; p_attribute := attribute; p_new := new |}.

Section Reset.
Context (sys_modules : gmap string nat) (g : globals).

Definition reset_httplib : M (list pyobj) (list patcher) :=
  ret [ patch_object (httplib g) "HTTPConnection" (_HTTPConnection g);
        patch_object (httplib g) "HTTPSConnection" (_HTTPSConnection g) ].

Definition reset_urllib3 : M (list pyobj) (list patcher) :=
  let* conn := try_import sys_modules "urllib3.connection" in
  let* cpool :=
    match conn with
    | Some _ => try_import sys_modules "urllib3.connectionpool"
    | None => ret None
    end in
  match conn, cpool with
  | Some conn, Some cpool =>
      let* verified := bound (_VerifiedHTTPSConnection g) in
      let* http := bound (_connHTTPConnection g) in
      let* https := bound (_connHTTPSConnection g) in
      let* HTTPConnectionPool := attr cpool "HTTPConnectionPool" in
      let* has := gets (fun h => hasattr h HTTPConnectionPool "ConnectionCls") in
      let* pools :=
        if has : bool then
          let* http' := bound (_connHTTPConnection g) in
          let* HTTPSConnectionPool := attr cpool "HTTPSConnectionPool" in
          let* https' := bound (_connHTTPSConnection g) in
          ret [ patch_object HTTPConnectionPool "ConnectionCls" http';
                patch_object HTTPSConnectionPool "ConnectionCls" https' ]
        else ret [] in
      ret ([ patch_object conn "VerifiedHTTPSConnection" verified;
             patch_object conn "HTTPConnection" http;
             patch_object conn "HTTPSConnection" https ] ++ pools)
  | _, _ => ret []
  end.

Definition reset_boto3 : M (list pyobj) (list patcher) :=
  let* cpool := try_import sys_modules "botocore.awsrequest" in
  match cpool with
  | None => ret []
  | Some cpool =>
      let* AWSHTTPConnectionPool := attr cpool "AWSHTTPConnectionPool" in
      let* has := gets (fun h => hasattr h AWSHTTPConnectionPool "ConnectionCls") in
      let* pools :=
        if has : bool then
          let* http := bound (_cpoolBoto3HTTPConnection g) in
          let* AWSHTTPSConnectionPool := attr cpool "AWSHTTPSConnectionPool" in
          let* https := bound (_cpoolBoto3HTTPSConnection g) in
          ret [ patch_object AWSHTTPConnectionPool "ConnectionCls" http;
                patch_object AWSHTTPSConnectionPool "ConnectionCls" https ]
        else ret [] in
      let* has' := gets (fun h => hasattr h cpool "AWSHTTPSConnection") in
      let* direct :=
        if has' : bool then
          let* https := bound (_cpoolBoto3HTTPSConnection g) in
          ret [ patch_object cpool "AWSHTTPSConnection" https ]
        else ret [] in
      ret (pools ++ direct)
  end.

Definition reset_httplib2 : M (list pyobj) (list patcher) :=
  let* cpool := try_import sys_modules "httplib2" in
  match cpool with
  | None => ret []
  | Some cpool =>
      let* http := bound (_HTTPConnectionWithTimeout g) in
      let* https := bound (_HTTPSConnectionWithTimeout g) in
      let* scheme := bound (_SCHEME_TO_CONNECTION g) in
      ret [ patch_object cpool "HTTPConnectionWithTimeout" http;
            patch_object cpool "HTTPSConnectionWithTimeout" https;
            patch_object cpool "SCHEME_TO_CONNECTION" scheme ]
  end.

Definition reset_boto : M (list pyobj) (list patcher) :=
  let* cpool := try_import sys_modules "boto.https_connection" in
  match cpool with
  | None => ret []
  | Some cpool =>
      let* https := bound (_CertValidatingHTTPSConnection g) in
      ret [ patch_object cpool "CertValidatingHTTPSConnection" https ]
  end.

Definition reset_tornado : M (list pyobj) (list patcher) :=
  let* simple := try_import sys_modules "tornado.simple_httpclient" in
  let* first :=
    match simple with
    | None => ret []
    | Some simple =>
        let* target := attr simple "SimpleAsyncHTTPClient" in
        let* fetch_impl := bound (_SimpleAsyncHTTPClient_fetch_impl g) in
        ret [ patch_object target "fetch_impl" fetch_impl ]
    end in
  let* curl := try_import sys_modules "tornado.curl_httpclient" in
  let* second :=
    match curl with
    | None => ret []
    | Some curl =>
        let* target := attr curl "CurlAsyncHTTPClient" in
        let* fetch_impl := bound (_CurlAsyncHTTPClient_fetch_impl g) in
        ret [ patch_object target "fetch_impl" fetch_impl ]
    end in
  ret (first ++ second).

(** The generator [reset_patchers], run to exhaustion. *)
Definition reset_patchers : M (list pyobj) (list patcher) :=
  let* from_httplib := reset_httplib in
  let* from_urllib3 := reset_urllib3 in
  let* from_boto3 := reset_boto3 in
  let* from_httplib2 := reset_httplib2 in
  let* from_boto := reset_boto in
  let* from_tornado := reset_tornado in
  ret (from_httplib ++ from_urllib3 ++ from_boto3 ++ from_httplib2
       ++ from_boto ++ from_tornado).

(** [with force_reset(): body] *)
Definition force_reset {A} (body : M (list pyobj) A) : M (list pyobj) A :=
  let* patchers := reset_patchers in
  with_exit_stack patchers body.

End Reset.

(** ** The order of [build] *)

(** A handle shows the attribute it patches; a pool guard shows as [None]. *)
Definition resource_label (r : resource) : option string :=
  match r with
  | RPatch p => Some (p_attribute p)
  | RRemover _ => None
  end.

Definition urllib3_order : list (option string) :=
  [ Some "VerifiedHTTPSConnection"; Some "HTTPConnection"; Some "HTTPSConnection";
    Some "is_connection_dropped"; Some "ConnectionCls"; Some "ConnectionCls";
    Some "_get_conn"; Some "_get_conn"; Some "_new_conn"; Some "_new_conn";
    None; None ].

(** The order in which the built-in adapters can emit: httplib, requests,
    boto3, urllib3, httplib2, boto, tornado, aiohttp, httpx. *)
Definition builtin_order : list (option string) :=
  [ Some "HTTPConnection"; Some "HTTPSConnection" ]
  ++ urllib3_order
  ++ [ Some "ConnectionCls"; Some "ConnectionCls" ]
  ++ urllib3_order
  ++ [ Some "HTTPConnectionWithTimeout"; Some "HTTPSConnectionWithTimeout";
       Some "SCHEME_TO_CONNECTION" ]
  ++ [ Some "CertValidatingHTTPSConnection" ]
  ++ [ Some "fetch_impl"; Some "fetch_impl" ]
  ++ [ Some "_request" ]
  ++ [ Some "send"; Some "send" ].

(** The computation never rebinds [self._cassette]. *)
Definition keeps_session {A} (m : M world A) : Prop :=
  forall w, _cassette (w_builder (m w).2) = _cassette (w_builder w).

(** ** A process with http.client, urllib3 and httpx installed *)

Definition class_object (name : string) (mro : list ref)
    (dict : list (string * value)) : pyobj :=
  {| py_kind := KClass; py_name := name; py_mro := mro; py_dict := list_to_map dict |}.

Definition module_object (name : string) (dict : list (string * value)) : pyobj :=
  {| py_kind := KModule; py_name := name; py_mro := []; py_dict := list_to_map dict |}.

(** Objects 0 to 4 are those of [heap_httplib]. *)
Definition heap_process : list pyobj :=
  heap_httplib ++
  [ (* 5 *) module_object "vcr.stubs"
              [("VCRHTTPConnection", VRef 0); ("VCRHTTPSConnection", VRef 1)];
    (* 6 *) class_object "HTTPConnection" [2] [];
    (* 7 *) class_object "HTTPSConnection" [6; 2] [];
    (* 8 *) module_object "urllib3.connection"
              [("HTTPConnection", VRef 6); ("HTTPSConnection", VRef 7);
               ("VerifiedHTTPSConnection", VRef 7)];
    (* 9 *) function_object "_get_conn";
    (* 10 *) function_object "_new_conn";
    (* 11 *) function_object "_new_conn";
    (* 12 *) class_object "HTTPConnectionPool" []
              [("ConnectionCls", VRef 6); ("_get_conn", VRef 9); ("_new_conn", VRef 10)];
    (* 13 *) class_object "HTTPSConnectionPool" [12]
              [("ConnectionCls", VRef 7); ("_new_conn", VRef 11)];
    (* 14 *) function_object "is_connection_dropped";
    (* 15 *) module_object "urllib3.connectionpool"
              [("HTTPConnectionPool", VRef 12); ("HTTPSConnectionPool", VRef 13);
               ("is_connection_dropped", VRef 14);
               ("HTTPConnection", VRef 6); ("HTTPSConnection", VRef 7)];
    (* 16 *) class_object "VCRRequestsHTTPConnection" [0; 6; 2] [];
    (* 17 *) class_object "VCRRequestsHTTPSConnection" [1; 7; 6; 2] [];
    (* 18 *) module_object "vcr.stubs.urllib3_stubs"
              [("VCRRequestsHTTPConnection", VRef 16);
               ("VCRRequestsHTTPSConnection", VRef 17)];
    (* 19 *) function_object "send";
    (* 20 *) function_object "send";
    (* 21 *) class_object "Client" [] [("send", VRef 19)];
    (* 22 *) class_object "AsyncClient" [] [("send", VRef 20)];
    (* 23 *) module_object "httpx" [("Client", VRef 21); ("AsyncClient", VRef 22)];
    (* 24 *) function_object "sync_vcr_send";
    (* 25 *) function_object "async_vcr_send";
    (* 26 *) module_object "vcr.stubs.httpx_stubs"
              [("sync_vcr_send", VRef 24); ("async_vcr_send", VRef 25)] ].

Definition sys_modules_process : gmap string nat :=
  list_to_map
    [ ("http.client", 4); ("vcr.stubs", 5); ("urllib3.connection", 8);
      ("urllib3.connectionpool", 15); ("vcr.stubs.urllib3_stubs", 18);
      ("httpx", 23); ("vcr.stubs.httpx_stubs", 26) ].

(** The names as they are before the module-level code has run. *)
Definition unloaded : globals :=
  {| httplib := VNone; VCRHTTPConnection := VNone; VCRHTTPSConnection := VNone;
     _HTTPConnection := VNone; _HTTPSConnection := VNone;
     _Boto3VerifiedHTTPSConnection := None; _cpoolBoto3HTTPConnection := None;
     _cpoolBoto3HTTPSConnection := None;
     cpool := VNone; conn := VNone;
     _VerifiedHTTPSConnection := None; _connHTTPConnection := None;
     _connHTTPSConnection := None;
     _HTTPConnectionWithTimeout := None; _HTTPSConnectionWithTimeout := None;
     _SCHEME_TO_CONNECTION := None; _CertValidatingHTTPSConnection := None;
     _SimpleAsyncHTTPClient_fetch_impl := None;
     _CurlAsyncHTTPClient_fetch_impl := None;
     _AiohttpClientSessionRequest := None;
     _HttpxSyncClient_send := None; _HttpxAsyncClient_send := None |}.

Definition result_or {A} (d : A) (o : outcome A) : A :=
  match o with
  | Returns a => a
  | Raises _ => d
  end.

Definition globals_process : globals :=
  result_or unloaded (load sys_modules_process heap_process).1.

(** A session on that process, with the two custom triples of
    [cassette_custom]. *)
Definition world_process : world :=
  {| w_builder := __init__ cassette_custom; w_heap := heap_process |}.

Definition resources_process : list resource :=
  result_or [] (build sys_modules_process globals_process world_process).1.

(** ** What [reset_patchers] can restore *)

(** The originals [patch.py] saves when it is loaded. *)
Definition saved_originals (g : globals) : list (option value) :=
  [ Some (_HTTPConnection g); Some (_HTTPSConnection g);
    _Boto3VerifiedHTTPSConnection g; _cpoolBoto3HTTPConnection g;
    _cpoolBoto3HTTPSConnection g;
    _VerifiedHTTPSConnection g; _connHTTPConnection g; _connHTTPSConnection g;
    _HTTPConnectionWithTimeout g; _HTTPSConnectionWithTimeout g;
    _SCHEME_TO_CONNECTION g; _CertValidatingHTTPSConnection g;
    _SimpleAsyncHTTPClient_fetch_impl g; _CurlAsyncHTTPClient_fetch_impl g;
    _AiohttpClientSessionRequest g; _HttpxSyncClient_send g;
    _HttpxAsyncClient_send g ].

(** The attribute names [reset_patchers] writes to. *)
Definition reset_names : list string :=
  [ "HTTPConnection"; "HTTPSConnection"; "VerifiedHTTPSConnection";
    "ConnectionCls"; "AWSHTTPSConnection";
    "HTTPConnectionWithTimeout"; "HTTPSConnectionWithTimeout";
    "SCHEME_TO_CONNECTION"; "CertValidatingHTTPSConnection"; "fetch_impl" ].

(** A reset handle writes a saved original to one of those names. *)
Definition resets_original (g : globals) (p : patcher) : Prop :=
  p_attribute p ∈ reset_names /\ Some (p_new p) ∈ saved_originals g.

(** The value was the value of some attribute in the heap [h0]. *)
Definition read_from (h0 : heap) (v : value) : Prop :=
  exists x a, getattr h0 x a = Some v.

(** ** A session on the process, and [force_reset] inside it *)

(** The seams of the pool-aware adapters for which no original is saved. *)
Definition pool_primitive_names : list string :=
  [ "_get_conn"; "_new_conn"; "is_connection_dropped" ].

(** The patch handles among the resources of a session. *)
Definition patchers_of (rs : list resource) : list patcher :=
  omap (fun r => match r with RPatch p => Some p | RRemover _ => None end) rs.

(** The heap once the session of [world_process] has entered its handles. *)
Definition heap_in_session : list pyobj :=
  (enter_contexts (patchers_of resources_process) []
     (w_heap (build sys_modules_process globals_process world_process).2)).2.

(** C9 as the specification words it: under [force_reset] every seam an
    adapter patched shows the value it had when [patch.py] was loaded. *)
Definition restores_every_adapter_seam (sys_modules : gmap string nat) (g : globals)
    (h0 : list pyobj) (rs : list resource) (h : list pyobj) : Prop :=
  forall seen h' i p,
    force_reset sys_modules g (gets (fun h => h)) h = (Returns seen, h') ->
    rs !! i = Some (RPatch p) ->
    seam_value seen (patcher_seam p) = seam_value h0 (patcher_seam p).

(** The handles [reset_patchers] yields in that session. *)
Definition reset_process : list patcher :=
  result_or [] (reset_patchers sys_modules_process globals_process heap_in_session).1.

(** The handle the urllib3 adapter builds for [HTTPConnectionPool._get_conn]. *)
Definition handle_get_conn : patcher :=
  {| p_target := VRef 12; p_attribute := "_get_conn"; p_new := VRef 30 |}.

(** The heap a body run under [force_reset] sees in that session. *)
Definition heap_force_reset : list pyobj :=
  result_or [] (force_reset sys_modules_process globals_process
                  (gets (fun h => h)) heap_in_session).1.

(** The object a seam hangs on, when it is one. *)
Definition seam_key (s : seam) : option nat * string :=
  (match fst s with VRef o => Some o | _ => None end, snd s).

(** ** The builder's invariant *)

(** The heap is closed and every cache entry is a substitute of its key for
    the builder's session. *)
Definition builder_ok (w : world) : Prop :=
  heap_closed (w_heap w) /\ cache_ok w.

(** A builder as [CassettePatcherBuilder(cassette)] leaves it, over heap [h]. *)
Definition new_builder (c : cassette) (h : list pyobj) : world :=
  {| w_builder := __init__ c; w_heap := h |}.

(** The later world belongs to the same builder further on: same session,
    a heap that extends the earlier one, a cache that has kept every
    entry. *)
Definition grows (w w' : world) : Prop :=
  extends w w'
  /\ _class_to_cassette_subclass (w_builder w)
     ⊆ _class_to_cassette_subclass (w_builder w').

(** The answer to a request for [klass] is fixed in [w]: the class is bound
    to a session, or the cache holds its substitute. *)
Definition settled (klass sub : ref) (w : world) : Prop :=
  (sub = klass
   /\ exists v, getattr (w_heap w) (VRef klass) "cassette" = Some v /\ v <> VNone)
  \/ memoized klass sub w.


(** Every class the cache has an entry for is unbound: entries are only
    made for classes whose [cassette] attribute is [None]. *)
Definition cache_unbound (w : world) : Prop :=
  map_Forall (fun klass _ =>
                getattr (w_heap w) (VRef klass) "cassette" = Some VNone)
             (_class_to_cassette_subclass (w_builder w)).

(** The replacement with every class that has a cache entry replaced by
    that entry; dictionaries keep their keys and the order of their items. *)
Fixpoint substituted (m : gmap nat nat) (v : value) : value :=
  match v with
  | VDict items => VDict (map (fun kv => (fst kv, substituted m (snd kv))) items)
  | VRef o => VRef (default o (m !! o))
  | other => other
  end.


(** A replacement given as a dictionary: a stub class, a number, a class
    without a [cassette] attribute and a dictionary holding the other stub
    class. *)
Definition replacement_nested : value :=
  VDict [ ("conn", VRef 0); ("timeout", VInt 30); ("plain", VRef 2);
          ("nested", VDict [ ("tls", VRef 1) ]) ].


(** ** The tracker as a dictionary, and the creation wrapper *)

(** [d.get(pool)] on the remover's dictionary. *)
Fixpoint pool_entry (pool : nat) (d : list (nat * gset connection_object))
    : option (gset connection_object) :=
  match d with
  | [] => None
  | (k, s) :: d' => if decide (k = pool) then Some s else pool_entry pool d'
  end.

(** The connections tracked for a pool, none when the pool is not a key. *)
Definition tracked (self : ConnectionRemover.t) (pool : nat) : gset connection_object :=
  default ∅ (pool_entry pool (ConnectionRemover._connection_pool_to_connections self)).

(** The closure [_patched_new_conn] returns: the pool's own creation
    primitive [new_conn] runs first, and what it returns is reported to the
    remover; when it raises, the remover is not reached. *)
Definition patched_new_conn (h : list pyobj)
    (new_conn : nat -> M (nat -> connection_pool) connection_object) (pool : nat)
    : M (ConnectionRemover.t * (nat -> connection_pool)) connection_object :=
  fun '(connection_remover, ps) =>
    match new_conn pool ps with
    | (Returns new_connection, ps') =>
        (Returns new_connection,
         (ConnectionRemover.add_connection_to_pool_entry h pool new_connection
            connection_remover, ps'))
    | (Raises e, ps') => (Raises e, (connection_remover, ps'))
    end.

(** The tracker is in step with every pool: the dictionary has each pool
    once, and a connection of the remover's class that sits in any pool's
    queue sits there once and is tracked for that pool. *)
Definition in_step (h : list pyobj) (self : ConnectionRemover.t)
    (ps : nat -> connection_pool) : Prop :=
  NoDup (map fst (ConnectionRemover._connection_pool_to_connections self))
  /\ forall pid,
       tracked_ok h (ConnectionRemover._connection_class self)
                  (queue_of (ps pid)) (tracked self pid).


(** Pool 0 as a session finds it: two connections of urllib3's own class,
    [conn_b] on top. *)
Definition pools_idle : nat -> connection_pool :=
  <[0 := {| ConnectionCls := Some 2; QueueCls := LifoQueue;
            pool_pool := Some [Some conn_b; Some conn_a] |}]>
  (fun _ => closed_pool).

(** ** Reading the process *)

(** The computation leaves the state as it finds it, whatever its outcome,
    and raises only exceptions that satisfy [P]. *)
Definition quiet {S A} (P : exn -> Prop) (m : M S A) : Prop :=
  forall s out s', m s = (out, s') ->
    s' = s /\ forall e, out = Raises e -> P e.

(** Every name that [reset_patchers] uses for a backend other than botocore
    was bound when [patch.py] was loaded, provided the backend can be
    imported; the two names saved for botocore are bound together or not at
    all. *)
Definition saved_names_bound (sys_modules : gmap string nat) (g : globals) : Prop :=
  (is_Some (sys_modules !! "urllib3.connection") ->
   is_Some (sys_modules !! "urllib3.connectionpool") ->
   is_Some (_VerifiedHTTPSConnection g)
   /\ is_Some (_connHTTPConnection g)
   /\ is_Some (_connHTTPSConnection g))
  /\ (is_Some (sys_modules !! "httplib2") ->
      is_Some (_HTTPConnectionWithTimeout g)
      /\ is_Some (_HTTPSConnectionWithTimeout g)
      /\ is_Some (_SCHEME_TO_CONNECTION g))
  /\ (is_Some (sys_modules !! "boto.https_connection") ->
      is_Some (_CertValidatingHTTPSConnection g))
  /\ (is_Some (sys_modules !! "tornado.simple_httpclient") ->
      is_Some (_SimpleAsyncHTTPClient_fetch_impl g))
  /\ (is_Some (sys_modules !! "tornado.curl_httpclient") ->
      is_Some (_CurlAsyncHTTPClient_fetch_impl g))
  /\ (is_Some (_cpoolBoto3HTTPConnection g)
      <-> is_Some (_cpoolBoto3HTTPSConnection g)).

(** The one way [reset_patchers] can meet an unbound name: botocore's
    [awsrequest] can be imported, but its connection classes could not be
    when [patch.py] was loaded. *)
Definition botocore_names_missing (sys_modules : gmap string nat) (g : globals)
    (e : exn) : Prop :=
  e = NameError
  /\ is_Some (sys_modules !! "botocore.awsrequest")
  /\ _cpoolBoto3HTTPConnection g = None
  /\ _cpoolBoto3HTTPSConnection g = None.

(** A process in which botocore's [awsrequest] can be imported but has
    neither of the two connection classes, only the pools. *)
Definition heap_botocore : list pyobj :=
  heap_httplib
  ++ [ {| py_kind := KModule; py_name := "vcr.stubs"; py_mro := [];
          py_dict := {[ "VCRHTTPConnection" := VRef 0;
                        "VCRHTTPSConnection" := VRef 1 ]} |};
       {| py_kind := KModule; py_name := "botocore.awsrequest"; py_mro := [];
          py_dict := {[ "AWSHTTPConnectionPool" := VRef 7;
                        "AWSHTTPSConnectionPool" := VRef 8 ]} |};
       {| py_kind := KClass; py_name := "AWSHTTPConnectionPool"; py_mro := [];
          py_dict := {[ "ConnectionCls" := VRef 2 ]} |};
       {| py_kind := KClass; py_name := "AWSHTTPSConnectionPool"; py_mro := [];
          py_dict := {[ "ConnectionCls" := VRef 3 ]} |} ].

Definition sys_modules_botocore : gmap string nat :=
  list_to_map [ ("http.client", 4); ("vcr.stubs", 5); ("botocore.awsrequest", 6) ].


(** What the urllib3 adapter prepares and emits in the process above. *)
Definition urllib3_process : urllib3_patchers :=
  result_or {| mock_triples := []; removers := [] |}
            (_urllib3_patchers (VRef 15) (VRef 8) (VRef 18) world_process).1.

Definition world_urllib3 : world :=
  (_urllib3_patchers (VRef 15) (VRef 8) (VRef 18) world_process).2.

Definition resources_urllib3 : list resource :=
  result_or [] (chain_urllib3 (Some urllib3_process) world_urllib3).1.

(** ** What [build] can raise *)

(** The computation raises only exceptions that satisfy [P]. *)
Definition raises_only {S A} (P : exn -> Prop) (m : M S A) : Prop :=
  forall s e s', m s = (Raises e, s') -> P e.

(** The exceptions of a lookup that fails: a module or a name that cannot
    be imported, an attribute that is missing, a replacement that is not a
    class. *)
Definition lookup_error (e : exn) : Prop :=
  e = ImportError \/ e = AttributeError \/ e = TypeError.

(** The originals that the stub factories of tornado, aiohttp and httpx are
    given were bound when [patch.py] was loaded, provided the backend can be
    imported. *)
Definition stub_names_bound (sys_modules : gmap string nat) (g : globals) : Prop :=
  (is_Some (sys_modules !! "tornado.simple_httpclient") ->
   is_Some (_SimpleAsyncHTTPClient_fetch_impl g))
  /\ (is_Some (sys_modules !! "tornado.curl_httpclient") ->
      is_Some (_CurlAsyncHTTPClient_fetch_impl g))
  /\ (is_Some (sys_modules !! "aiohttp.client") ->
      is_Some (_AiohttpClientSessionRequest g))
  /\ (is_Some (sys_modules !! "httpx") ->
      is_Some (_HttpxSyncClient_send g) /\ is_Some (_HttpxAsyncClient_send g)).

(** A session in the process with the incomplete botocore; the stub module
    for botocore cannot be imported there. *)
Definition globals_botocore : globals :=
  result_or unloaded (load sys_modules_botocore heap_botocore).1.

Definition world_botocore : world :=
  {| w_builder := __init__ cassette_custom; w_heap := heap_botocore |}.

(** ** What [force_reset] is to restore *)

(** The value [x.a.b...] had in the heap [h0], the heap as it was when
    [patch.py] was loaded. *)
Definition at_load (h0 : list pyobj) (x : value) (path : list string) : option value :=
  match (attr_path x path h0).1 with
  | Returns v => Some v
  | Raises _ => None
  end.

(** For each backend, the seams that are to be reset in the heap [h], each
    with the value that is to be written to it: a value of the heap [h0].
    The pool classes and the tornado client classes are looked up in [h];
    the [ConnectionCls] of a pool class goes with the connection class its
    module had at load. *)
Definition expect_httplib (sys_modules : gmap string nat) (h0 : list pyobj)
    : list (seam * option value) :=
  match sys_modules !! "http.client" with
  | Some m =>
      [ ((VRef m, "HTTPConnection"), at_load h0 (VRef m) ["HTTPConnection"]);
        ((VRef m, "HTTPSConnection"), at_load h0 (VRef m) ["HTTPSConnection"]) ]
  | None => []
  end.

Definition expect_urllib3 (sys_modules : gmap string nat) (h0 h : list pyobj)
    : list (seam * option value) :=
  match sys_modules !! "urllib3.connection", sys_modules !! "urllib3.connectionpool" with
  | Some c, Some p =>
      [ ((VRef c, "VerifiedHTTPSConnection"),
         at_load h0 (VRef c) ["VerifiedHTTPSConnection"]);
        ((VRef c, "HTTPConnection"), at_load h0 (VRef c) ["HTTPConnection"]);
        ((VRef c, "HTTPSConnection"), at_load h0 (VRef c) ["HTTPSConnection"]) ]
      ++ match getattr h (VRef p) "HTTPConnectionPool" with
         | Some http_pool =>
             if hasattr h http_pool "ConnectionCls" then
               match getattr h (VRef p) "HTTPSConnectionPool" with
               | Some https_pool =>
                   [ ((http_pool, "ConnectionCls"),
                      at_load h0 (VRef c) ["HTTPConnection"]);
                     ((https_pool, "ConnectionCls"),
                      at_load h0 (VRef c) ["HTTPSConnection"]) ]
               | None => []
               end
             else []
         | None => []
         end
  | _, _ => []
  end.

Definition expect_boto3 (sys_modules : gmap string nat) (h0 h : list pyobj)
    : list (seam * option value) :=
  match sys_modules !! "botocore.awsrequest" with
  | Some m =>
      match getattr h (VRef m) "AWSHTTPConnectionPool" with
      | Some http_pool =>
          if hasattr h http_pool "ConnectionCls" then
            match getattr h (VRef m) "AWSHTTPSConnectionPool" with
            | Some https_pool =>
                [ ((http_pool, "ConnectionCls"),
                   at_load h0 (VRef m) ["AWSHTTPConnection"]);
                  ((https_pool, "ConnectionCls"),
                   at_load h0 (VRef m) ["AWSHTTPSConnection"]) ]
            | None => []
            end
          else []
      | None => []
      end
      ++ (if hasattr h (VRef m) "AWSHTTPSConnection" then
            [ ((VRef m, "AWSHTTPSConnection"), at_load h0 (VRef m) ["AWSHTTPSConnection"]) ]
          else [])
  | None => []
  end.

Definition expect_httplib2 (sys_modules : gmap string nat) (h0 : list pyobj)
    : list (seam * option value) :=
  match sys_modules !! "httplib2" with
  | Some m =>
      [ ((VRef m, "HTTPConnectionWithTimeout"),
         at_load h0 (VRef m) ["HTTPConnectionWithTimeout"]);
        ((VRef m, "HTTPSConnectionWithTimeout"),
         at_load h0 (VRef m) ["HTTPSConnectionWithTimeout"]);
        ((VRef m, "SCHEME_TO_CONNECTION"), at_load h0 (VRef m) ["SCHEME_TO_CONNECTION"]) ]
  | None => []
  end.

Definition expect_boto (sys_modules : gmap string nat) (h0 : list pyobj)
    : list (seam * option value) :=
  match sys_modules !! "boto.https_connection" with
  | Some m =>
      [ ((VRef m, "CertValidatingHTTPSConnection"),
         at_load h0 (VRef m) ["CertValidatingHTTPSConnection"]) ]
  | None => []
  end.

Definition expect_fetch_impl (sys_modules : gmap string nat) (h0 h : list pyobj)
    (module client : string) : list (seam * option value) :=
  match sys_modules !! module with
  | Some m =>
      match getattr h (VRef m) client with
      | Some target => [ ((target, "fetch_impl"), at_load h0 (VRef m) [client; "fetch_impl"]) ]
      | None => []
      end
  | None => []
  end.

Definition expect_tornado (sys_modules : gmap string nat) (h0 h : list pyobj)
    : list (seam * option value) :=
  expect_fetch_impl sys_modules h0 h "tornado.simple_httpclient" "SimpleAsyncHTTPClient"
  ++ expect_fetch_impl sys_modules h0 h "tornado.curl_httpclient" "CurlAsyncHTTPClient".

(** Every seam [force_reset] is to restore, in the order of
    [reset_patchers], with its value at load. *)
Definition reset_expectation (sys_modules : gmap string nat) (h0 h : list pyobj)
    : list (seam * option value) :=
  expect_httplib sys_modules h0
  ++ expect_urllib3 sys_modules h0 h
  ++ expect_boto3 sys_modules h0 h
  ++ expect_httplib2 sys_modules h0
  ++ expect_boto sys_modules h0
  ++ expect_tornado sys_modules h0 h.

(** What a handle writes, and where. *)
Definition handle_entry (p : patcher) : seam * option value :=
  (patcher_seam p, Some (p_new p)).

(** The names saved by the module-level code hold the values their
    attributes had in the heap [h0]. *)
Definition saved_at_load (sys_modules : gmap string nat) (h0 : list pyobj)
    (g : globals) : Prop :=
  (exists m,
      sys_modules !! "http.client" = Some m /\ httplib g = VRef m
      /\ at_load h0 (VRef m) ["HTTPConnection"] = Some (_HTTPConnection g)
      /\ at_load h0 (VRef m) ["HTTPSConnection"] = Some (_HTTPSConnection g))
  /\ (forall c p,
        sys_modules !! "urllib3.connection" = Some c ->
        sys_modules !! "urllib3.connectionpool" = Some p ->
        _VerifiedHTTPSConnection g = at_load h0 (VRef c) ["VerifiedHTTPSConnection"]
        /\ _connHTTPConnection g = at_load h0 (VRef c) ["HTTPConnection"]
        /\ _connHTTPSConnection g = at_load h0 (VRef c) ["HTTPSConnection"])
  /\ (forall m, sys_modules !! "botocore.awsrequest" = Some m ->
        (is_Some (_cpoolBoto3HTTPConnection g) ->
         _cpoolBoto3HTTPConnection g = at_load h0 (VRef m) ["AWSHTTPConnection"])
        /\ (is_Some (_cpoolBoto3HTTPSConnection g) ->
            _cpoolBoto3HTTPSConnection g = at_load h0 (VRef m) ["AWSHTTPSConnection"]))
  /\ (forall m, sys_modules !! "httplib2" = Some m ->
        _HTTPConnectionWithTimeout g = at_load h0 (VRef m) ["HTTPConnectionWithTimeout"]
        /\ _HTTPSConnectionWithTimeout g
           = at_load h0 (VRef m) ["HTTPSConnectionWithTimeout"]
        /\ _SCHEME_TO_CONNECTION g = at_load h0 (VRef m) ["SCHEME_TO_CONNECTION"])
  /\ (forall m, sys_modules !! "boto.https_connection" = Some m ->
        _CertValidatingHTTPSConnection g
        = at_load h0 (VRef m) ["CertValidatingHTTPSConnection"])
  /\ (forall m, sys_modules !! "tornado.simple_httpclient" = Some m ->
        _SimpleAsyncHTTPClient_fetch_impl g
        = at_load h0 (VRef m) ["SimpleAsyncHTTPClient"; "fetch_impl"])
  /\ (forall m, sys_modules !! "tornado.curl_httpclient" = Some m ->
        _CurlAsyncHTTPClient_fetch_impl g
        = at_load h0 (VRef m) ["CurlAsyncHTTPClient"; "fetch_impl"]).

(** ** What [build] is to emit *)

(** Where a resource goes: the seam of a handle, nowhere for a guard. *)
Definition resource_seam (r : resource) : option seam :=
  match r with
  | RPatch p => Some (patcher_seam p)
  | RRemover _ => None
  end.

(** A guard is always emitted, a handle when its target has the attribute. *)
Definition emitted (h : list pyobj) (s : option seam) : bool :=
  match s with
  | Some (x, a) => hasattr h x a
  | None => true
  end.

(** The seams of [_urllib3_patchers], in the order of its triples, and its
    two guards. *)
Definition urllib3_seams (h : list pyobj) (cpool conn : value) : list (option seam) :=
  match getattr h cpool "HTTPConnectionPool", getattr h cpool "HTTPSConnectionPool" with
  | Some http_pool, Some https_pool =>
      [ Some (conn, "VerifiedHTTPSConnection");
        Some (conn, "HTTPConnection");
        Some (conn, "HTTPSConnection");
        Some (cpool, "is_connection_dropped");
        Some (http_pool, "ConnectionCls");
        Some (https_pool, "ConnectionCls");
        Some (http_pool, "_get_conn");
        Some (https_pool, "_get_conn");
        Some (http_pool, "_new_conn");
        Some (https_pool, "_new_conn");
        None; None ]
  | _, _ => []
  end.

(** The seam [module.client.attribute] of a backend whose class is looked
    up in its module. *)
Definition class_seam (h : list pyobj) (m : nat) (client attribute : string)
    : list (option seam) :=
  match getattr h (VRef m) client with
  | Some target => [ Some (target, attribute) ]
  | None => []
  end.

(** Every seam the built-in adapters name, in the order of [build]:
    httplib, requests, boto3, urllib3, httplib2, boto, tornado, aiohttp and
    httpx; a backend that cannot be imported names none. *)
Definition builtin_seams (sys_modules : gmap string nat) (g : globals)
    (h : list pyobj) : list (option seam) :=
  [ Some (httplib g, "HTTPConnection"); Some (httplib g, "HTTPSConnection") ]
  ++ match sys_modules !! "vcr.stubs.requests_stubs" with
     | Some _ => urllib3_seams h (cpool g) (conn g)
     | None => []
     end
  ++ match sys_modules !! "botocore.awsrequest" with
     | Some m =>
         class_seam h m "AWSHTTPConnectionPool" "ConnectionCls"
         ++ class_seam h m "AWSHTTPSConnectionPool" "ConnectionCls"
     | None => []
     end
  ++ match sys_modules !! "urllib3.connection",
           sys_modules !! "urllib3.connectionpool" with
     | Some c, Some p => urllib3_seams h (VRef p) (VRef c)
     | _, _ => []
     end
  ++ match sys_modules !! "httplib2" with
     | Some m =>
         [ Some (VRef m, "HTTPConnectionWithTimeout");
           Some (VRef m, "HTTPSConnectionWithTimeout");
           Some (VRef m, "SCHEME_TO_CONNECTION") ]
     | None => []
     end
  ++ match sys_modules !! "boto.https_connection" with
     | Some m => [ Some (VRef m, "CertValidatingHTTPSConnection") ]
     | None => []
     end
  ++ match sys_modules !! "tornado.simple_httpclient" with
     | Some m => class_seam h m "SimpleAsyncHTTPClient" "fetch_impl"
     | None => []
     end
  ++ match sys_modules !! "tornado.curl_httpclient" with
     | Some m => class_seam h m "CurlAsyncHTTPClient" "fetch_impl"
     | None => []
     end
  ++ match sys_modules !! "aiohttp.client" with
     | Some m => class_seam h m "ClientSession" "_request"
     | None => []
     end
  ++ match sys_modules !! "httpx" with
     | Some m => class_seam h m "AsyncClient" "send" ++ class_seam h m "Client" "send"
     | None => []
     end.

(** The process is well formed: resolution orders, attribute values, the
    module table and the modules [patch.py] holds name allocated objects
    only. *)
Definition process_ok (sys_modules : gmap string nat) (g : globals)
    (h : list pyobj) : Prop :=
  heap_closed h
  /\ Forall (fun ob => map_Forall (fun _ v => allocated h v = true) (py_dict ob)) h
  /\ map_Forall (fun _ m => m < length h) sys_modules
  /\ allocated h (httplib g) = true
  /\ allocated h (cpool g) = true
  /\ allocated h (conn g) = true.

(** What [_urllib3_patchers] has left for its chain: triples on allocated
    targets, which with the two guards make up [seams]. *)
Definition prepared (h : list pyobj) (u : option urllib3_patchers)
    (seams : list (option seam)) : Prop :=
  match u with
  | Some u =>
      (Some ∘ triple_seam <$> mock_triples u) ++ [None; None] = seams
      /\ Forall (fun t => allocated h (t_obj t) = true) (mock_triples u)
      /\ length (removers u) = 2
  | None => seams = []
  end.

(** * Properties *)

(** ** The heap only grows *)

Section HeapFrame.
Context (h ext : list pyobj).

Lemma own_attr_app o a :
  o < length h -> own_attr (h ++ ext) o a = own_attr h o a.
Proof. intros Ho. unfold own_attr. by rewrite lookup_app_l. Qed.

Lemma resolve_attr_app chain a :
  Forall (fun r => r < length h) chain ->
  resolve_attr (h ++ ext) chain a = resolve_attr h chain a.
Proof.
  induction 1 as [|c chain Hc _ IH]; simpl; [done|].
  by rewrite own_attr_app, IH.
Qed.

Lemma heap_closed_lookup o ob :
  heap_closed h -> h !! o = Some ob ->
  Forall (fun r => r < length h) (py_mro ob).
Proof.
  intros Hcl Ho. unfold heap_closed in Hcl.
  by apply (Forall_lookup_1 _ _ _ _ Hcl Ho).
Qed.

Lemma getattr_app x a v :
  heap_closed h -> getattr h x a = Some v -> getattr (h ++ ext) x a = Some v.
Proof.
  intros Hcl. destruct x as [| | |o| |]; try done. unfold getattr.
  destruct (h !! o) as [ob|] eqn:Ho; [|done].
  rewrite (lookup_app_l_Some _ _ _ _ Ho).
  assert (Forall (fun r => r < length h) (o :: py_mro ob)).
  { constructor; [by eapply lookup_lt_Some|eauto using heap_closed_lookup]. }
  destruct (py_kind ob); try done; by rewrite resolve_attr_app.
Qed.

Lemma issubclass_app a b :
  issubclass h a b = true -> issubclass (h ++ ext) a b = true.
Proof.
  unfold issubclass. destruct (h !! a) as [ob|] eqn:Ha; [|done].
  by rewrite (lookup_app_l_Some _ _ _ _ Ha).
Qed.

Lemma is_class_app o : is_class h o = true -> is_class (h ++ ext) o = true.
Proof.
  unfold is_class. destruct (h !! o) as [ob|] eqn:Ho; [|done].
  by rewrite (lookup_app_l_Some _ _ _ _ Ho).
Qed.
End HeapFrame.

Lemma getattr_Some_allocated h o a v :
  getattr h (VRef o) a = Some v -> o < length h.
Proof.
  unfold getattr. destruct (h !! o) eqn:Ho; [|done].
  intros _. by apply lookup_lt_Some in Ho.
Qed.

Lemma heap_closed_alloc h ob :
  heap_closed h ->
  Forall (fun r => r < S (length h)) (py_mro ob) ->
  heap_closed (h ++ [ob]).
Proof.
  intros Hcl Hob. unfold heap_closed in *.
  rewrite Forall_app, length_app. simpl. split.
  - eapply Forall_impl; [exact Hcl|]. intros o Ho. simpl in Ho.
    eapply Forall_impl; [exact Ho|]. simpl. lia.
  - constructor; [|constructor].
    eapply Forall_impl; [exact Hob|]. simpl. lia.
Qed.

(** ** SubstituteTypeCache: [_get_cassette_subclass] *)

Lemma get_cassette_subclass_cases klass w :
  get_case klass w (_get_cassette_subclass klass w).1 (_get_cassette_subclass klass w).2.
Proof.
  unfold _get_cassette_subclass, bind, attribute.
  destruct (getattr (w_heap w) (VRef klass) "cassette") as [v|] eqn:Hattr;
    [|by constructor].
  destruct v; simpl; try (by eapply get_bound).
  destruct (_class_to_cassette_subclass (w_builder w) !! klass) as [sub|] eqn:Hc.
  - unfold cache_get. rewrite Hc. simpl. by apply get_hit.
  - unfold _build_cassette_subclass.
    destruct (w_heap w !! klass) as [ob|] eqn:Hob.
    + destruct (kind_eqb (py_kind ob) KClass) eqn:Hk.
      * unfold cache_set, modify, cache_get. simpl.
        rewrite lookup_insert_eq. simpl.
        apply get_miss; try done. by destruct (py_kind ob).
      * simpl. apply get_not_a_class; try done.
        unfold is_class. by rewrite Hob.
    + simpl. apply get_not_a_class; try done.
      unfold is_class. by rewrite Hob.
Qed.

Lemma new_subclass_substitute klass ob w :
  w_heap w !! klass = Some ob ->
  substitute_of (w_heap w ++ [new_subclass w klass ob]) (_cassette (w_builder w))
                klass (length (w_heap w)).
Proof.
  intros Hob. split.
  - unfold getattr. rewrite lookup_app_r, Nat.sub_diag by lia. simpl.
    unfold own_attr. rewrite lookup_app_r, Nat.sub_diag by lia. simpl.
    by rewrite lookup_singleton_eq.
  - unfold issubclass. rewrite lookup_app_r, Nat.sub_diag by lia. simpl.
    apply bool_decide_eq_true. set_solver.
Qed.

Lemma substitute_of_app h ext c klass sub :
  heap_closed h -> substitute_of h c klass sub ->
  substitute_of (h ++ ext) c klass sub.
Proof.
  intros Hcl [Hb Hs]. split; [by apply getattr_app|by apply issubclass_app].
Qed.




(** ** Substitute identity stability *)

Lemma heap_closed_after_miss klass ob w :
  heap_closed (w_heap w) -> w_heap w !! klass = Some ob ->
  heap_closed (w_heap (after_miss klass ob w)).
Proof.
  intros Hcl Hob. simpl. apply heap_closed_alloc; [done|]. simpl.
  pose proof (lookup_lt_Some _ _ _ Hob).
  constructor; [lia|].
  eapply Forall_impl; [by eapply heap_closed_lookup|]. simpl. lia.
Qed.

Lemma get_cassette_subclass_heap_closed k w :
  heap_closed (w_heap w) -> heap_closed (w_heap (_get_cassette_subclass k w).2).
Proof.
  intros Hcl. destruct (get_cassette_subclass_cases k w); try done.
  by apply heap_closed_after_miss.
Qed.

Lemma memoized_step klass sub k w :
  memoized klass sub w -> memoized klass sub (_get_cassette_subclass k w).2.
Proof.
  intros (Hcl & Hattr & Hc).
  destruct (get_cassette_subclass_cases k w) as [| | |ob Hv Hmiss Hob Hk|];
    try done.
  split; [by apply heap_closed_after_miss|]. split.
  - simpl. by apply getattr_app.
  - simpl. rewrite lookup_insert_ne; [done|]. intros ->. congruence.
Qed.

Lemma memoized_requests klass sub ks w :
  memoized klass sub w -> memoized klass sub (requests ks w).
Proof.
  revert w. induction ks as [|k ks IH]; intros w Hm; simpl; [done|].
  apply IH. by apply memoized_step.
Qed.

Lemma memoized_hit klass sub w :
  memoized klass sub w -> _get_cassette_subclass klass w = (Returns sub, w).
Proof.
  intros (_ & Hattr & Hc).
  unfold _get_cassette_subclass, bind, attribute, cache_get.
  rewrite Hattr. simpl. rewrite Hc. simpl. by rewrite Hc.
Qed.

(** C2: for a class without a session binding, every later request made to
    the same builder returns the very type object the first request
    returned, and creates nothing: one substitute per base class. *)
Theorem get_cassette_subclass_identity_stable klass ks w :
  heap_closed (w_heap w) ->
  is_class (w_heap w) klass = true ->
  getattr (w_heap w) (VRef klass) "cassette" = Some VNone ->
  exists sub w1,
    _get_cassette_subclass klass w = (Returns sub, w1)
    /\ _get_cassette_subclass klass (requests ks w1)
       = (Returns sub, requests ks w1).
Proof.
  intros Hcl Hclass Hattr.
  assert (exists sub w1, _get_cassette_subclass klass w = (Returns sub, w1)
                         /\ memoized klass sub w1) as (sub & w1 & Hrun & Hm).
  { pose proof (get_cassette_subclass_cases klass w) as Hcase.
    pose proof (get_cassette_subclass_heap_closed klass w Hcl) as Hcl'.
    destruct (_get_cassette_subclass klass w) as [out w1]. simpl in *.
    inversion Hcase as [Hn|v' Hv Hne|sub Hv Hhit|ob Hv Hmiss Hob Hk|Hv Hmiss Hnc];
      subst; try congruence.
    - exists sub, w1. done.
    - eexists _, _. split; [done|]. split; [done|]. split.
      + simpl. by apply getattr_app.
      + simpl. by rewrite lookup_insert_eq. }
  exists sub, w1. split; [done|].
  apply memoized_hit. by apply memoized_requests.
Qed.

Lemma get_cassette_subclass_identity_stable_witness :
  exists sub w1,
    _get_cassette_subclass 0 world_stub = (Returns sub, w1)
    /\ _get_cassette_subclass 0 (requests [1; 0; 1] w1)
       = (Returns sub, requests [1; 0; 1] w1).
Proof.
  apply (get_cassette_subclass_identity_stable 0 [1; 0; 1] world_stub).
  - repeat constructor.
  - reflexivity.
  - reflexivity.
Defined.

Example get_cassette_subclass_twice :
  (_get_cassette_subclass 0 world_stub).1 = Returns 2
  /\ (_get_cassette_subclass 0 (_get_cassette_subclass 0 world_stub).2).1 = Returns 2
  /\ length (w_heap (requests [0; 0; 0] world_stub)) = 3.
Proof. by vm_compute. Qed.

(** ** PatchSpecification resolution: [_build_patcher] *)

Lemma getattr_app_eq h ext o a :
  heap_closed h -> o < length h ->
  getattr (h ++ ext) (VRef o) a = getattr h (VRef o) a.
Proof.
  intros Hcl Ho. destruct (lookup_lt_is_Some_2 _ _ Ho) as [ob Hob].
  unfold getattr. rewrite (lookup_app_l_Some _ _ _ _ Hob), Hob.
  assert (Forall (fun r => r < length h) (o :: py_mro ob)).
  { constructor; [done|eauto using heap_closed_lookup]. }
  destruct (py_kind ob); try done; by rewrite resolve_attr_app.
Qed.

Lemma hasattr_app_eq h ext x a :
  heap_closed h -> allocated h x = true ->
  hasattr (h ++ ext) x a = hasattr h x a.
Proof.
  intros Hcl Hx. unfold hasattr. destruct x as [| | |o| |]; try done.
  simpl in Hx. apply bool_decide_eq_true in Hx.
  by rewrite getattr_app_eq.
Qed.

Lemma allocated_app h ext x : allocated h x = true -> allocated (h ++ ext) x = true.
Proof.
  destruct x as [| | |o| |]; try done. simpl.
  rewrite !bool_decide_eq_true, length_app. lia.
Qed.

(** Induction over values that reaches into dictionaries. *)
Lemma value_rect_items (P : value -> Prop) :
  P VNone -> (forall b, P (VBool b)) -> (forall n, P (VInt n)) ->
  (forall r, P (VRef r)) ->
  (forall c, P (VCassette c)) ->
  (forall items, Forall (fun kv => P (snd kv)) items -> P (VDict items)) ->
  forall v, P v.
Proof.
  intros HN HB HI HR HC HD.
  fix IH 1. intros [| b | n | r | c | items].
  - exact HN.
  - apply HB.
  - apply HI.
  - apply HR.
  - apply HC.
  - apply HD. revert items. fix IHitems 1.
    intros [|[k x] items]; constructor; [apply IH|apply IHitems].
Qed.

Lemma resolvable_app h ext v :
  heap_closed h -> resolvable h v = true -> resolvable (h ++ ext) v = true.
Proof.
  intros Hcl. induction v as [| | | o | |items IH] using value_rect_items;
    try done.
  - simpl. rewrite !andb_true_iff, !bool_decide_eq_true.
    intros [Ho Hres]. split; [rewrite length_app; lia|].
    rewrite getattr_app_eq by done.
    destruct (getattr h (VRef o) "cassette") as [[]|]; try done.
    by apply is_class_app.
  - simpl. rewrite !forallb_forall. intros Hall kv Hin.
    rewrite Forall_forall in IH. apply IH; [by apply list_elem_of_In|].
    by apply Hall.
Qed.

Lemma extends_refl w : heap_closed (w_heap w) -> extends w w.
Proof. intros. split; [done|]. split; [done|]. exists []. by rewrite app_nil_r. Qed.

Lemma extends_trans w1 w2 w3 : extends w1 w2 -> extends w2 w3 -> extends w1 w3.
Proof.
  intros (Hc1 & _ & ext1 & H1) (Hc2 & Hcl & ext2 & H2).
  split; [congruence|]. split; [done|].
  exists (ext1 ++ ext2). by rewrite H2, H1, app_assoc.
Qed.

Lemma extends_after_miss klass ob w :
  heap_closed (w_heap w) -> w_heap w !! klass = Some ob ->
  extends w (after_miss klass ob w).
Proof.
  intros Hcl Hob. split; [done|].
  split; [by apply heap_closed_after_miss|]. by eexists.
Qed.

Lemma get_cassette_subclass_extends k w :
  heap_closed (w_heap w) -> extends w (_get_cassette_subclass k w).2.
Proof.
  intros Hcl. destruct (get_cassette_subclass_cases k w);
    auto using extends_refl, extends_after_miss.
Qed.

(** A resolvable reference never makes [_get_cassette_subclass] raise. *)
Lemma get_cassette_subclass_returns o w :
  hasattr (w_heap w) (VRef o) "cassette" = true ->
  resolvable (w_heap w) (VRef o) = true ->
  exists sub, (_get_cassette_subclass o w).1 = Returns sub.
Proof.
  intros Hhas Hres. simpl in Hres. apply andb_true_iff in Hres as [Ho Hres].
  unfold hasattr in Hhas. apply bool_decide_eq_true in Hhas as [v Hv].
  rewrite Hv in Hres.
  destruct (get_cassette_subclass_cases o w)
    as [Hn|v' Hv' Hne|sub Hv' Hhit|ob Hv' Hmiss Hob Hk|Hv' Hmiss Hnc];
    try congruence; try (by eexists).
  rewrite Hv in Hv'. injection Hv' as ->. congruence.
Qed.

Lemma recursively_apply_returns v : forall w,
  heap_closed (w_heap w) -> resolvable (w_heap w) v = true ->
  exists v' w',
    _recursively_apply_get_cassette_subclass v w = (Returns v', w')
    /\ extends w w'.
Proof.
  induction v as [| | | o | |items IH] using value_rect_items; intros w Hcl Hres;
    try (by eexists _, _; split; [reflexivity|apply extends_refl]).
  - simpl. destruct (hasattr (w_heap w) (VRef o) "cassette") eqn:Hhas.
    + destruct (get_cassette_subclass_returns o w Hhas Hres) as [sub Hsub].
      pose proof (get_cassette_subclass_extends o w Hcl) as Hext.
      unfold bind. destruct (_get_cassette_subclass o w) as [out w'].
      simpl in *. subst out. by eexists _, _.
    + eexists _, _. split; [done|]. by apply extends_refl.
  - simpl in Hres.
    enough (exists items' w',
      (fix go (items : list (string * value)) : M world (list (string * value)) :=
         match items with
         | [] => ret []
         | (key, replacement_obj) :: rest =>
             let* replacement_obj' :=
               _recursively_apply_get_cassette_subclass replacement_obj in
             let* rest' := go rest in
             ret ((key, replacement_obj') :: rest')
         end) items w = (Returns items', w') /\ extends w w')
      as (items' & w' & Hgo & Hext).
    { exists (VDict items'), w'. split; [|done].
      simpl. unfold bind at 1. by rewrite Hgo. }
    revert w Hcl Hres. induction IH as [|[k x] items Hx _ IHitems];
      intros w Hcl Hres.
    { eexists _, _. split; [done|]. by apply extends_refl. }
    simpl in Hres. apply andb_true_iff in Hres as [Hrx Hrest].
    destruct (Hx w Hcl Hrx) as (x' & w1 & Hrun & Hext1).
    destruct Hext1 as (Hc1 & Hcl1 & ext1 & Hh1).
    destruct (IHitems w1 Hcl1) as (rest' & w2 & Hrun2 & Hext2).
    { rewrite Hh1. clear -Hcl Hrest. rewrite forallb_forall in *.
      intros kv Hin. apply resolvable_app; auto. }
    exists ((k, x') :: rest'), w2. split.
    + unfold bind at 1. simpl in Hrun. rewrite Hrun.
      unfold bind at 1. by rewrite Hrun2.
    + eapply extends_trans; [|exact Hext2]. split; [done|]. split; [done|].
      by exists ext1.
Qed.

Lemma build_patcher_absent obj patched_attribute replacement_class w :
  hasattr (w_heap w) obj patched_attribute = false ->
  _build_patcher obj patched_attribute replacement_class w = (Returns None, w).
Proof. intros Habs. unfold _build_patcher. by rewrite Habs. Qed.

Lemma build_patcher_present obj patched_attribute replacement_class w :
  heap_closed (w_heap w) ->
  resolvable (w_heap w) replacement_class = true ->
  hasattr (w_heap w) obj patched_attribute = true ->
  exists new w',
    _build_patcher obj patched_attribute replacement_class w
      = (Returns (Some {| p_target := obj; p_attribute := patched_attribute;
                          p_new := new |}), w')
    /\ extends w w'.
Proof.
  intros Hcl Hres Hhas. unfold _build_patcher. rewrite Hhas. simpl.
  destruct (recursively_apply_returns replacement_class w Hcl Hres)
    as (new & w' & Hrun & Hext).
  exists new, w'. split; [|done]. unfold bind. by rewrite Hrun.
Qed.

Lemma triple_ok_app h ext t :
  heap_closed h -> triple_ok h t = true -> triple_ok (h ++ ext) t = true.
Proof.
  intros Hcl. unfold triple_ok. rewrite !andb_true_iff. intros [Ha Hr].
  split; [by apply allocated_app|by apply resolvable_app].
Qed.

Lemma present_app h ext t :
  heap_closed h -> triple_ok h t = true ->
  present (h ++ ext) t = present h t.
Proof.
  intros Hcl. unfold triple_ok, present. rewrite andb_true_iff. intros [Ha _].
  by apply hasattr_app_eq.
Qed.

(** The handles come out in the order of the triples, one for each triple
    whose target has the attribute. *)
Lemma build_patchers_from_mock_triples_spec ts : forall w,
  heap_closed (w_heap w) ->
  forallb (triple_ok (w_heap w)) ts = true ->
  exists ps w',
    _build_patchers_from_mock_triples ts w = (Returns ps, w')
    /\ extends w w'
    /\ map patcher_seam ps = map triple_seam (List.filter (present (w_heap w)) ts).
Proof.
  induction ts as [|t ts IH]; intros w Hcl Hok.
  { exists [], w. split; [done|]. split; [by apply extends_refl|done]. }
  simpl in Hok. apply andb_true_iff in Hok as [Ht Hts].
  assert (Hstep : exists o w1,
    _build_patcher (t_obj t) (t_attribute t) (t_replacement t) w = (Returns o, w1)
    /\ extends w w1
    /\ map patcher_seam (match o with Some p => [p] | None => [] end)
       = map triple_seam (if present (w_heap w) t then [t] else [])).
  { unfold present. destruct (hasattr (w_heap w) (t_obj t) (t_attribute t)) eqn:Hhas.
    - unfold triple_ok in Ht. apply andb_true_iff in Ht as [_ Hres].
      destruct (build_patcher_present _ _ _ w Hcl Hres Hhas)
        as (new & w1 & Hrun & Hext).
      eexists _, w1. split; [exact Hrun|]. split; [exact Hext|]. done.
    - exists None, w. rewrite build_patcher_absent by done.
      split; [done|]. split; [by apply extends_refl|done]. }
  destruct Hstep as (o & w1 & Hrun & Hext & Hseam).
  pose proof Hext as (Hc1 & Hcl1 & ext & Hh1).
  destruct (IH w1 Hcl1) as (ps & w2 & Hrun2 & Hext2 & Hseams).
  { rewrite Hh1. rewrite forallb_forall in *. intros t' Hin.
    apply triple_ok_app; auto. }
  exists (match o with Some p => p :: ps | None => ps end), w2.
  split; [|split].
  - simpl. unfold bind at 1. rewrite Hrun. unfold bind at 1. by rewrite Hrun2.
  - by eapply extends_trans.
  - assert (Hfilter : List.filter (present (w_heap w1)) ts
                      = List.filter (present (w_heap w)) ts).
    { apply filter_ext_in. intros t' Hin. rewrite Hh1.
      apply present_app; [done|]. rewrite forallb_forall in Hts. auto. }
    rewrite Hfilter in Hseams. simpl.
    destruct o as [p|], (present (w_heap w) t); simpl in *;
      try discriminate; congruence.
Qed.

(** C3: [_build_patcher] yields no handle and raises nothing when the
    target lacks the attribute, leaving the builder untouched; hence a
    session with two custom triples, exactly one of which targets a present
    attribute, gets exactly one handle, the one for that triple. *)
Theorem build_patcher_silent_skip :
  (forall obj patched_attribute replacement_class w,
      hasattr (w_heap w) obj patched_attribute = false ->
      _build_patcher obj patched_attribute replacement_class w = (Returns None, w))
  /\ (forall c t1 t2 w,
      custom_patches c = [t1; t2] ->
      _cassette (w_builder w) = c ->
      heap_closed (w_heap w) ->
      triple_ok (w_heap w) t1 = true -> triple_ok (w_heap w) t2 = true ->
      xorb (present (w_heap w) t1) (present (w_heap w) t2) = true ->
      exists p w',
        _build_patchers_from_mock_triples (custom_patches c) w = (Returns [p], w')
        /\ patcher_seam p
           = triple_seam (if present (w_heap w) t1 then t1 else t2)).
Proof.
  split; [apply build_patcher_absent|].
  intros c t1 t2 w Hcustom _ Hcl Hok1 Hok2 Hone. rewrite Hcustom.
  destruct (build_patchers_from_mock_triples_spec [t1; t2] w Hcl)
    as (ps & w' & Hrun & _ & Hseams).
  { simpl. by rewrite Hok1, Hok2. }
  simpl in Hseams.
  destruct (present (w_heap w) t1), (present (w_heap w) t2); try discriminate;
    destruct ps as [|p [|q ps]]; try discriminate;
    exists p, w'; (split; [done|]); simpl in Hseams; congruence.
Qed.

Lemma heap_httplib_closed : heap_closed heap_httplib.
Proof. unfold heap_closed, heap_httplib. repeat constructor. Qed.

Lemma build_patcher_silent_skip_witness :
  _build_patcher (VRef 4) "HTTP2Connection" (VRef 1) world_custom
    = (Returns None, world_custom)
  /\ exists p w',
      _build_patchers_from_mock_triples (custom_patches cassette_custom) world_custom
        = (Returns [p], w')
      /\ patcher_seam p
         = triple_seam (if present (w_heap world_custom) triple_present
                        then triple_present else triple_absent).
Proof.
  destruct build_patcher_silent_skip as [Hskip Hone]. split.
  - apply Hskip. reflexivity.
  - apply (Hone cassette_custom triple_present triple_absent world_custom).
    + reflexivity.
    + reflexivity.
    + exact heap_httplib_closed.
    + reflexivity.
    + reflexivity.
    + reflexivity.
Defined.

Example build_patchers_custom :
  (_build_patchers_from_mock_triples (custom_patches cassette_custom) world_custom).1
  = Returns [ {| p_target := VRef 4; p_attribute := "HTTPConnection"; p_new := VRef 5 |} ].
Proof. reflexivity. Qed.

(** ** Exact restoration *)

Lemma with_dict_id (f : gmap string value -> gmap string value) ob :
  f (py_dict ob) = py_dict ob -> with_dict f ob = ob.
Proof. intros Hf. destruct ob. unfold with_dict. simpl in *. by rewrite Hf. Qed.

Lemma alter_alter_id (f g : pyobj -> pyobj) o (h : list pyobj) :
  (forall ob, h !! o = Some ob -> f (g ob) = ob) ->
  alter f o (alter g o h) = h.
Proof.
  intros Hfg. apply list_eq. intros i. destruct (decide (i = o)) as [->|Hne].
  - rewrite !list_lookup_alter_eq. destruct (h !! o) as [ob|] eqn:Hob; [|done].
    simpl. by rewrite Hfg.
  - by rewrite !list_lookup_alter_ne.
Qed.

Lemma own_attr_setattr h o a v :
  o < length h -> own_attr (setattr h o a v) o a = Some v.
Proof.
  intros Ho. destruct (lookup_lt_is_Some_2 _ _ Ho) as [ob Hob].
  unfold own_attr, setattr. rewrite list_lookup_alter_eq, Hob. simpl.
  by rewrite lookup_insert_eq.
Qed.

Lemma setattr_restore_local h o a new old :
  own_attr h o a = Some old -> setattr (setattr h o a new) o a old = h.
Proof.
  intros Hown. unfold setattr. apply alter_alter_id. intros ob Hob.
  unfold own_attr in Hown. rewrite Hob in Hown.
  destruct ob as [k n m d]. unfold with_dict. simpl in *.
  by rewrite insert_insert_eq, insert_id.
Qed.

Lemma delattr_restore_inherited h o a new :
  own_attr h o a = None -> delattr (setattr h o a new) o a = h.
Proof.
  intros Hown. unfold delattr, setattr. apply alter_alter_id. intros ob Hob.
  unfold own_attr in Hown. rewrite Hob in Hown.
  destruct ob as [k n m d]. unfold with_dict. simpl in *.
  by rewrite delete_insert_eq, delete_id.
Qed.

(** Leaving a handle right after whatever ran inside it has put the heap
    back undoes the entry. *)
Lemma patch_exit_enter p h e h1 :
  patch_enter p h = (Returns e, h1) -> patch_exit e h1 = (Returns tt, h).
Proof.
  unfold patch_enter, get_original, patch_exit.
  destruct (p_target p) as [| | |o| |] eqn:Ht; try done.
  destruct (own_attr h o (p_attribute p)) as [old|] eqn:Hown.
  - intros [= <- <-]. simpl. rewrite Ht.
    by rewrite setattr_restore_local.
  - destruct (getattr h (VRef o) (p_attribute p)) as [v|] eqn:Hget; [|done].
    intros [= <- <-]. simpl. rewrite Ht.
    rewrite own_attr_setattr by eauto using getattr_Some_allocated.
    rewrite delattr_restore_inherited by done.
    unfold hasattr. rewrite Hget. by rewrite bool_decide_eq_true_2.
Qed.

Lemma patch_enter_raises p h x h1 :
  patch_enter p h = (Raises x, h1) -> h1 = h.
Proof.
  unfold patch_enter. destruct (get_original p h) as [[v l]|y];
    destruct (p_target p); intros [=]; done.
Qed.

Lemma close_enter_contexts {A} ps : forall stack h out stack' h1,
  enter_contexts ps stack h = (out, stack', h1) ->
  forall pending : outcome A, close stack' pending h1 = close stack pending h.
Proof.
  induction ps as [|p ps IH]; intros stack h out stack' h1; simpl.
  { by intros [= <- <- <-]. }
  destruct (patch_enter p h) as [[e|x] h'] eqn:Henter.
  - intros Hrest pending. rewrite (IH _ _ _ _ _ Hrest). simpl.
    by rewrite (patch_exit_enter _ _ _ _ Henter).
  - intros [= <- <- <-] pending. by rewrite (patch_enter_raises _ _ _ _ Henter).
Qed.

Lemma with_exit_stack_restores {A} ps (body : M (list pyobj) A) h :
  (forall h1, (body h1).2 = h1) -> (with_exit_stack ps body h).2 = h.
Proof.
  intros Hbody. unfold with_exit_stack.
  destruct (enter_contexts ps [] h) as [[out stack] h1] eqn:Henter.
  destruct out as [[]|x].
  - specialize (Hbody h1). destruct (body h1) as [r h2]. simpl in Hbody. subst h2.
    by rewrite (close_enter_contexts _ _ _ _ _ _ Henter).
  - by rewrite (close_enter_contexts _ _ _ _ _ _ Henter).
Qed.

Lemma scope_ind_nested (P : scope -> Prop) :
  (forall handles inner, Forall P inner -> P (Scope handles inner)) ->
  forall s, P s.
Proof.
  intros HS. fix IH 1. intros [handles inner]. apply HS.
  revert inner. fix IHinner 1.
  intros [|s inner]; constructor; [apply IH|apply IHinner].
Qed.

Lemma run_scopes_restores ss :
  Forall (fun s => forall h, (run_scope s h).2 = h) ss ->
  forall h, (run_scopes ss h).2 = h.
Proof.
  induction 1 as [|s ss Hs _ IH]; intros h; [done|].
  simpl. unfold bind. specialize (Hs h).
  destruct (run_scope s h) as [[[]|x] h1]; simpl in *; subst; [apply IH|done].
Qed.

Lemma run_scope_restores s : forall h, (run_scope s h).2 = h.
Proof.
  induction s as [handles inner IH] using scope_ind_nested. intros h.
  simpl. apply with_exit_stack_restores. by apply run_scopes_restores.
Qed.

Lemma getattr_setattr h o a v :
  o < length h -> getattr (setattr h o a v) (VRef o) a = Some v.
Proof.
  intros Ho. pose proof (own_attr_setattr h o a v Ho) as Hown.
  destruct (lookup_lt_is_Some_2 _ _ Ho) as [ob Hob].
  unfold getattr, setattr in *. rewrite list_lookup_alter_eq, Hob. simpl.
  rewrite Hown. by destruct (py_kind ob).
Qed.

Lemma patch_enter_present p h :
  hasattr h (p_target p) (p_attribute p) = true ->
  exists e h1, patch_enter p h = (Returns e, h1)
               /\ seam_value h1 (patcher_seam p) = Some (p_new p).
Proof.
  unfold hasattr. rewrite bool_decide_eq_true. intros [v Hv].
  destruct (p_target p) as [| | |o| |] eqn:Ht; try done.
  pose proof (getattr_Some_allocated _ _ _ _ Hv) as Ho.
  assert (exists e, patch_enter p h
                    = (Returns e, setattr h o (p_attribute p) (p_new p))) as [e He].
  { unfold patch_enter, get_original. rewrite Ht.
    destruct (own_attr h o (p_attribute p)); [by eexists|].
    rewrite Hv. by eexists. }
  exists e, (setattr h o (p_attribute p) (p_new p)). split; [done|].
  unfold seam_value, patcher_seam. simpl. rewrite Ht. by apply getattr_setattr.
Qed.

(** C8: whatever handles the sessions hold and however deep they nest,
    running them in strict LIFO order leaves the heap, and so the value of
    every seam, exactly as it was before the first entry; and for two nested
    sessions on one seam, the seam shows the outer substitute again once the
    inner session has left, and the pristine value once the outer has. *)
Theorem lifo_sessions_restore_seams :
  (forall s h sm,
      (run_scope s h).2 = h
      /\ seam_value (run_scope s h).2 sm = seam_value h sm)
  /\ (forall h a b,
      patcher_seam a = patcher_seam b ->
      hasattr h (p_target a) (p_attribute a) = true ->
      exists ea ha eb hb,
        patch_enter a h = (Returns ea, ha)
        /\ seam_value ha (patcher_seam a) = Some (p_new a)
        /\ patch_enter b ha = (Returns eb, hb)
        /\ seam_value hb (patcher_seam a) = Some (p_new b)
        /\ patch_exit eb hb = (Returns tt, ha)
        /\ patch_exit ea ha = (Returns tt, h)
        /\ run_scope (Scope [a] [Scope [b] []]) h = (Returns tt, h)).
Proof.
  split.
  { intros s h sm. by rewrite run_scope_restores. }
  intros h a b Hseam Hhas.
  destruct (patch_enter_present a h Hhas) as (ea & ha & Hea & Hva).
  assert (Hhas' : hasattr ha (p_target b) (p_attribute b) = true).
  { unfold hasattr. apply bool_decide_eq_true.
    unfold seam_value in Hva. rewrite Hseam in Hva. by eexists. }
  destruct (patch_enter_present b ha Hhas') as (eb & hb & Heb & Hvb).
  pose proof (patch_exit_enter _ _ _ _ Hea) as Hxa.
  pose proof (patch_exit_enter _ _ _ _ Heb) as Hxb.
  exists ea, ha, eb, hb. rewrite Hseam at 2.
  repeat (split; [done|]).
  simpl. unfold with_exit_stack. simpl. rewrite Hea. simpl.
  unfold bind, with_exit_stack. simpl. rewrite Heb. simpl.
  rewrite Hxb. simpl. by rewrite Hxa.
Qed.

Lemma lifo_sessions_restore_seams_witness :
  exists ea ha eb hb,
    patch_enter handle_outer heap_httplib = (Returns ea, ha)
    /\ seam_value ha (patcher_seam handle_outer) = Some (p_new handle_outer)
    /\ patch_enter handle_inner ha = (Returns eb, hb)
    /\ seam_value hb (patcher_seam handle_outer) = Some (p_new handle_inner)
    /\ patch_exit eb hb = (Returns tt, ha)
    /\ patch_exit ea ha = (Returns tt, heap_httplib)
    /\ run_scope (Scope [handle_outer] [Scope [handle_inner] []]) heap_httplib
       = (Returns tt, heap_httplib).
Proof.
  destruct lifo_sessions_restore_seams as [_ Hnested].
  apply (Hnested heap_httplib handle_outer handle_inner).
  - reflexivity.
  - reflexivity.
Defined.

Example nested_sessions_built :
  nested_trace
  = [ Some (VRef 2); Some (VRef 5); Some (VRef 6); Some (VRef 5); Some (VRef 2);
      Some (VCassette 1); Some (VCassette 2) ].
Proof. by vm_compute. Qed.

(** ** ConnectionPoolGuard: drain-and-sift *)

Example exit_lifo_reverses :
  let '(out, (_, pools')) := ConnectionRemover.__exit__ heap_pool (remover_s1, pools_lifo) in
  out = Returns tt /\ pool_pool (pools' 0) = Some [Some conn_a; Some conn_b].
Proof. by vm_compute. Qed.

Example exit_fifo_rotates :
  let '(out, (_, pools')) := ConnectionRemover.__exit__ heap_pool (remover_s1, pools_fifo) in
  out = Returns tt /\ pool_pool (pools' 0) = Some [Some conn_b; Some conn_a].
Proof. by vm_compute. Qed.

Example exit_untracked_raises :
  let '(out, (_, pools')) :=
    ConnectionRemover.__exit__ heap_pool (remover_s1, pools_untracked) in
  out = Raises KeyError /\ pool_pool (pools' 0) = Some [Some conn_a].
Proof. by vm_compute. Qed.

Section Drain.
Context (h : list pyobj) (cls : nat).

Local Abbreviation drain := (ConnectionRemover.drain h cls).
Local Abbreviation noninst := (noninstances h cls).
Local Abbreviation inst := (instances h cls).

Lemma noninstances_app q1 q2 : noninst (q1 ++ q2) = noninst q1 ++ noninst q2.
Proof. unfold noninstances. apply List.filter_app. Qed.

Lemma instances_app q1 q2 : inst (q1 ++ q2) = inst q1 ++ inst q2.
Proof. unfold instances. apply omap_app. Qed.

Lemma isinstance_Some x :
  isinstance h x cls = true -> exists c, x = Some c.
Proof. destruct x; [by eexists|done]. Qed.

Lemma noninstances_cons x q :
  noninst (x :: q) = if isinstance h x cls then noninst q else x :: noninst q.
Proof. unfold noninstances. simpl. by destruct (isinstance h x cls). Qed.

Lemma instances_cons_instance c q :
  isinstance h (Some c) cls = true -> inst (Some c :: q) = c :: inst q.
Proof. intros Hc. unfold instances. simpl. by rewrite Hc. Qed.

Lemma instances_cons_other x q :
  isinstance h x cls = false -> inst (x :: q) = inst q.
Proof. intros Hx. unfold instances. simpl. by rewrite Hx. Qed.

(** What the loop has done when it stops normally: it took a prefix of
    the queue, moved the entries of other types to [readd_connections] in
    the order it met them, struck the others off the tracked set, and
    stopped at the first moment one of the two was exhausted. *)
Lemma drain_returns q : forall connections readd d,
  drain q connections readd = (Returns tt, d) ->
  exists taken,
    q = taken ++ ConnectionRemover.d_queue d
    /\ ConnectionRemover.d_readd d = readd ++ noninst taken
    /\ ConnectionRemover.d_connections d
       = connections ∖ list_to_set (inst taken)
    /\ (ConnectionRemover.d_queue d = []
        \/ ConnectionRemover.d_connections d = ∅)
    /\ (forall m, m < length taken ->
          connections ∖ list_to_set (inst (take m q)) ≠ ∅).
Proof.
  induction q as [|x q IH]; intros connections readd d; simpl.
  { intros [= <-]. exists []. simpl. rewrite app_nil_r.
    repeat split; [set_solver|by left|]. intros m Hm. lia. }
  destruct (decide (connections = ∅)) as [Hempty|Hne].
  { intros [= <-]. exists []. simpl. rewrite app_nil_r.
    repeat split; [set_solver|by right|]. intros m Hm. lia. }
  destruct (isinstance h x cls) eqn:Hx.
  - destruct (isinstance_Some x Hx) as [c ->]. simpl.
    destruct (decide (c ∈ connections)) as [Hin|Hout]; [|done].
    intros Hrun. destruct (IH _ _ _ Hrun) as (taken & Hq & Hre & Hco & Hstop & Hmin).
    exists (Some c :: taken). rewrite noninstances_cons, Hx.
    rewrite instances_cons_instance by done. simpl. rewrite <- Hq.
    split; [done|]. split; [done|]. split; [rewrite Hco; set_solver|].
    split; [done|].
    intros [|m] Hm; simpl; [set_solver|].
    rewrite instances_cons_instance by done.
    specialize (Hmin m ltac:(lia)).
    by rewrite list_to_set_cons, <- difference_difference_l_L.
  - intros Hrun. destruct (IH _ _ _ Hrun) as (taken & Hq & Hre & Hco & Hstop & Hmin).
    exists (x :: taken). rewrite noninstances_cons, Hx.
    rewrite instances_cons_other by done. simpl. rewrite <- Hq.
    split; [done|]. split; [by rewrite Hre, <- app_assoc|].
    split; [done|]. split; [done|].
    intros [|m] Hm; simpl; [set_solver|].
    rewrite instances_cons_other by done. apply Hmin. lia.
Qed.

Lemma tracked_ok_cons_instance c q connections :
  isinstance h (Some c) cls = true ->
  tracked_ok h cls (Some c :: q) connections ->
  c ∈ connections /\ tracked_ok h cls q (connections ∖ {[ c ]}).
Proof.
  unfold tracked_ok. intros Hc. rewrite instances_cons_instance by done.
  rewrite NoDup_cons, Forall_cons. intros [[Hnotin Hnd] [Hin Hall]].
  split; [done|]. split; [done|].
  rewrite Forall_forall in *. intros c' Hc'.
  apply elem_of_difference. split; [by apply Hall|].
  rewrite elem_of_singleton. by intros ->.
Qed.

Lemma tracked_ok_cons_other x q connections :
  isinstance h x cls = false ->
  tracked_ok h cls (x :: q) connections -> tracked_ok h cls q connections.
Proof. unfold tracked_ok. intros Hx. by rewrite instances_cons_other. Qed.

(** With the tracker in step with the pool the loop never raises. *)
Lemma drain_total q : forall connections readd,
  tracked_ok h cls q connections ->
  exists d, drain q connections readd = (Returns tt, d).
Proof.
  induction q as [|x q IH]; intros connections readd Hok; simpl; [by eexists|].
  destruct (decide (connections = ∅)); [by eexists|].
  destruct (isinstance h x cls) eqn:Hx.
  - destruct (isinstance_Some x Hx) as [c ->].
    destruct (tracked_ok_cons_instance _ _ _ Hx Hok) as [Hin Hok'].
    simpl. rewrite decide_True by done. by apply IH.
  - apply IH. by eapply tracked_ok_cons_other.
Qed.
End Drain.

Lemma readd_requeued l : forall p q,
  ConnectionRemover.readd l (set_queue q p)
  = set_queue (requeued (QueueCls p) l q) p.
Proof.
  unfold ConnectionRemover.readd.
  induction l as [|x l IH]; intros p q; simpl.
  { unfold requeued. destruct (QueueCls p); simpl; by rewrite ?app_nil_r. }
  unfold _put_conn at 2. simpl.
  change (set_queue (queue_put (QueueCls p) x q) (set_queue q p))
    with (set_queue (queue_put (QueueCls p) x q) p).
  rewrite IH. unfold requeued, queue_put.
  destruct (QueueCls p); simpl; by rewrite <- ?app_assoc.
Qed.

Lemma sifted_nothing p : sifted p [] (queue_of p) = p.
Proof.
  unfold sifted, queue_of. destruct p as [c d [q|]]; simpl; [|done].
  unfold set_queue, requeued. simpl. destruct d; simpl; by rewrite ?app_nil_r.
Qed.

Section Sift.
Context (h : list pyobj) (cls : nat).

Local Abbreviation noninst := (noninstances h cls).
Local Abbreviation inst := (instances h cls).

(** One pool: the sweep takes a prefix of the queue and puts the entries
    of other types back. *)
Lemma sift_spec p connections :
  tracked_ok h cls (queue_of p) connections ->
  exists taken rest,
    queue_of p = taken ++ rest
    /\ ConnectionRemover.sift h cls p connections
       = (Returns tt, (sifted p (noninst taken) rest,
                       connections ∖ list_to_set (inst taken)))
    /\ (rest = [] \/ connections ∖ list_to_set (inst taken) = ∅)
    /\ (forall m, m < length taken ->
          connections ∖ list_to_set (inst (take m (queue_of p))) ≠ ∅).
Proof.
  intros Hok. unfold ConnectionRemover.sift, sifted, queue_of in *.
  destruct (pool_pool p) as [q|] eqn:Hq; simpl in *.
  - destruct (drain_total h cls q connections [] Hok) as [d Hd].
    destruct (drain_returns h cls q _ _ _ Hd)
      as (taken & Hsplit & Hre & Hco & Hstop & Hmin).
    exists taken, (ConnectionRemover.d_queue d). rewrite Hd, <- Hco.
    split; [done|]. split; [|done].
    rewrite Hre. simpl. by rewrite readd_requeued.
  - exists [], []. split; [done|]. split.
    + f_equal. f_equal. set_solver.
    + split; [by left|]. simpl. lia.
Qed.
End Sift.

Section Exit.
Context (h : list pyobj) (cls : nat).

Lemma sift_items_spec items : forall pools,
  NoDup (map fst items) ->
  Forall (fun item => tracked_ok h cls (queue_of (pools (fst item))) (snd item))
         items ->
  exists items' pools',
    ConnectionRemover.sift_items h cls items pools = (Returns tt, (items', pools'))
    /\ (forall pid, pid ∉ map fst items -> pools' pid = pools pid)
    /\ Forall2 (fun item item' =>
                  fst item' = fst item
                  /\ swept h cls (pools (fst item)) (pools' (fst item))
                           (snd item) (snd item'))
               items items'.
Proof.
  induction items as [|[pid connections] items IH]; intros pools Hnd Hok.
  { exists [], pools. by repeat split. }
  simpl in Hnd. apply NoDup_cons in Hnd as [Hfresh Hnd].
  apply Forall_cons in Hok as [Hhead Hok]. simpl in Hhead.
  destruct (sift_spec h cls _ _ Hhead) as (taken & rest & Hsplit & Hrun & Hstop & Hmin).
  simpl. rewrite Hrun.
  set (p' := sifted (pools pid) (noninstances h cls taken) rest) in *.
  assert (Hframe : forall item, item ∈ items ->
                     (<[pid := p']> pools) (fst item) = pools (fst item)).
  { intros item Hin. apply fn_lookup_insert_ne. intros ->.
    apply Hfresh. apply list_elem_of_fmap. by exists item. }
  destruct (IH (<[pid := p']> pools) Hnd) as (items' & pools' & Hrest & Hother & Hall).
  { rewrite Forall_forall in *. intros item Hin. rewrite Hframe by done. auto. }
  rewrite Hrest.
  exists ((pid, connections ∖ list_to_set (instances h cls taken)) :: items'), pools'.
  split; [done|]. split.
  - intros pid' Hnotin. rewrite not_elem_of_cons in Hnotin.
    destruct Hnotin as [Hne Hnotin]. simpl in Hne.
    rewrite Hother by done. by apply fn_lookup_insert_ne.
  - constructor.
    + simpl. split; [done|]. rewrite Hother by done. rewrite fn_lookup_insert.
      by exists taken, rest.
    + apply Forall2_lookup. intros i.
      destruct (items !! i) as [item|] eqn:Hi.
      * destruct (Forall2_lookup_l _ _ _ i item Hall Hi) as (item' & Hi' & Hfst & Hsw).
        rewrite Hi'. constructor. split; [done|].
        rewrite Hframe in Hsw; [done|]. by eapply list_elem_of_lookup_2.
      * apply Forall2_length in Hall.
        rewrite (lookup_ge_None_2 items'); [constructor|].
        apply lookup_ge_None_1 in Hi. lia.
Qed.

Lemma noninstances_idem q :
  noninstances h cls (noninstances h cls q) = noninstances h cls q.
Proof.
  induction q as [|x q IH]; [done|]. rewrite noninstances_cons.
  destruct (isinstance h x cls) eqn:Hx; [done|].
  by rewrite noninstances_cons, Hx, IH.
Qed.

Lemma noninstances_rev q :
  noninstances h cls (rev q) = rev (noninstances h cls q).
Proof. unfold noninstances. apply List.filter_rev. Qed.

(** The queue keeps every entry that is not an instance of the class. *)
Lemma swept_keeps_noninstances p p' connections connections' :
  swept h cls p p' connections connections' ->
  noninstances h cls (queue_of p') ≡ₚ noninstances h cls (queue_of p).
Proof.
  intros (taken & rest & Hsplit & -> & _). rewrite Hsplit.
  unfold sifted, queue_of in *.
  destruct (pool_pool p) as [q|] eqn:Hq; simpl in *.
  - unfold requeued.
    destruct (QueueCls p); rewrite !noninstances_app.
    + rewrite noninstances_rev, noninstances_idem.
      apply Permutation_app_tail. symmetry. apply Permutation_rev.
    + rewrite noninstances_idem. apply Permutation_app_comm.
  - rewrite Hq. simpl. by rewrite <- Hsplit.
Qed.

Lemma exit_spec self pools :
  ConnectionRemover._connection_class self = cls ->
  exit_ready h self pools ->
  exists self' pools',
    ConnectionRemover.__exit__ h (self, pools) = (Returns tt, (self', pools'))
    /\ ConnectionRemover._connection_class self' = cls
    /\ (forall pid,
          pid ∉ map fst (ConnectionRemover._connection_pool_to_connections self) ->
          pools' pid = pools pid)
    /\ Forall2 (fun item item' =>
                  fst item' = fst item
                  /\ swept h cls (pools (fst item)) (pools' (fst item))
                           (snd item) (snd item'))
               (ConnectionRemover._connection_pool_to_connections self)
               (ConnectionRemover._connection_pool_to_connections self').
Proof.
  intros Hcls [Hnd Hok]. rewrite Hcls in Hok.
  destruct (sift_items_spec _ pools Hnd Hok) as (items' & pools' & Hrun & Hother & Hall).
  unfold ConnectionRemover.__exit__. rewrite Hcls, Hrun.
  by eexists _, _.
Qed.

(** Every pool is either out of the remover's reach or swept once. *)
Lemma exit_every_pool self pools :
  ConnectionRemover._connection_class self = cls ->
  exit_ready h self pools ->
  exists self' pools',
    ConnectionRemover.__exit__ h (self, pools) = (Returns tt, (self', pools'))
    /\ forall pid,
         pools' pid = pools pid
         \/ exists connections connections',
             (pid, connections)
               ∈ ConnectionRemover._connection_pool_to_connections self
             /\ swept h cls (pools pid) (pools' pid) connections connections'.
Proof.
  intros Hcls Hready.
  destruct (exit_spec self pools Hcls Hready)
    as (self' & pools' & Hrun & _ & Hother & Hall).
  exists self', pools'. split; [done|]. intros pid.
  destruct (decide (pid ∈ map fst
              (ConnectionRemover._connection_pool_to_connections self)))
    as [Hin|Hout]; [|left; by apply Hother].
  right. apply list_elem_of_fmap in Hin as ([pid' connections] & -> & Hin).
  apply list_elem_of_lookup in Hin as [i Hi].
  destruct (Forall2_lookup_l _ _ _ _ _ Hall Hi) as ([pid'' connections'] & _ & _ & Hsw).
  exists connections, connections'. split; [|done].
  by eapply list_elem_of_lookup_2.
Qed.
End Exit.

Lemma exit_lifo_not_in_order : ~ keeps_relative_order heap_pool remover_s1 pools_lifo.
Proof.
  intros Hclaim.
  destruct (ConnectionRemover.__exit__ heap_pool (remover_s1, pools_lifo))
    as [out [self' pools']] eqn:Hrun.
  specialize (Hclaim _ _ _ 0 eq_refl).
  vm_compute in Hclaim. discriminate.
Qed.

(** C5 (amended): when every connection of the tracked class found in a
    pool is in that pool's tracked set, [__exit__] returns and removes from
    no pool an entry that is not an instance of the tracked class; the
    entries it took out and keeps are put back in the order in which they
    were taken out, on top of the untouched rest in a LIFO pool, where their
    order is thereby reversed, and behind it in a FIFO pool. *)
Theorem exit_never_removes_other_entries h self pools :
  exit_ready h self pools ->
  exists self' pools',
    ConnectionRemover.__exit__ h (self, pools) = (Returns tt, (self', pools'))
    /\ forall pid,
         noninstances h (ConnectionRemover._connection_class self) (queue_of (pools' pid))
         ≡ₚ noninstances h (ConnectionRemover._connection_class self) (queue_of (pools pid))
         /\ exists taken rest,
             queue_of (pools pid) = taken ++ rest
             /\ pools' pid
                = sifted (pools pid)
                         (noninstances h (ConnectionRemover._connection_class self) taken)
                         rest.
Proof.
  intros Hready.
  destruct (exit_every_pool h _ self pools eq_refl Hready) as (self' & pools' & Hrun & Hall).
  exists self', pools'. split; [done|]. intros pid.
  destruct (Hall pid) as [Hsame|(connections & connections' & _ & Hsw)].
  - rewrite Hsame. split; [done|].
    exists [], (queue_of (pools pid)). split; [done|]. by rewrite sifted_nothing.
  - split; [by eapply swept_keeps_noninstances|].
    destruct Hsw as (taken & rest & Hsplit & Hp' & _). by exists taken, rest.
Qed.


(** ** Teardown on empty and drained pools *)

Lemma set_queue_same p q : pool_pool p = Some q -> set_queue q p = p.
Proof. destruct p. unfold set_queue. simpl. by intros ->. Qed.

Lemma sift_idle h cls p connections :
  queue_of p = [] \/ connections = ∅ ->
  ConnectionRemover.sift h cls p connections = (Returns tt, (p, connections)).
Proof.
  unfold ConnectionRemover.sift, queue_of.
  destruct (pool_pool p) as [q|] eqn:Hq; [|done]. simpl.
  intros [->| ->].
  - simpl. by rewrite set_queue_same.
  - destruct q as [|x q]; simpl; [by rewrite set_queue_same|].
    rewrite decide_True by done. simpl. by rewrite set_queue_same.
Qed.

Lemma sift_items_idle h cls items : forall pools,
  Forall (fun item => queue_of (pools (fst item)) = [] \/ snd item = ∅) items ->
  exists pools',
    ConnectionRemover.sift_items h cls items pools = (Returns tt, (items, pools'))
    /\ forall pid, pools' pid = pools pid.
Proof.
  induction items as [|[pid connections] items IH]; intros pools Hidle.
  { by exists pools. }
  apply Forall_cons in Hidle as [Hhead Hidle]. simpl in Hhead.
  simpl. rewrite sift_idle by done.
  assert (Hsame : forall pid', (<[pid := pools pid]> pools) pid' = pools pid').
  { intros pid'. destruct (decide (pid = pid')) as [->|Hne].
    - by rewrite fn_lookup_insert.
    - by rewrite fn_lookup_insert_ne. }
  destruct (IH (<[pid := pools pid]> pools)) as (pools' & Hrun & Hpools).
  { eapply Forall_impl; [exact Hidle|]. intros item. simpl. by rewrite Hsame. }
  rewrite Hrun. exists pools'. split; [done|].
  intros pid'. by rewrite Hpools.
Qed.

Lemma exit_untracked_instance_raises : ~ never_raises heap_pool remover_s1 pools_untracked.
Proof. intros [st Hst]. vm_compute in Hst. discriminate. Qed.

(** C6 (amended): the loop of [__exit__] always terminates.  A pool that is
    closed, empty or already drained, or whose tracked set is empty, is left
    exactly as it is and nothing is raised.  When every connection of the
    tracked class found in a pool is in that pool's tracked set, nothing is
    raised either: each pool the remover names is swept until its queue or
    its tracked set is exhausted and no longer, and every entry that is not
    an instance of the tracked class is still in its pool afterwards. *)
Theorem exit_raises_nothing h self pools :
  (nothing_to_drain self pools ->
   exists pools',
     ConnectionRemover.__exit__ h (self, pools) = (Returns tt, (self, pools'))
     /\ forall pid, pools' pid = pools pid)
  /\ (exit_ready h self pools ->
      exists self' pools',
        ConnectionRemover.__exit__ h (self, pools) = (Returns tt, (self', pools'))
        /\ (forall pid,
              pools' pid = pools pid
              \/ exists connections connections',
                  (pid, connections)
                    ∈ ConnectionRemover._connection_pool_to_connections self
                  /\ swept h (ConnectionRemover._connection_class self)
                           (pools pid) (pools' pid) connections connections')
        /\ (forall pid x,
              x ∈ queue_of (pools pid) ->
              isinstance h x (ConnectionRemover._connection_class self) = false ->
              x ∈ queue_of (pools' pid))).
Proof.
  split.
  - intros Hidle.
    destruct (sift_items_idle h (ConnectionRemover._connection_class self) _ pools Hidle)
      as (pools' & Hrun & Hsame).
    exists pools'. split; [|done].
    unfold ConnectionRemover.__exit__. rewrite Hrun. by destruct self.
  - intros Hready.
    destruct (exit_every_pool h _ self pools eq_refl Hready)
      as (self' & pools' & Hrun & Hall).
    exists self', pools'. split; [done|]. split; [done|].
    intros pid x Hin Hx.
    destruct (Hall pid) as [->|(connections & connections' & _ & Hsw)]; [done|].
    apply swept_keeps_noninstances in Hsw.
    assert (Hnon : x ∈ noninstances h (ConnectionRemover._connection_class self)
                                    (queue_of (pools pid))).
    { apply list_elem_of_In, filter_In. split; [by apply list_elem_of_In|].
      by rewrite Hx. }
    rewrite <- Hsw in Hnon.
    apply list_elem_of_In, filter_In in Hnon as [Hnon _]. by apply list_elem_of_In.
Qed.

(** ** PoolEntryTracker: only instances are tracked *)

Lemma drain_shrinks h cls q : forall connections readd,
  ConnectionRemover.d_connections (ConnectionRemover.drain h cls q connections readd).2
  ⊆ connections.
Proof.
  induction q as [|x q IH]; intros connections readd; simpl; [done|].
  destruct (decide (connections = ∅)); [done|].
  destruct (isinstance h x cls); [|apply IH].
  destruct x as [c|]; simpl; [|done].
  destruct (decide (c ∈ connections)); [|done].
  etrans; [apply IH|]. set_solver.
Qed.

Lemma sift_shrinks h cls p connections :
  (ConnectionRemover.sift h cls p connections).2.2 ⊆ connections.
Proof.
  unfold ConnectionRemover.sift. destruct (pool_pool p) as [q|]; [|done].
  pose proof (drain_shrinks h cls q connections []) as Hsub.
  by destruct (ConnectionRemover.drain h cls q connections []) as [[[]|e] d].
Qed.

Lemma sift_items_shrinks h cls items : forall pools,
  Forall2 (fun item item' => snd item' ⊆ snd item)
          items (ConnectionRemover.sift_items h cls items pools).2.1.
Proof.
  induction items as [|[pid connections] items IH]; intros pools; simpl;
    [constructor|].
  pose proof (sift_shrinks h cls (pools pid) connections) as Hsub.
  destruct (ConnectionRemover.sift h cls (pools pid) connections)
    as [[[]|e] [p' connections']]; simpl in *.
  - specialize (IH (<[pid := p']> pools)).
    destruct (ConnectionRemover.sift_items h cls items (<[pid := p']> pools))
      as [out [rest' pools']]. simpl in *. by constructor.
  - constructor; [done|]. by apply Forall_Forall2_diag, Forall_true.
Qed.

Lemma setdefault_add_instances (P : connection_object -> Prop) pool connection d :
  P connection ->
  Forall (fun item => set_Forall P (snd item)) d ->
  Forall (fun item => set_Forall P (snd item))
         (ConnectionRemover.setdefault_add pool connection d).
Proof.
  intros Hc. induction 1 as [|[k s] d Hs Hd IH]; simpl.
  - constructor; [|constructor]. simpl. by apply set_Forall_singleton.
  - destruct (decide (k = pool)); constructor; simpl in *; try done.
    apply set_Forall_union; [by apply set_Forall_singleton|done].
Qed.

(** C10: a connection that is not an instance of the remover's class
    leaves the tracker exactly as it was, and every operation of the
    remover, whatever its outcome, keeps the tracked sets within the
    instances of that class. *)
Theorem tracker_holds_instances_only h self :
  (forall pool connection,
      isinstance h (Some connection) (ConnectionRemover._connection_class self) = false ->
      ConnectionRemover.add_connection_to_pool_entry h pool connection self = self)
  /\ tracks_instances h
       (ConnectionRemover.__init__ (ConnectionRemover._connection_class self))
  /\ (tracks_instances h self ->
      (forall pool connection,
          tracks_instances h
            (ConnectionRemover.add_connection_to_pool_entry h pool connection self))
      /\ (forall pool connection,
          tracks_instances h
            (ConnectionRemover.remove_connection_to_pool_entry h pool connection self).2)
      /\ tracks_instances h (ConnectionRemover.__enter__ self)
      /\ (forall pools,
          tracks_instances h (ConnectionRemover.__exit__ h (self, pools)).2.1)).
Proof.
  split; [|split].
  - intros pool connection Hnot.
    unfold ConnectionRemover.add_connection_to_pool_entry. by rewrite Hnot.
  - constructor.
  - intros Hinv. repeat split.
    + intros pool connection.
      unfold ConnectionRemover.add_connection_to_pool_entry.
      destruct (isinstance h (Some connection)
                           (ConnectionRemover._connection_class self)) eqn:Hc; [|done].
      unfold tracks_instances. simpl. by apply setdefault_add_instances.
    + intros pool connection.
      unfold ConnectionRemover.remove_connection_to_pool_entry.
      by destruct (isinstance h (Some connection)
                              (ConnectionRemover._connection_class self)).
    + done.
    + intros pools. unfold ConnectionRemover.__exit__.
      pose proof (sift_items_shrinks h (ConnectionRemover._connection_class self)
                    (ConnectionRemover._connection_pool_to_connections self) pools) as Hsub.
      destruct (ConnectionRemover.sift_items h _ _ pools) as [out [items' pools']].
      unfold tracks_instances in *. simpl in *.
      revert Hinv. induction Hsub as [|item item' items items' Hs _ IH]; [done|].
      rewrite !Forall_cons. intros [Hitem Hitems]. split; [|by apply IH].
      intros c Hc. apply Hitem. by apply Hs.
Qed.

Lemma tracker_holds_instances_only_witness :
  tracks_instances heap_pool
    (ConnectionRemover.add_connection_to_pool_entry heap_pool 0 conn_a remover_s1)
  /\ tracks_instances heap_pool
       (ConnectionRemover.__exit__ heap_pool (remover_s1, pools_untracked)).2.1.
Proof.
  destruct (tracker_holds_instances_only heap_pool remover_s1) as (_ & _ & Hkeep).
  assert (Hinv : tracks_instances heap_pool remover_s1).
  { repeat constructor. simpl. apply set_Forall_singleton. reflexivity. }
  destruct (Hkeep Hinv) as (Hadd & _ & _ & Hexit).
  split; [apply Hadd|apply Hexit].
Defined.

Lemma exit_never_removes_other_entries_witness :
  exists self' pools',
    ConnectionRemover.__exit__ heap_pool (remover_s1, pools_lifo)
      = (Returns tt, (self', pools'))
    /\ forall pid,
         noninstances heap_pool (ConnectionRemover._connection_class remover_s1)
                      (queue_of (pools' pid))
         ≡ₚ noninstances heap_pool (ConnectionRemover._connection_class remover_s1)
                         (queue_of (pools_lifo pid))
         /\ exists taken rest,
             queue_of (pools_lifo pid) = taken ++ rest
             /\ pools' pid
                = sifted (pools_lifo pid)
                    (noninstances heap_pool
                       (ConnectionRemover._connection_class remover_s1) taken)
                    rest.
Proof.
  apply (exit_never_removes_other_entries heap_pool remover_s1 pools_lifo).
  split.
  - vm_compute. repeat constructor. set_solver.
  - repeat constructor; vm_compute; try set_solver.
Defined.

Lemma exit_raises_nothing_witness :
  (exists pools',
     ConnectionRemover.__exit__ heap_pool (remover_s1, pools_drained)
       = (Returns tt, (remover_s1, pools'))
     /\ forall pid, pools' pid = pools_drained pid)
  /\ (exists self' pools',
        ConnectionRemover.__exit__ heap_pool (remover_s1, pools_lifo)
          = (Returns tt, (self', pools'))
        /\ (forall pid,
              pools' pid = pools_lifo pid
              \/ exists connections connections',
                  (pid, connections)
                    ∈ ConnectionRemover._connection_pool_to_connections remover_s1
                  /\ swept heap_pool (ConnectionRemover._connection_class remover_s1)
                           (pools_lifo pid) (pools' pid) connections connections')
        /\ (forall pid x,
              x ∈ queue_of (pools_lifo pid) ->
              isinstance heap_pool x
                         (ConnectionRemover._connection_class remover_s1) = false ->
              x ∈ queue_of (pools' pid))).
Proof.
  split.
  - apply (exit_raises_nothing heap_pool remover_s1 pools_drained).
    repeat constructor.
  - apply (exit_raises_nothing heap_pool remover_s1 pools_lifo).
    split.
    + vm_compute. repeat constructor. set_solver.
    + repeat constructor; vm_compute; try set_solver.
Defined.

(** ** Acquire-loop termination *)

Section AcquireLoop.
Context (h : list pyobj) (new_conn : nat -> M (nat -> connection_pool) connection_object).
Context (pool : nat) (cls : nat).
Context (Hcreate : creates_instances h new_conn pool cls).

Lemma wrong_type_cons x q :
  wrong_type h cls (x :: q)
  = match x with
    | Some c => if isinstance h (Some c) cls then wrong_type h cls q
                else x :: wrong_type h cls q
    | None => wrong_type h cls q
    end.
Proof.
  unfold wrong_type. simpl. destruct x as [c|]; [|done].
  by destruct (isinstance h (Some c) cls).
Qed.

(** One call of the acquire primitive: what comes out, and what is left. *)
Lemma get_conn_step s q :
  pool_pool (pools s pool) = Some q ->
  exists c s',
    get_conn new_conn pool s = (Returns c, s')
    /\ get_conn_calls s' = S (get_conn_calls s)
    /\ ConnectionCls (pools s' pool) = ConnectionCls (pools s pool)
    /\ match q with
       | Some c0 :: q' => c = c0 /\ pool_pool (pools s' pool) = Some q'
       | None :: q' =>
           isinstance h (Some c) cls = true /\ pool_pool (pools s' pool) = Some q'
       | [] => isinstance h (Some c) cls = true /\ pool_pool (pools s' pool) = Some []
       end.
Proof.
  intros Hq. unfold get_conn. rewrite Hq.
  destruct q as [|[c0|] q'].
  - destruct (Hcreate (pools s)) as (c & ps' & Hnew & Hc & Hsame).
    rewrite Hnew. exists c, {| pools := ps'; get_conn_calls := S (get_conn_calls s) |}.
    simpl. rewrite Hsame. by repeat split.
  - eexists c0, _. split; [done|]. simpl. rewrite fn_lookup_insert. by repeat split.
  - destruct (Hcreate (<[pool := set_queue q' (pools s pool)]> (pools s)))
      as (c & ps' & Hnew & Hc & Hsame).
    rewrite Hnew. exists c, {| pools := ps'; get_conn_calls := S (get_conn_calls s) |}.
    simpl. rewrite Hsame, fn_lookup_insert. by repeat split.
Qed.

Lemma while_not_instance_terminates q : forall fuel s connection,
  pool_pool (pools s pool) = Some q ->
  length (wrong_type h cls q) < fuel ->
  exists c s',
    while_not_instance h new_conn fuel pool cls connection s = (Returns (Some c), s')
    /\ isinstance h (Some c) cls = true
    /\ get_conn_calls s' <= get_conn_calls s + length (wrong_type h cls q) + 1.
Proof.
  induction q as [|x q IH]; intros fuel s connection Hq Hfuel.
  - destruct fuel as [|fuel]; [lia|]. simpl.
    destruct (isinstance h (Some connection) cls) eqn:Hc.
    { exists connection, s. split; [done|]. split; [done|]. lia. }
    destruct (get_conn_step s [] Hq) as (c & s' & Hget & Hcalls & _ & Hinst & Hq').
    unfold bind. rewrite Hget.
    destruct fuel; simpl; rewrite Hinst; exists c, s';
      (split; [done|]); (split; [done|]); simpl; lia.
  - destruct fuel as [|fuel]; [lia|]. simpl.
    destruct (isinstance h (Some connection) cls) eqn:Hc.
    { exists connection, s. split; [done|]. split; [done|]. lia. }
    destruct (get_conn_step s (x :: q) Hq) as (c & s' & Hget & Hcalls & _ & Hx).
    unfold bind. rewrite Hget. rewrite wrong_type_cons in *.
    destruct x as [c0|].
    + destruct Hx as [-> Hq'].
      destruct (isinstance h (Some c0) cls) eqn:Hc0.
      * destruct fuel; simpl; rewrite Hc0; exists c0, s';
          (split; [done|]); (split; [done|]); lia.
      * simpl in Hfuel.
        destruct (IH fuel s' c0 Hq' ltac:(lia)) as (c & s'' & Hrun & Hinst & Hn).
        exists c, s''. split; [done|]. split; [done|]. simpl. lia.
    + destruct Hx as [Hinst Hq'].
      destruct fuel; simpl; rewrite Hinst; exists c, s';
        (split; [done|]); (split; [done|]); lia.
Qed.

End AcquireLoop.

(** C4: for a pool whose queue holds K connections that are not instances
    of the expected connection class, and whose creation primitive always
    yields an instance of it, the wrapped acquire operation terminates
    within K rounds of its loop and returns a connection of the expected
    class after at most K+1 calls of the original acquire primitive. *)
Theorem patched_get_conn_terminates h new_conn getter pool ps q K fuel :
  pool_pool (ps pool) = Some q ->
  length (wrong_type h (expected_class getter (ps pool)) q) = K ->
  creates_instances h new_conn pool (expected_class getter (ps pool)) ->
  K <= fuel ->
  exists c s',
    patched_get_conn h new_conn fuel getter pool {| pools := ps; get_conn_calls := 0 |}
      = (Returns (Some c), s')
    /\ isinstance h (Some c) (expected_class getter (ps pool)) = true
    /\ get_conn_calls s' <= K + 1.
Proof.
  intros Hq HK Hcreate Hfuel.
  set (cls := expected_class getter (ps pool)) in *.
  set (s := {| pools := ps; get_conn_calls := 0 |}).
  destruct (get_conn_step h new_conn pool cls Hcreate s q Hq)
    as (c & s' & Hget & Hcalls & Hcls & Hstep).
  unfold patched_get_conn, bind. rewrite Hget. unfold gets.
  assert (Hsame : expected_class getter (pools s' pool) = cls).
  { unfold expected_class in *. by rewrite Hcls. }
  rewrite Hsame.
  assert (Hdone : isinstance h (Some c) cls = true ->
    exists c' s'',
      while_not_instance h new_conn fuel pool cls c s' = (Returns (Some c'), s'')
      /\ isinstance h (Some c') cls = true /\ get_conn_calls s'' <= K + 1).
  { intros Hc. exists c, s'.
    split; [destruct fuel; simpl; by rewrite Hc|]. split; [done|].
    rewrite Hcalls. simpl. lia. }
  destruct q as [|[c0|] q']; try (destruct Hstep as [Hinst _]; by apply Hdone).
  destruct Hstep as [-> Hq'].
  destruct (isinstance h (Some c0) cls) eqn:Hc0; [by apply Hdone|].
  rewrite wrong_type_cons, Hc0 in HK. simpl in HK.
  destruct (while_not_instance_terminates h new_conn pool cls Hcreate q' fuel s' c0 Hq')
    as (c & s'' & Hrun & Hinst & Hn); [lia|].
  exists c, s''. split; [done|]. split; [done|]. rewrite Hcalls in Hn. simpl in Hn. lia.
Qed.

Lemma patched_get_conn_terminates_witness :
  exists c s',
    patched_get_conn heap_pool (create_connection 2 20) 3 1 0
                     {| pools := pools_stale; get_conn_calls := 0 |}
      = (Returns (Some c), s')
    /\ isinstance heap_pool (Some c) (expected_class 1 (pools_stale 0)) = true
    /\ get_conn_calls s' <= 3 + 1.
Proof.
  apply (patched_get_conn_terminates heap_pool (create_connection 2 20) 1 0 pools_stale
           [Some conn_a; Some conn_b; None; Some conn_a] 3 3).
  - reflexivity.
  - reflexivity.
  - intros ps. by exists {| conn_id := 20; conn_class := 2 |}, ps.
  - lia.
Defined.

Example patched_get_conn_stale :
  let '(out, s') := patched_get_conn heap_pool (create_connection 2 20) 2 1 0
                      {| pools := pools_stale; get_conn_calls := 0 |} in
  out = Returns (Some {| conn_id := 20; conn_class := 2 |})
  /\ get_conn_calls s' = 3
  /\ pool_pool (pools s' 0) = Some [Some conn_a].
Proof. by vm_compute. Qed.

(** ** PatchBuilder: the order of [build] *)

Lemma bind_returns {S A B} (m : M S A) (k : A -> M S B) s b s' :
  bind m k s = (Returns b, s') ->
  exists a s1, m s = (Returns a, s1) /\ k a s1 = (Returns b, s').
Proof.
  unfold bind. destruct (m s) as [[a|e] s1]; [|done]. intros Hk. by exists a, s1.
Qed.

Lemma ret_returns {S A} (a b : A) (s s' : S) :
  ret a s = (Returns b, s') -> b = a /\ s' = s.
Proof. by intros [= -> ->]. Qed.

Lemma lift_returns {A} (m : M (list pyobj) A) w a w' :
  lift m w = (Returns a, w') ->
  exists h', m (w_heap w) = (Returns a, h') /\ w' = set_heap h' w.
Proof.
  unfold lift. destruct (m (w_heap w)) as [out h']. intros [= -> <-]. by exists h'.
Qed.

(** Take the next statement off a run that returned. *)
Ltac step H :=
  let a := fresh "a" in
  let s := fresh "s" in
  let Ha := fresh "Ha" in
  apply bind_returns in H as (a & s & Ha & H).

Ltac finish H :=
  let E1 := fresh in
  let E2 := fresh in
  apply ret_returns in H as [E1 E2]; subst.

Lemma build_patcher_seam obj attribute replacement w o w' :
  _build_patcher obj attribute replacement w = (Returns o, w') ->
  match o with
  | Some p => patcher_seam p = (obj, attribute)
  | None => True
  end.
Proof.
  unfold _build_patcher. destruct (negb _); [by intros [= <- <-]|].
  intros H. step H. by finish H.
Qed.

Lemma build_patchers_sublist ts : forall w ps w',
  _build_patchers_from_mock_triples ts w = (Returns ps, w') ->
  patcher_seam <$> ps `sublist_of` triple_seam <$> ts.
Proof.
  induction ts as [|t ts IH]; intros w ps w' H; simpl in H.
  { finish H. constructor. }
  step H. step H. finish H.
  apply build_patcher_seam in Ha. apply IH in Ha0.
  destruct a as [p|]; simpl.
  - unfold triple_seam at 1. rewrite <- Ha. by constructor.
  - by constructor.
Qed.

Lemma build_patchers_labels ts w ps w' :
  _build_patchers_from_mock_triples ts w = (Returns ps, w') ->
  resource_label <$> (RPatch <$> ps) `sublist_of` Some <$> (t_attribute <$> ts).
Proof.
  intros H. apply build_patchers_sublist in H.
  apply (fmap_sublist (fun s : seam => Some (snd s))) in H.
  by rewrite <- !list_fmap_compose in *.
Qed.

Lemma decorator_labels function w rs w' (order : list string) :
  (forall w ts w1, function w = (Returns ts, w1) ->
                   t_attribute <$> ts `sublist_of` order) ->
  _build_patchers_from_mock_triples_decorator function w = (Returns rs, w') ->
  resource_label <$> rs `sublist_of` Some <$> order.
Proof.
  intros Hf H. unfold _build_patchers_from_mock_triples_decorator in H.
  step H. step H. finish H.
  etrans; [by eapply build_patchers_labels|].
  apply fmap_sublist. by eapply Hf.
Qed.

(** Run a returned computation apart, statement by statement. *)
Ltac run H :=
  repeat first
    [ step H
    | finish H
    | match type of H with
      | context [match ?x with Some _ => _ | None => _ end] => destruct x
      | context [if ?b then _ else _] => destruct b
      end ].

Ltac solve_sublist :=
  simpl; solve [repeat first [apply sublist_nil | apply sublist_skip | apply sublist_cons]].

Section AdapterOrder.
Context (sys_modules : gmap string nat) (g : globals).

Lemma httplib_order w ts w1 :
  _httplib g w = (Returns ts, w1) ->
  t_attribute <$> ts `sublist_of` ["HTTPConnection"; "HTTPSConnection"].
Proof. intros H. unfold _httplib in H. run H. solve_sublist. Qed.

Lemma boto3_order w ts w1 :
  _boto3 sys_modules w = (Returns ts, w1) ->
  t_attribute <$> ts `sublist_of` ["ConnectionCls"; "ConnectionCls"].
Proof. intros H. unfold _boto3 in H. run H; solve_sublist. Qed.

Lemma httplib2_order w ts w1 :
  _httplib2 sys_modules w = (Returns ts, w1) ->
  t_attribute <$> ts
  `sublist_of` ["HTTPConnectionWithTimeout"; "HTTPSConnectionWithTimeout";
                "SCHEME_TO_CONNECTION"].
Proof. intros H. unfold _httplib2 in H. run H; solve_sublist. Qed.

Lemma boto_order w ts w1 :
  _boto sys_modules w = (Returns ts, w1) ->
  t_attribute <$> ts `sublist_of` ["CertValidatingHTTPSConnection"].
Proof. intros H. unfold _boto in H. run H; solve_sublist. Qed.

Lemma tornado_order w ts w1 :
  _tornado sys_modules g w = (Returns ts, w1) ->
  t_attribute <$> ts `sublist_of` ["fetch_impl"; "fetch_impl"].
Proof.
  intros H. unfold _tornado in H. run H.
  destruct a, a1; run Ha0; run Ha2; solve_sublist.
Qed.

Lemma aiohttp_order w ts w1 :
  _aiohttp sys_modules g w = (Returns ts, w1) ->
  t_attribute <$> ts `sublist_of` ["_request"].
Proof. intros H. unfold _aiohttp in H. run H; solve_sublist. Qed.

Lemma httpx_order w ts w1 :
  _httpx sys_modules g w = (Returns ts, w1) ->
  t_attribute <$> ts `sublist_of` ["send"; "send"].
Proof. intros H. unfold _httpx in H. run H; solve_sublist. Qed.

Lemma urllib3_patchers_order cpool conn stubs w u w1 :
  _urllib3_patchers cpool conn stubs w = (Returns u, w1) ->
  Some <$> (t_attribute <$> mock_triples u) = take 10 urllib3_order
  /\ length (removers u) = 2.
Proof. intros H. unfold _urllib3_patchers in H. run H. done. Qed.

Lemma chain_urllib3_order u w rs w1 :
  match u with
  | Some u => Some <$> (t_attribute <$> mock_triples u) = take 10 urllib3_order
              /\ length (removers u) = 2
  | None => True
  end ->
  chain_urllib3 u w = (Returns rs, w1) ->
  resource_label <$> rs `sublist_of` urllib3_order.
Proof.
  intros Hu H. destruct u as [u|]; simpl in H; [|finish H; solve_sublist].
  destruct Hu as [Hlabels Hremovers].
  step H. finish H. apply build_patchers_labels in Ha.
  rewrite fmap_app. change urllib3_order with (take 10 urllib3_order ++ [None; None]).
  apply sublist_app; [by rewrite <- Hlabels|].
  by destruct (removers u) as [|r1 [|r2 [|r3 rest]]].
Qed.

End AdapterOrder.

(** The builder's session is never rebound. *)

Create HintDb session discriminated.

Lemma keeps_ret {A} (a : A) : keeps_session (ret a).
Proof. by intros w. Qed.

Lemma keeps_raise {A} e : keeps_session (raise (A:=A) e).
Proof. by intros w. Qed.

Lemma keeps_gets {A} (f : world -> A) : keeps_session (gets f).
Proof. by intros w. Qed.

Lemma keeps_lift {A} (m : M (list pyobj) A) : keeps_session (lift m).
Proof. intros w. unfold lift. by destruct (m (w_heap w)). Qed.

Lemma keeps_bind {A B} (m : M world A) (k : A -> M world B) :
  keeps_session m -> (forall a, keeps_session (k a)) -> keeps_session (bind m k).
Proof.
  intros Hm Hk w. unfold bind. specialize (Hm w).
  destruct (m w) as [[a|e] w1]; simpl in *; [|done]. by rewrite Hk.
Qed.

Lemma keeps_get_cassette_subclass k : keeps_session (_get_cassette_subclass k).
Proof. intros w. by destruct (get_cassette_subclass_cases k w). Qed.

Lemma keeps_get_cassette_subclass_of v : keeps_session (get_cassette_subclass_of v).
Proof. destruct v; try apply keeps_raise. apply keeps_get_cassette_subclass. Qed.

Lemma keeps_try_import sys_modules name : keeps_session (try_import sys_modules name).
Proof. apply keeps_ret. Qed.

Lemma keeps_import_module sys_modules name :
  keeps_session (import_module sys_modules name).
Proof. unfold import_module. destruct (_ !! _); [apply keeps_ret|apply keeps_raise]. Qed.

#[local] Hint Resolve keeps_ret keeps_raise keeps_gets keeps_lift
  keeps_get_cassette_subclass_of keeps_try_import keeps_import_module : session.

Ltac keep_session :=
  repeat first
    [ solve [auto with session]
    | apply keeps_bind; [|intros ?]
    | match goal with
      | |- keeps_session (match ?x with Some _ => _ | None => _ end) => destruct x
      | |- keeps_session (match ?x with (_, _) => _ end) => destruct x
      end ].

Lemma keeps_Mock : keeps_session Mock.
Proof. apply keeps_lift. Qed.

Lemma keeps_patched_get_conn c : keeps_session (_patched_get_conn c).
Proof. unfold _patched_get_conn. keep_session. Qed.

Lemma keeps_patched_new_conn c : keeps_session (_patched_new_conn c).
Proof. unfold _patched_new_conn. keep_session. Qed.

#[local] Hint Resolve keeps_Mock keeps_patched_get_conn keeps_patched_new_conn
  : session.

Lemma keeps_urllib3_patchers cpool conn stubs :
  keeps_session (_urllib3_patchers cpool conn stubs).
Proof. unfold _urllib3_patchers. keep_session. Qed.

#[local] Hint Resolve keeps_urllib3_patchers : session.

Lemma keeps_requests sys_modules g : keeps_session (_requests sys_modules g).
Proof. unfold _requests. keep_session. Qed.

Lemma keeps_urllib3 sys_modules : keeps_session (_urllib3 sys_modules).
Proof. unfold _urllib3. keep_session. Qed.

Example load_process :
  load sys_modules_process heap_process = (Returns globals_process, heap_process)
  /\ _connHTTPConnection globals_process = Some (VRef 6)
  /\ _HttpxSyncClient_send globals_process = Some (VRef 19).
Proof. by vm_compute. Qed.

Example build_process :
  resource_label <$> resources_process
  = [ Some "HTTPConnection"; Some "HTTPSConnection";
      Some "VerifiedHTTPSConnection"; Some "HTTPConnection"; Some "HTTPSConnection";
      Some "is_connection_dropped"; Some "ConnectionCls"; Some "ConnectionCls";
      Some "_get_conn"; Some "_get_conn"; Some "_new_conn"; Some "_new_conn";
      None; None; Some "send"; Some "send"; Some "HTTPConnection" ].
Proof. by vm_compute. Qed.

(** ** GlobalRestoreOperation *)

Lemma attr_returns x a h v h' :
  attr x a h = (Returns v, h') -> h' = h /\ getattr h x a = Some v.
Proof. unfold attr. destruct (getattr h x a); by intros [= <- <-]. Qed.

Lemma attr_path_returns path : forall x h v h',
  attr_path x path h = (Returns v, h') ->
  h' = h /\ (path <> [] -> read_from h v).
Proof.
  induction path as [|a path IH]; intros x h v h' H; simpl in H.
  { apply ret_returns in H as [-> ->]. by split. }
  step H. apply attr_returns in Ha as [-> Ha].
  destruct path as [|b path].
  - simpl in H. apply ret_returns in H as [-> ->]. split; [done|].
    intros _. by exists x, a.
  - apply IH in H as [-> Hread]. split; [done|]. intros _. by apply Hread.
Qed.

Lemma bound_returns {S} name (s : S) v s' :
  bound name s = (Returns v, s') -> s' = s /\ name = Some v.
Proof. destruct name; by intros [= <- <-]. Qed.

Lemma import_from_returns sys_modules module name h v h' :
  import_from sys_modules module name h = (Returns v, h') ->
  h' = h /\ read_from h v.
Proof.
  unfold import_from. destruct (sys_modules !! module) as [m|]; [|done].
  destruct (getattr h (VRef m) name) eqn:Hget; intros [= <- <-].
  split; [done|]. by exists (VRef m), name.
Qed.

Lemma capture_returns sys_modules module path h o h' :
  path <> [] ->
  capture sys_modules module path h = (Returns o, h') ->
  h' = h /\ forall v, o = Some v -> read_from h v.
Proof.
  intros Hpath. unfold capture. destruct (sys_modules !! module) as [m|].
  - intros H. step H. apply ret_returns in H as [-> ->].
    apply attr_path_returns in Ha as [-> Hread]. split; [done|].
    intros v [= ->]. by apply Hread.
  - intros H. apply ret_returns in H as [-> ->]. by split.
Qed.

(** Reading leaves the heap alone: fold the states of a run back into one. *)
Ltac readonly :=
  repeat match goal with
    | H : attr _ _ _ = (Returns _, _) |- _ =>
        let E := fresh in apply attr_returns in H as [E H]; subst
    | H : bound _ _ = (Returns _, _) |- _ =>
        let E := fresh in apply bound_returns in H as [E H]; subst
    | H : try_import _ _ _ = (Returns _, _) |- _ =>
        let E1 := fresh in let E2 := fresh in
        apply ret_returns in H as [E1 E2]; subst
    | H : gets _ _ = (Returns _, _) |- _ =>
        let E1 := fresh in let E2 := fresh in
        apply ret_returns in H as [E1 E2]; subst
    | H : import_module _ _ _ = (Returns _, _) |- _ =>
        unfold import_module in H
    end.

Section ResetPatchers.
Context (sys_modules : gmap string nat) (g : globals).

Lemma reset_httplib_spec h ps h' :
  reset_httplib g h = (Returns ps, h') -> h' = h /\ Forall (resets_original g) ps.
Proof.
  intros H. unfold reset_httplib in H. run H. split; [done|].
  repeat constructor; unfold reset_names, saved_originals; simpl; set_solver.
Qed.

End ResetPatchers.

(** Take every returned run in the context apart. *)
Ltac run_all :=
  repeat match goal with
    | H : bind _ _ _ = (Returns _, _) |- _ => step H
    | H : ret _ _ = (Returns _, _) |- _ => finish H
    | H : raise _ _ = (Returns _, _) |- _ => discriminate H
    | H : (match ?x with Some _ => _ | None => _ end) _ = (Returns _, _) |- _ =>
        destruct x
    | H : (if ?b then _ else _) _ = (Returns _, _) |- _ => destruct b
    end.

(** Membership in a list given by its elements. *)
Ltac solve_elem_of :=
  solve [repeat first [apply list_elem_of_here | apply list_elem_of_further]].

Ltac solve_resets g :=
  repeat first
    [ apply Forall_nil_2
    | apply Forall_cons; split
    | apply Forall_app; split
    | split; [unfold reset_names; simpl; solve_elem_of|unfold saved_originals; simpl]
    | solve_elem_of
    | match goal with
      | H : ?f g = Some ?v |- Some ?v ∈ _ => rewrite <- H; solve_elem_of
      end ].

Section ResetSegments.
Context (sys_modules : gmap string nat) (g : globals).

Lemma reset_urllib3_spec h ps h' :
  reset_urllib3 sys_modules g h = (Returns ps, h') ->
  h' = h /\ Forall (resets_original g) ps.
Proof.
  intros H. unfold reset_urllib3 in H. run_all; readonly; run_all; readonly;
    (split; [done|]); solve_resets g.
Qed.

Lemma reset_boto3_spec h ps h' :
  reset_boto3 sys_modules g h = (Returns ps, h') ->
  h' = h /\ Forall (resets_original g) ps.
Proof.
  intros H. unfold reset_boto3 in H. run_all; readonly; run_all; readonly;
    (split; [done|]); solve_resets g.
Qed.

Lemma reset_httplib2_spec h ps h' :
  reset_httplib2 sys_modules g h = (Returns ps, h') ->
  h' = h /\ Forall (resets_original g) ps.
Proof.
  intros H. unfold reset_httplib2 in H. run_all; readonly; run_all; readonly;
    (split; [done|]); solve_resets g.
Qed.

Lemma reset_boto_spec h ps h' :
  reset_boto sys_modules g h = (Returns ps, h') ->
  h' = h /\ Forall (resets_original g) ps.
Proof.
  intros H. unfold reset_boto in H. run_all; readonly; run_all; readonly;
    (split; [done|]); solve_resets g.
Qed.

Lemma reset_tornado_spec h ps h' :
  reset_tornado sys_modules g h = (Returns ps, h') ->
  h' = h /\ Forall (resets_original g) ps.
Proof.
  intros H. unfold reset_tornado in H. run_all; readonly; run_all; readonly;
    (split; [done|]); solve_resets g.
Qed.

Lemma reset_patchers_spec h ps h' :
  reset_patchers sys_modules g h = (Returns ps, h') ->
  h' = h /\ Forall (resets_original g) ps.
Proof.
  intros H. unfold reset_patchers in H. run_all.
  apply reset_httplib_spec in Ha as [-> ?].
  apply reset_urllib3_spec in Ha0 as [-> ?].
  apply reset_boto3_spec in Ha1 as [-> ?].
  apply reset_httplib2_spec in Ha2 as [-> ?].
  apply reset_boto_spec in Ha3 as [-> ?].
  apply reset_tornado_spec in Ha4 as [-> ?].
  split; [done|]. by rewrite !Forall_app.
Qed.

End ResetSegments.

Section Load.
Context (sys_modules : gmap string nat).

Lemma import_module_returns {S} name (s : S) v s' :
  import_module sys_modules name s = (Returns v, s') -> s' = s.
Proof. unfold import_module. destruct (_ !! _); by intros [= <- <-]. Qed.

Lemma load_boto3_returns h o h' :
  load_boto3 sys_modules h = (Returns o, h') ->
  h' = h /\ forall a b, o = Some (a, b) -> read_from h a /\ read_from h b.
Proof.
  unfold load_boto3.
  destruct (import_from sys_modules "botocore.awsrequest" "AWSHTTPConnection" h)
    as [[http|e] h1] eqn:H1.
  - destruct (import_from sys_modules "botocore.awsrequest" "AWSHTTPSConnection" h)
      as [[https|e] h2] eqn:H2.
    + intros [= <- <-]. split; [done|]. intros a b [= <- <-].
      apply import_from_returns in H1 as [_ ?].
      apply import_from_returns in H2 as [_ ?]. done.
    + destruct (sys_modules !! _); intros [= <- <-]. by split.
  - destruct (sys_modules !! _); intros [= <- <-]. by split.
Qed.

Lemma load_requests_returns h u h' :
  load_requests sys_modules h = (Returns u, h') -> h' = h.
Proof.
  intros H. unfold load_requests in H. run_all; readonly; try done.
  destruct a; try discriminate. destruct (_ <? _)%N; [done|]. by finish H.
Qed.

Lemma optional_attr_returns (o : option value) a h r h' :
  match o with
  | Some x => let* v := attr x a in ret (Some v)
  | None => ret None
  end h = (Returns r, h') ->
  h' = h /\ forall v, r = Some v -> read_from h v.
Proof.
  intros H. destruct o as [x|]; run_all; readonly.
  - split; [done|]. intros v [= <-]. by exists x, a.
  - by split.
Qed.

(** One statement of the module-level code, and what it read. *)
Ltac load_step :=
  match goal with
  | H : bind _ _ _ = (Returns _, _) |- _ => step H
  | H : ret _ _ = (Returns _, _) |- _ => finish H
  | H : import_module _ _ _ = (Returns _, _) |- _ =>
      apply import_module_returns in H as ->
  | H : import_from _ _ _ _ = (Returns _, _) |- _ =>
      apply import_from_returns in H as [-> H]
  | H : attr _ _ _ = (Returns _, _) |- _ => apply attr_returns in H as [-> H]
  | H : load_boto3 _ _ = (Returns _, _) |- _ =>
      apply load_boto3_returns in H as [-> H]
  | H : load_requests _ _ = (Returns _, _) |- _ =>
      apply load_requests_returns in H as ->
  | H : capture _ _ _ _ = (Returns _, _) |- _ =>
      apply capture_returns in H as [-> H]; [|done]
  | H : try_import _ _ _ = (Returns _, _) |- _ =>
      let E1 := fresh in let E2 := fresh in
      apply ret_returns in H as [E1 E2]; subst
  | H : match ?o with Some _ => try_import _ _ | None => ret None end _
        = (Returns _, _) |- _ => destruct o
  | H : match _ with Some _ => bind (attr _ _) _ | None => ret None end _
        = (Returns _, _) |- _ => apply optional_attr_returns in H as [-> H]
  end.

Lemma load_saved h0 g h1 :
  load sys_modules h0 = (Returns g, h1) ->
  h1 = h0
  /\ Forall (fun o => forall v, o = Some v -> read_from h0 v) (saved_originals g).
Proof.
  intros H. unfold load in H. repeat load_step; (split; [done|]).
  all: unfold saved_originals; simpl.
  all: repeat match goal with
         | H : forall a b, ?o = Some (a, b) -> _ |- _ =>
             destruct o as [[? ?]|];
             [destruct (H _ _ eq_refl); clear H|clear H]
         end.
  all: repeat (apply Forall_cons; split); try apply Forall_nil_2.
  all: intros ? Hv; try done; try (injection Hv as <-); eauto.
  all: by eexists _, _.
Qed.

End Load.

Example session_then_force_reset :
  let seen := result_or [] (force_reset sys_modules_process globals_process
                              (gets (fun h => h)) heap_in_session).1 in
  seam_value heap_process (VRef 8, "HTTPConnection") = Some (VRef 6)
  /\ seam_value heap_in_session (VRef 8, "HTTPConnection") = Some (VRef 27)
  /\ seam_value seen (VRef 8, "HTTPConnection") = Some (VRef 6)
  /\ seam_value heap_process (VRef 12, "_get_conn") = Some (VRef 9)
  /\ seam_value heap_in_session (VRef 12, "_get_conn") = Some (VRef 30)
  /\ seam_value seen (VRef 12, "_get_conn") = Some (VRef 30).
Proof. by vm_compute. Qed.

Lemma own_attr_setattr_ne h o a v o' a' :
  (o', a') <> (o, a) -> own_attr (setattr h o a v) o' a' = own_attr h o' a'.
Proof.
  intros Hne. unfold own_attr, setattr.
  destruct (decide (o' = o)) as [->|Ho]; [|by rewrite list_lookup_alter_ne].
  rewrite list_lookup_alter_eq. destruct (h !! o) as [ob|]; [|done]. simpl.
  apply lookup_insert_ne. congruence.
Qed.

Lemma own_attr_setattr_is_Some h o a v o' a' :
  is_Some (own_attr h o' a') -> is_Some (own_attr (setattr h o a v) o' a').
Proof.
  intros Hsome. destruct (decide ((o', a') = (o, a))) as [[= -> ->]|Hne].
  - rewrite own_attr_setattr; [done|].
    unfold own_attr in Hsome. destruct (h !! o) eqn:Ho; [|by destruct Hsome].
    by eapply lookup_lt_Some.
  - by rewrite own_attr_setattr_ne.
Qed.

Lemma resolve_attr_setattr_is_Some h o a v chain b :
  is_Some (resolve_attr h chain b) ->
  is_Some (resolve_attr (setattr h o a v) chain b).
Proof.
  induction chain as [|c chain IH]; simpl; [done|].
  destruct (own_attr h c b) eqn:Hown.
  - intros _. destruct (own_attr_setattr_is_Some h o a v c b) as [v' ->]; done.
  - intros Hrest. destruct (own_attr (setattr h o a v) c b); [done|]. by apply IH.
Qed.

Lemma lookup_setattr_shape h o a v o' ob :
  h !! o' = Some ob ->
  exists ob', setattr h o a v !! o' = Some ob'
              /\ py_kind ob' = py_kind ob /\ py_mro ob' = py_mro ob.
Proof.
  intros Hob. unfold setattr. destruct (decide (o' = o)) as [->|Hne].
  - rewrite list_lookup_alter_eq, Hob. by eexists.
  - rewrite list_lookup_alter_ne by done. by eexists.
Qed.

Lemma hasattr_setattr h o a v x b :
  hasattr h x b = true -> hasattr (setattr h o a v) x b = true.
Proof.
  unfold hasattr. rewrite !bool_decide_eq_true.
  destruct x as [| | |o'| |]; try (by intros []).
  unfold getattr. destruct (h !! o') as [ob|] eqn:Hob; [|by intros []].
  destruct (lookup_setattr_shape h o a v o' ob Hob) as (ob' & -> & -> & ->).
  intros Hsome.
  destruct (py_kind ob);
    try (by apply (resolve_attr_setattr_is_Some h o a v (o' :: py_mro ob) b)).
  by destruct (resolve_attr (setattr h o a v) (o' :: py_mro ob) b).
Qed.

Lemma getattr_own h o a v :
  own_attr h o a = Some v -> getattr h (VRef o) a = Some v.
Proof.
  intros Hown. unfold getattr. unfold own_attr in Hown.
  destruct (h !! o) as [ob|] eqn:Hob; [|done]. simpl.
  unfold own_attr. rewrite Hob, Hown. by destruct (py_kind ob).
Qed.

Lemma patch_enter_spec p h :
  hasattr h (p_target p) (p_attribute p) = true ->
  exists o e,
    p_target p = VRef o /\ o < length h
    /\ patch_enter p h = (Returns e, setattr h o (p_attribute p) (p_new p)).
Proof.
  unfold hasattr. rewrite bool_decide_eq_true. intros [v Hv].
  destruct (p_target p) as [| | |o| |] eqn:Ht; try done.
  pose proof (getattr_Some_allocated _ _ _ _ Hv) as Ho.
  unfold patch_enter, get_original. rewrite Ht.
  destruct (own_attr h o (p_attribute p)); [by eexists _, _|].
  rewrite Hv. by eexists _, _.
Qed.

(** Entering a list of handles whose seams are all present: every handle
    goes in, nothing but their seams is written, and a seam named once
    shows the new value of its handle. *)
Lemma enter_contexts_spec ps : forall stack h,
  Forall (fun p => hasattr h (p_target p) (p_attribute p) = true) ps ->
  exists stack' h',
    enter_contexts ps stack h = (Returns tt, stack', h')
    /\ (forall o a, (VRef o, a) ∉ patcher_seam <$> ps ->
                    own_attr h' o a = own_attr h o a)
    /\ (NoDup (patcher_seam <$> ps) ->
        forall p, p ∈ ps -> seam_value h' (patcher_seam p) = Some (p_new p)).
Proof.
  induction ps as [|p ps IH]; intros stack h Hpresent.
  { exists stack, h. split; [done|]. split; [done|]. intros _ p Hp. by inversion Hp. }
  apply Forall_cons in Hpresent as [Hp Hps].
  destruct (patch_enter_spec p h Hp) as (o & e & Ht & Ho & Henter).
  set (h1 := setattr h o (p_attribute p) (p_new p)) in *.
  destruct (IH (e :: stack) h1) as (stack' & h' & Hrun & Hframe & Hvalues).
  { eapply Forall_impl; [exact Hps|]. intros q. apply hasattr_setattr. }
  exists stack', h'. split; [simpl; by rewrite Henter|]. split.
  - intros o' a' Hnotin. rewrite fmap_cons, not_elem_of_cons in Hnotin.
    destruct Hnotin as [Hne Hnotin]. rewrite Hframe by done.
    apply own_attr_setattr_ne. unfold patcher_seam in Hne. rewrite Ht in Hne.
    congruence.
  - rewrite fmap_cons, NoDup_cons. intros [Hfresh Hnd] q Hq.
    apply elem_of_cons in Hq as [->|Hq]; [|by apply Hvalues].
    unfold seam_value, patcher_seam in *. simpl. rewrite Ht in *.
    apply getattr_own. rewrite Hframe by done. by apply own_attr_setattr.
Qed.

Lemma pool_primitives_not_reset a :
  a ∈ pool_primitive_names -> a ∉ reset_names.
Proof.
  assert (H : Forall (fun a => a ∉ reset_names) pool_primitive_names).
  { repeat constructor; intros Hin; repeat (apply elem_of_cons in Hin as [?|Hin]; [done|]);
      inversion Hin. }
  rewrite Forall_forall in H. apply H.
Qed.

Lemma force_reset_leaves_get_conn :
  ~ restores_every_adapter_seam sys_modules_process globals_process heap_process
      resources_process heap_in_session.
Proof.
  intros Hclaim.
  assert (Hrun : force_reset sys_modules_process globals_process (gets (fun h => h))
                   heap_in_session = (Returns heap_force_reset, heap_in_session))
    by (vm_compute; reflexivity).
  assert (Hp : resources_process !! 8 = Some (RPatch handle_get_conn))
    by (vm_compute; reflexivity).
  specialize (Hclaim _ _ _ _ Hrun Hp).
  vm_compute in Hclaim. discriminate Hclaim.
Qed.

Lemma Forall_present_forallb h ps :
  forallb (fun p => hasattr h (p_target p) (p_attribute p)) ps = true ->
  Forall (fun p => hasattr h (p_target p) (p_attribute p) = true) ps.
Proof.
  induction ps as [|p ps IH]; simpl; [constructor|].
  rewrite andb_true_iff. intros [Hp Hps]. constructor; auto.
Qed.

Lemma NoDup_seams_by_key (ss : list seam) :
  bool_decide (NoDup (seam_key <$> ss)) = true -> NoDup ss.
Proof. intros H. apply bool_decide_eq_true in H. by apply NoDup_fmap_1 in H. Qed.

(** ** More on the substitute-type cache *)

Lemma cache_ok_after_miss klass ob w :
  builder_ok w ->
  w_heap w !! klass = Some ob ->
  cache_ok (after_miss klass ob w).
Proof.
  intros [Hcl Hcache] Hob. unfold cache_ok, after_miss. simpl.
  apply map_Forall_insert_2.
  - by apply new_subclass_substitute.
  - intros k s Hks. apply substitute_of_app; [done|]. by apply Hcache.
Qed.

Lemma builder_ok_step k w :
  builder_ok w -> builder_ok (_get_cassette_subclass k w).2.
Proof.
  intros Hok. pose proof Hok as [Hcl Hcache].
  destruct (get_cassette_subclass_cases k w) as [| | |ob Hv Hmiss Hob Hk|];
    try done.
  split; [by apply heap_closed_after_miss|by apply cache_ok_after_miss].
Qed.

Lemma builder_ok_requests ks w :
  builder_ok w -> builder_ok (requests ks w).
Proof.
  revert w. induction ks as [|k ks IH]; intros w Hw; simpl; [done|].
  apply IH. by apply builder_ok_step.
Qed.

Lemma requests_session ks w :
  _cassette (w_builder (requests ks w)) = _cassette (w_builder w).
Proof.
  revert w. induction ks as [|k ks IH]; intros w; simpl; [done|].
  rewrite IH. by destruct (get_cassette_subclass_cases k w).
Qed.

(** X1: the builder's invariant.  A new builder over a closed heap has it,
    and no series of requests, whatever they return or raise, breaks it:
    the cache only ever maps a class to a class derived from it whose
    [cassette] is the builder's session. *)
Theorem builder_invariant c h ks :
  heap_closed h ->
  builder_ok (new_builder c h)
  /\ builder_ok (requests ks (new_builder c h))
  /\ forall klass sub,
       _class_to_cassette_subclass (w_builder (requests ks (new_builder c h))) !! klass
         = Some sub ->
       issubclass (w_heap (requests ks (new_builder c h))) sub klass = true
       /\ getattr (w_heap (requests ks (new_builder c h))) (VRef sub) "cassette"
          = Some (VCassette (cassette_id c)).
Proof.
  intros Hcl.
  assert (H0 : builder_ok (new_builder c h)).
  { split; [done|]. apply map_Forall_empty. }
  split; [done|]. split; [by apply builder_ok_requests|].
  intros klass sub Hhit.
  destruct (builder_ok_requests ks _ H0) as [_ Hcache].
  specialize (Hcache klass sub Hhit).
  simpl in Hcache. rewrite requests_session in Hcache. by destruct Hcache.
Qed.

Lemma builder_invariant_witness :
  builder_ok (new_builder cassette_custom heap_httplib)
  /\ builder_ok (requests [0; 1; 0] (new_builder cassette_custom heap_httplib))
  /\ forall klass sub,
       _class_to_cassette_subclass
         (w_builder (requests [0; 1; 0] (new_builder cassette_custom heap_httplib)))
         !! klass = Some sub ->
       issubclass (w_heap (requests [0; 1; 0] (new_builder cassette_custom heap_httplib)))
                  sub klass = true
       /\ getattr (w_heap (requests [0; 1; 0] (new_builder cassette_custom heap_httplib)))
                  (VRef sub) "cassette"
          = Some (VCassette (cassette_id cassette_custom)).
Proof.
  apply (builder_invariant cassette_custom heap_httplib [0; 1; 0]).
  exact heap_httplib_closed.
Defined.

(** X2: a request that raises leaves the builder and the heap exactly as
    they were, and raises AttributeError (no [cassette] attribute) or
    TypeError (not a class) only; a request that returns adds at most one
    object to the heap and changes none that was there. *)
Theorem get_cassette_subclass_effects klass w :
  (forall e, (_get_cassette_subclass klass w).1 = Raises e ->
     (_get_cassette_subclass klass w).2 = w
     /\ (e = AttributeError \/ e = TypeError))
  /\ exists ext,
       w_heap (_get_cassette_subclass klass w).2 = w_heap w ++ ext
       /\ length ext <= 1
       /\ (ext <> [] ->
           (_get_cassette_subclass klass w).1 = Returns (length (w_heap w))
           /\ _class_to_cassette_subclass (w_builder w) !! klass = None).
Proof.
  assert (Hsame : exists ext : list pyobj,
             w_heap w = w_heap w ++ ext /\ length ext <= 1
             /\ (ext <> [] ->
                 (_get_cassette_subclass klass w).1 = Returns (length (w_heap w))
                 /\ _class_to_cassette_subclass (w_builder w) !! klass = None)).
  { exists []. rewrite app_nil_r. repeat split; simpl; [lia|done|done]. }
  destruct (get_cassette_subclass_cases klass w)
    as [Hn|v Hv Hne|sub Hv Hhit|ob Hv Hmiss Hob Hk|Hv Hmiss Hnc]; simpl.
  - split; [intros e [= <-]; auto|done].
  - split; [done|done].
  - split; [done|done].
  - split; [done|]. eexists [_]. simpl. by repeat split.
  - split; [intros e [= <-]; auto|done].
Qed.

Lemma getattr_class h o ob a :
  h !! o = Some ob -> py_kind ob = KClass ->
  getattr h (VRef o) a = resolve_attr h (o :: py_mro ob) a.
Proof. intros Ho Hk. unfold getattr. by rewrite Ho, Hk. Qed.

(** X3: what a fresh substitute is.  On a cache miss the class that is
    built is named after its base and the session's path, derives from the
    base and from everything the base derives from, is not itself an
    ancestor of the base, and has the builder's session as its [cassette]
    attribute. *)
Theorem fresh_substitute_structure klass w sub w' :
  heap_closed (w_heap w) ->
  getattr (w_heap w) (VRef klass) "cassette" = Some VNone ->
  _class_to_cassette_subclass (w_builder w) !! klass = None ->
  _get_cassette_subclass klass w = (Returns sub, w') ->
  exists base made,
    w_heap w !! klass = Some base
    /\ w_heap w' !! sub = Some made
    /\ py_name made = py_name base +:+ _path (_cassette (w_builder w))
    /\ is_class (w_heap w') sub = true
    /\ (forall k, issubclass (w_heap w) klass k = true ->
                  issubclass (w_heap w') sub k = true)
    /\ issubclass (w_heap w') klass sub = false
    /\ getattr (w_heap w') (VRef sub) "cassette"
       = Some (VCassette (cassette_id (_cassette (w_builder w)))).
Proof.
  intros Hcl Hattr Hmiss Hget.
  pose proof (get_cassette_subclass_cases klass w) as Hcase.
  rewrite Hget in Hcase. simpl in Hcase.
  inversion Hcase as [|v Hv Hne|s Hv Hhit|ob Hv Hm Hob Hk|]; subst.
  - rewrite Hattr in Hv. by injection Hv as <-.
  - by rewrite Hmiss in Hhit.
  - set (made := new_subclass w klass ob).
    assert (Hsub : (w_heap w ++ [made]) !! length (w_heap w) = Some made).
    { by rewrite lookup_app_r, Nat.sub_diag by lia. }
    assert (Hbase : (w_heap w ++ [made]) !! klass = Some ob).
    { by apply lookup_app_l_Some. }
    pose proof (heap_closed_lookup _ _ _ Hcl Hob) as Hmro.
    pose proof (lookup_lt_Some _ _ _ Hob) as Hlt.
    exists ob, made.
    change (w_heap (after_miss klass ob w)) with (w_heap w ++ [made]).
    split; [done|]. split; [done|]. split; [done|].
    split; [unfold is_class; by rewrite Hsub|]. split; [|split].
    + intros k. unfold issubclass. rewrite Hob, Hsub. simpl.
      rewrite !bool_decide_eq_true. set_solver.
    + unfold issubclass. rewrite Hbase. apply bool_decide_eq_false.
      rewrite elem_of_cons. intros [Heq|Hin]; [lia|].
      rewrite Forall_forall in Hmro. apply Hmro in Hin. lia.
    + rewrite (getattr_class _ _ _ _ Hsub eq_refl).
      change (py_mro made) with (klass :: py_mro ob).
      change (resolve_attr ?h (?o :: ?c) ?a)
        with (match own_attr h o a with
              | Some v => Some v | None => resolve_attr h c a end).
      unfold own_attr. rewrite Hsub. simpl. by rewrite lookup_singleton.
Qed.

Lemma fresh_substitute_structure_witness :
  exists base made,
    w_heap world_custom !! 0 = Some base
    /\ w_heap (_get_cassette_subclass 0 world_custom).2 !! 5 = Some made
    /\ py_name made = py_name base +:+ _path (_cassette (w_builder world_custom))
    /\ is_class (w_heap (_get_cassette_subclass 0 world_custom).2) 5 = true
    /\ (forall k, issubclass (w_heap world_custom) 0 k = true ->
          issubclass (w_heap (_get_cassette_subclass 0 world_custom).2) 5 k = true)
    /\ issubclass (w_heap (_get_cassette_subclass 0 world_custom).2) 0 5 = false
    /\ getattr (w_heap (_get_cassette_subclass 0 world_custom).2) (VRef 5) "cassette"
       = Some (VCassette (cassette_id (_cassette (w_builder world_custom)))).
Proof.
  apply (fresh_substitute_structure 0 world_custom 5
           (_get_cassette_subclass 0 world_custom).2);
    [exact heap_httplib_closed|reflexivity..].
Defined.

Lemma get_cassette_subclass_miss klass ob w :
  getattr (w_heap w) (VRef klass) "cassette" = Some VNone ->
  _class_to_cassette_subclass (w_builder w) !! klass = None ->
  w_heap w !! klass = Some ob -> py_kind ob = KClass ->
  _get_cassette_subclass klass w
  = (Returns (length (w_heap w)), after_miss klass ob w).
Proof.
  intros Hattr Hmiss Hob Hk.
  pose proof (get_cassette_subclass_cases klass w) as Hcase.
  destruct (_get_cassette_subclass klass w) as [out w'] eqn:Hget. simpl in Hcase.
  inversion Hcase as [Hn|v Hv Hne|s Hv Hhit|ob' Hv Hm Hob' Hk'|Hv Hm Hnc]; subst.
  - by rewrite Hattr in Hn.
  - rewrite Hattr in Hv. by injection Hv as <-.
  - by rewrite Hmiss in Hhit.
  - rewrite Hob in Hob'. by injection Hob' as <-.
  - unfold is_class in Hnc. by rewrite Hob, Hk in Hnc.
Qed.

(** X4: builders do not share substitutes.  Two builders asked for the same
    stub class, one after the other in the same process, answer with two
    different classes, each bound to its own builder's session, also when
    both builders serve the same session; the second request leaves the
    first substitute bound as it was. *)
Theorem builders_do_not_share_substitutes cA cB h klass ob :
  heap_closed h ->
  h !! klass = Some ob -> py_kind ob = KClass ->
  getattr h (VRef klass) "cassette" = Some VNone ->
  exists a b wA wB,
    _get_cassette_subclass klass (new_builder cA h) = (Returns a, wA)
    /\ _get_cassette_subclass klass (new_builder cB (w_heap wA)) = (Returns b, wB)
    /\ a <> b
    /\ getattr (w_heap wB) (VRef a) "cassette" = Some (VCassette (cassette_id cA))
    /\ getattr (w_heap wB) (VRef b) "cassette" = Some (VCassette (cassette_id cB))
    /\ issubclass (w_heap wB) a klass = true
    /\ issubclass (w_heap wB) b klass = true
    /\ issubclass (w_heap wB) a b = false
    /\ issubclass (w_heap wB) b a = false.
Proof.
  intros Hcl Hob Hk Hattr.
  set (wA0 := new_builder cA h).
  assert (HA : _get_cassette_subclass klass wA0
               = (Returns (length h), after_miss klass ob wA0)).
  { by apply get_cassette_subclass_miss. }
  set (wA := after_miss klass ob wA0) in *.
  assert (HclA : heap_closed (w_heap wA)) by by apply heap_closed_after_miss.
  set (wB0 := new_builder cB (w_heap wA)).
  assert (HobA : w_heap wB0 !! klass = Some ob) by by apply lookup_app_l_Some.
  assert (HB : _get_cassette_subclass klass wB0
               = (Returns (length (w_heap wB0)), after_miss klass ob wB0)).
  { apply get_cassette_subclass_miss; [|done..]. by apply getattr_app. }
  destruct (new_subclass_substitute klass ob wA0 Hob) as [HbA HsA].
  destruct (new_subclass_substitute klass ob wB0 HobA) as [HbB HsB].
  exists (length h), (length (w_heap wA)), wA, (after_miss klass ob wB0).
  assert (Hlen : length (w_heap wA) = S (length h)).
  { unfold wA, after_miss. simpl. rewrite length_app. simpl. lia. }
  assert (HmadeA : w_heap wA !! length h = Some (new_subclass wA0 klass ob)).
  { unfold wA, after_miss. simpl. by rewrite lookup_app_r, Nat.sub_diag by lia. }
  pose proof (heap_closed_lookup _ _ _ Hcl Hob) as Hmro.
  pose proof (lookup_lt_Some _ _ _ Hob) as Hlt.
  rewrite Forall_forall in Hmro.
  split; [done|]. split; [done|]. split; [lia|].
  change (w_heap (after_miss klass ob wB0))
    with (w_heap wA ++ [new_subclass wB0 klass ob]).
  split; [by apply getattr_app|]. split; [done|].
  split; [by apply issubclass_app|]. split; [done|]. split.
  - unfold issubclass. rewrite (lookup_app_l_Some _ _ _ _ HmadeA). simpl.
    apply bool_decide_eq_false. rewrite !elem_of_cons.
    intros [H1|[H1|Hin]];
      [try (rewrite length_app in H1; simpl in H1); lia..|].
    apply Hmro in Hin. try (rewrite length_app in Hin; simpl in Hin). lia.
  - unfold issubclass. rewrite lookup_app_r, Nat.sub_diag by lia. simpl.
    apply bool_decide_eq_false. rewrite !elem_of_cons.
    intros [H1|[H1|Hin]];
      [try (rewrite length_app in H1; simpl in H1); lia..|].
    apply Hmro in Hin. try (rewrite length_app in Hin; simpl in Hin). lia.
Qed.

Lemma builders_do_not_share_substitutes_witness :
  exists a b wA wB,
    _get_cassette_subclass 0 (new_builder cassette_custom heap_httplib)
      = (Returns a, wA)
    /\ _get_cassette_subclass 0 (new_builder cassette_custom (w_heap wA))
       = (Returns b, wB)
    /\ a <> b
    /\ getattr (w_heap wB) (VRef a) "cassette"
       = Some (VCassette (cassette_id cassette_custom))
    /\ getattr (w_heap wB) (VRef b) "cassette"
       = Some (VCassette (cassette_id cassette_custom))
    /\ issubclass (w_heap wB) a 0 = true
    /\ issubclass (w_heap wB) b 0 = true
    /\ issubclass (w_heap wB) a b = false
    /\ issubclass (w_heap wB) b a = false.
Proof.
  eapply (builders_do_not_share_substitutes cassette_custom cassette_custom
            heap_httplib 0);
    [exact heap_httplib_closed|reflexivity..].
Defined.

(** ** Resolving a replacement again *)

Lemma grows_refl w : heap_closed (w_heap w) -> grows w w.
Proof. intros. split; [by apply extends_refl|done]. Qed.

Lemma grows_trans w1 w2 w3 : grows w1 w2 -> grows w2 w3 -> grows w1 w3.
Proof.
  intros [He1 Hc1] [He2 Hc2]. split; [by eapply extends_trans|].
  by etrans.
Qed.

Lemma grows_step k w :
  heap_closed (w_heap w) -> grows w (_get_cassette_subclass k w).2.
Proof.
  intros Hcl. split; [by apply get_cassette_subclass_extends|].
  destruct (get_cassette_subclass_cases k w) as [| | |ob Hv Hmiss Hob Hk|];
    try done.
  simpl. by apply insert_subseteq.
Qed.

Lemma grows_requests ks w :
  heap_closed (w_heap w) -> grows w (requests ks w).
Proof.
  revert w. induction ks as [|k ks IH]; intros w Hcl; simpl.
  { by apply grows_refl. }
  pose proof (grows_step k w Hcl) as Hstep.
  eapply grows_trans; [exact Hstep|]. apply IH. by destruct Hstep as [(_ & ? & _) _].
Qed.

Lemma settled_get klass sub w :
  settled klass sub w -> _get_cassette_subclass klass w = (Returns sub, w).
Proof.
  intros [[-> (v & Hv & Hne)]|Hm]; [|by apply memoized_hit].
  unfold _get_cassette_subclass, bind, attribute. rewrite Hv.
  by destruct v.
Qed.

Lemma settled_grows klass sub w w' :
  heap_closed (w_heap w) -> settled klass sub w -> grows w w' -> settled klass sub w'.
Proof.
  intros Hcl Hs [(_ & Hcl' & ext & Hh) Hc].
  destruct Hs as [[-> (v & Hv & Hne)]|(_ & Hattr & Hhit)].
  - left. split; [done|]. exists v. split; [|done]. rewrite Hh. by apply getattr_app.
  - right. split; [done|]. split.
    + rewrite Hh. by apply getattr_app.
    + by eapply lookup_weaken.
Qed.

Lemma get_cassette_subclass_settles klass sub w w' :
  heap_closed (w_heap w) ->
  _get_cassette_subclass klass w = (Returns sub, w') -> settled klass sub w'.
Proof.
  intros Hcl Hget.
  pose proof (get_cassette_subclass_cases klass w) as Hcase.
  rewrite Hget in Hcase. simpl in Hcase.
  inversion Hcase as [|v Hv Hne|s Hv Hhit|ob Hv Hm Hob Hk|]; subst.
  - left. split; [done|]. by exists v.
  - by right.
  - right. split; [by apply heap_closed_after_miss|]. split.
    + simpl. by apply getattr_app.
    + simpl. by apply lookup_insert_eq.
Qed.

Lemma resolvable_allocated h o :
  resolvable h (VRef o) = true -> allocated h (VRef o) = true.
Proof. simpl. by intros [? _]%andb_true_iff. Qed.

Lemma grows_heap_closed w w' : grows w w' -> heap_closed (w_heap w').
Proof. by intros [(_ & ? & _) _]. Qed.

Lemma grows_resolvable w w' v :
  heap_closed (w_heap w) -> grows w w' ->
  resolvable (w_heap w) v = true -> resolvable (w_heap w') v = true.
Proof.
  intros Hcl [(_ & _ & ext & ->) _]. by apply resolvable_app.
Qed.

Lemma grows_hasattr w w' x a :
  heap_closed (w_heap w) -> grows w w' -> allocated (w_heap w) x = true ->
  hasattr (w_heap w') x a = hasattr (w_heap w) x a.
Proof.
  intros Hcl [(_ & _ & ext & ->) _]. by apply hasattr_app_eq.
Qed.

(** Once a replacement has been resolved, resolving it again in any later
    world of the same builder gives the same value and changes nothing. *)
Lemma recursively_apply_again v : forall w v' w1,
  heap_closed (w_heap w) -> resolvable (w_heap w) v = true ->
  _recursively_apply_get_cassette_subclass v w = (Returns v', w1) ->
  grows w w1
  /\ forall w2, grows w1 w2 ->
       _recursively_apply_get_cassette_subclass v w2 = (Returns v', w2).
Proof.
  induction v as [| | | o | |items IH] using value_rect_items;
    intros w v' w1 Hcl Hres Hrun;
    try (injection Hrun as <- <-; split; [by apply grows_refl|done]).
  - simpl in Hrun. pose proof (resolvable_allocated _ _ Hres) as Halloc.
    destruct (hasattr (w_heap w) (VRef o) "cassette") eqn:Hhas.
    + unfold bind in Hrun.
      destruct (_get_cassette_subclass o w) as [[sub|e] wa] eqn:Hget;
        [|discriminate Hrun].
      injection Hrun as <- <-.
      pose proof (grows_step o w Hcl) as Hg. rewrite Hget in Hg. simpl in Hg.
      split; [done|]. intros w2 Hg2. simpl.
      rewrite (grows_hasattr w w2) by eauto using grows_trans. rewrite Hhas.
      unfold bind. erewrite settled_get; [done|].
      eapply settled_grows; [|by eapply get_cassette_subclass_settles|done].
      by eapply grows_heap_closed.
    + injection Hrun as <- <-. split; [by apply grows_refl|].
      intros w2 Hg2. simpl. by rewrite (grows_hasattr w w2), Hhas.
  - simpl in Hres.
    enough (Hgo : forall items' w1,
      (fix go (items : list (string * value)) : M world (list (string * value)) :=
         match items with
         | [] => ret []
         | (key, replacement_obj) :: rest =>
             let* replacement_obj' :=
               _recursively_apply_get_cassette_subclass replacement_obj in
             let* rest' := go rest in
             ret ((key, replacement_obj') :: rest')
         end) items w = (Returns items', w1) ->
      grows w w1
      /\ forall w2, grows w1 w2 ->
        (fix go (items : list (string * value)) : M world (list (string * value)) :=
         match items with
         | [] => ret []
         | (key, replacement_obj) :: rest =>
             let* replacement_obj' :=
               _recursively_apply_get_cassette_subclass replacement_obj in
             let* rest' := go rest in
             ret ((key, replacement_obj') :: rest')
         end) items w2 = (Returns items', w2)).
    { simpl in Hrun. unfold bind at 1 in Hrun.
      match type of Hrun with
      | context [?go items w] => destruct (go items w) as [[items'|e] wa] eqn:Hitems
      end; [|discriminate Hrun].
      injection Hrun as <- <-. destruct (Hgo _ _ eq_refl) as [Hg Hagain].
      split; [done|]. intros w2 Hg2. simpl. unfold bind at 1.
      by rewrite (Hagain w2 Hg2). }
    clear Hrun v' w1. revert w Hcl Hres.
    induction IH as [|[k x] items Hx _ IHitems]; intros w Hcl Hres items' w1 Hrun.
    { injection Hrun as <- <-. split; [by apply grows_refl|done]. }
    simpl in Hres. apply andb_true_iff in Hres as [Hrx Hrest].
    unfold bind at 1 in Hrun. simpl in Hrun.
    destruct (_recursively_apply_get_cassette_subclass x w) as [[x'|e] wa] eqn:Hx1;
      [|discriminate Hrun].
    unfold bind at 1 in Hrun.
    match type of Hrun with
    | context [?go items wa] => destruct (go items wa) as [[rest'|e] wb] eqn:Hrest1
    end; [|discriminate Hrun].
    injection Hrun as <- <-.
    destruct (Hx w x' wa Hcl Hrx Hx1) as [Hga Hxagain].
    assert (Hresta : forallb (fun kv => resolvable (w_heap wa) kv.2) items = true).
    { rewrite forallb_forall in *. intros kv Hin.
      eapply grows_resolvable; eauto. }
    destruct (IHitems wa (grows_heap_closed _ _ Hga) Hresta rest' wb Hrest1)
      as [Hgb Hrestagain].
    split; [by eapply grows_trans|]. intros w2 Hg2.
    simpl in Hxagain. unfold bind at 1. rewrite (Hxagain w2) by by eapply grows_trans.
    unfold bind at 1. by rewrite (Hrestagain w2 Hg2).
Qed.

Lemma build_patcher_again obj patched_attribute replacement_class w o w1 :
  heap_closed (w_heap w) ->
  allocated (w_heap w) obj = true ->
  resolvable (w_heap w) replacement_class = true ->
  _build_patcher obj patched_attribute replacement_class w = (Returns o, w1) ->
  grows w w1
  /\ forall w2, grows w1 w2 ->
       _build_patcher obj patched_attribute replacement_class w2 = (Returns o, w2).
Proof.
  intros Hcl Halloc Hres Hrun. unfold _build_patcher in Hrun.
  destruct (hasattr (w_heap w) obj patched_attribute) eqn:Hhas; simpl in Hrun.
  - unfold bind in Hrun.
    destruct (_recursively_apply_get_cassette_subclass replacement_class w)
      as [[new|e] wa] eqn:Hnew; [|discriminate Hrun].
    injection Hrun as <- <-.
    destruct (recursively_apply_again _ _ _ _ Hcl Hres Hnew) as [Hg Hagain].
    split; [done|]. intros w2 Hg2. unfold _build_patcher.
    rewrite (grows_hasattr w w2) by eauto using grows_trans. rewrite Hhas. simpl.
    unfold bind. by rewrite (Hagain w2 Hg2).
  - injection Hrun as <- <-. split; [by apply grows_refl|].
    intros w2 Hg2. unfold _build_patcher.
    by rewrite (grows_hasattr w w2), Hhas.
Qed.

Lemma build_patchers_again ts : forall w ps w1,
  heap_closed (w_heap w) ->
  forallb (triple_ok (w_heap w)) ts = true ->
  _build_patchers_from_mock_triples ts w = (Returns ps, w1) ->
  grows w w1
  /\ forall w2, grows w1 w2 ->
       _build_patchers_from_mock_triples ts w2 = (Returns ps, w2).
Proof.
  induction ts as [|t ts IH]; intros w ps w1 Hcl Hok Hrun.
  { injection Hrun as <- <-. split; [by apply grows_refl|done]. }
  simpl in Hok. apply andb_true_iff in Hok as [Ht Hts].
  unfold triple_ok in Ht. apply andb_true_iff in Ht as [Halloc Hres].
  simpl in Hrun. unfold bind at 1 in Hrun.
  destruct (_build_patcher (t_obj t) (t_attribute t) (t_replacement t) w)
    as [[o|e] wa] eqn:Hone; [|discriminate Hrun].
  unfold bind at 1 in Hrun.
  destruct (_build_patchers_from_mock_triples ts wa) as [[others|e] wb] eqn:Hrest;
    [|discriminate Hrun].
  injection Hrun as <- <-.
  destruct (build_patcher_again _ _ _ _ _ _ Hcl Halloc Hres Hone) as [Hga Hagain].
  assert (Htsa : forallb (triple_ok (w_heap wa)) ts = true).
  { destruct Hga as [(_ & _ & ext & ->) _]. rewrite forallb_forall in *.
    intros t' Hin. apply triple_ok_app; auto. }
  destruct (IH wa others wb (grows_heap_closed _ _ Hga) Htsa Hrest)
    as [Hgb Hrestagain].
  split; [by eapply grows_trans|]. intros w2 Hg2. simpl.
  unfold bind at 1. rewrite (Hagain w2) by by eapply grows_trans.
  unfold bind at 1. by rewrite (Hrestagain w2 Hg2).
Qed.

(** X5: the handles of a list of triples are built once.  With well-formed
    triples the generator returns; run again on the same builder, after any
    further requests to it, it returns the very same handles, replacement
    classes included, and leaves builder and heap as they are. *)
Theorem build_patchers_from_mock_triples_stable ts ks w :
  heap_closed (w_heap w) ->
  forallb (triple_ok (w_heap w)) ts = true ->
  exists ps w',
    _build_patchers_from_mock_triples ts w = (Returns ps, w')
    /\ _build_patchers_from_mock_triples ts (requests ks w')
       = (Returns ps, requests ks w').
Proof.
  intros Hcl Hok.
  destruct (build_patchers_from_mock_triples_spec ts w Hcl Hok)
    as (ps & w' & Hrun & _).
  exists ps, w'. split; [done|].
  destruct (build_patchers_again ts w ps w' Hcl Hok Hrun) as [Hg Hagain].
  apply Hagain. apply grows_requests. by eapply grows_heap_closed.
Qed.

Lemma build_patchers_from_mock_triples_stable_witness :
  exists ps w',
    _build_patchers_from_mock_triples (custom_patches cassette_custom) world_custom
      = (Returns ps, w')
    /\ _build_patchers_from_mock_triples (custom_patches cassette_custom)
         (requests [1; 0; 4] w')
       = (Returns ps, requests [1; 0; 4] w').
Proof.
  apply (build_patchers_from_mock_triples_stable
           (custom_patches cassette_custom) [1; 0; 4] world_custom).
  - exact heap_httplib_closed.
  - reflexivity.
Defined.

Lemma cache_unbound_step k w :
  heap_closed (w_heap w) -> cache_unbound w ->
  cache_unbound (_get_cassette_subclass k w).2.
Proof.
  intros Hcl Hu.
  destruct (get_cassette_subclass_cases k w) as [| | |ob Hv Hmiss Hob Hk|];
    try done.
  unfold cache_unbound, after_miss. simpl. apply map_Forall_insert_2.
  - by apply getattr_app.
  - intros k' s Hk's. apply getattr_app; [done|]. by apply (Hu k' s).
Qed.

Lemma settled_substituted o sub w :
  cache_unbound w -> settled o sub w ->
  default o (_class_to_cassette_subclass (w_builder w) !! o) = sub.
Proof.
  intros Hu [[-> (v & Hv & Hne)]|(_ & Hattr & Hhit)]; [|by rewrite Hhit].
  destruct (_class_to_cassette_subclass (w_builder w) !! o) as [s|] eqn:Hs;
    [|done].
  apply Hu in Hs. simpl in Hs. rewrite Hv in Hs. by injection Hs as ->.
Qed.

(** The resolved replacement is the original with classes replaced by
    their cache entries, in the cache of any later world. *)
Lemma recursively_apply_substituted v : forall w v' w1,
  heap_closed (w_heap w) -> cache_unbound w ->
  resolvable (w_heap w) v = true ->
  _recursively_apply_get_cassette_subclass v w = (Returns v', w1) ->
  cache_unbound w1
  /\ forall w2, grows w1 w2 -> cache_unbound w2 ->
       v' = substituted (_class_to_cassette_subclass (w_builder w2)) v.
Proof.
  induction v as [| | | o | |items IH] using value_rect_items;
    intros w v' w1 Hcl Hu Hres Hrun;
    try (by injection Hrun as <- <-).
  - simpl in Hrun. pose proof (resolvable_allocated _ _ Hres) as Halloc.
    destruct (hasattr (w_heap w) (VRef o) "cassette") eqn:Hhas.
    + unfold bind in Hrun.
      destruct (_get_cassette_subclass o w) as [[sub|e] wa] eqn:Hget;
        [|discriminate Hrun].
      injection Hrun as <- <-.
      pose proof (cache_unbound_step o w Hcl Hu) as Hua. rewrite Hget in Hua.
      pose proof (grows_step o w Hcl) as Hga. rewrite Hget in Hga.
      split; [done|]. intros w2 Hg2 Hu2. simpl. f_equal. symmetry.
      apply settled_substituted; [done|].
      eapply settled_grows; [|by eapply get_cassette_subclass_settles|done].
      by eapply grows_heap_closed.
    + injection Hrun as <- <-. split; [done|]. intros w2 Hg2 Hu2. simpl.
      destruct (_class_to_cassette_subclass (w_builder w2) !! o) as [s|] eqn:Hs;
        [|done].
      apply Hu2 in Hs. simpl in Hs.
      pose proof (grows_hasattr w w2 (VRef o) "cassette" Hcl Hg2 Halloc) as Hsame.
      rewrite Hhas in Hsame. unfold hasattr in Hsame. rewrite Hs in Hsame.
      by rewrite bool_decide_eq_false in Hsame; destruct Hsame.
  - simpl in Hres.
    enough (Hgo : forall items' w1,
      (fix go (items : list (string * value)) : M world (list (string * value)) :=
         match items with
         | [] => ret []
         | (key, replacement_obj) :: rest =>
             let* replacement_obj' :=
               _recursively_apply_get_cassette_subclass replacement_obj in
             let* rest' := go rest in
             ret ((key, replacement_obj') :: rest')
         end) items w = (Returns items', w1) ->
      grows w w1 /\ cache_unbound w1
      /\ forall w2, grows w1 w2 -> cache_unbound w2 ->
           items' = map (fun kv =>
                      (kv.1, substituted (_class_to_cassette_subclass (w_builder w2)) kv.2))
                    items).
    { simpl in Hrun. unfold bind at 1 in Hrun.
      match type of Hrun with
      | context [?go items w] => destruct (go items w) as [[items'|e] wa] eqn:Hitems
      end; [|discriminate Hrun].
      injection Hrun as <- <-. destruct (Hgo _ _ eq_refl) as (Hg & Hua & Hsub).
      split; [done|]. intros w2 Hg2 Hu2. simpl. f_equal. by apply Hsub. }
    clear Hrun v' w1. revert w Hcl Hu Hres.
    induction IH as [|[k x] items Hx _ IHitems]; intros w Hcl Hu Hres items' w1 Hrun.
    { injection Hrun as <- <-. split; [by apply grows_refl|]. by split. }
    simpl in Hres. apply andb_true_iff in Hres as [Hrx Hrest].
    unfold bind at 1 in Hrun. simpl in Hrun.
    destruct (_recursively_apply_get_cassette_subclass x w) as [[x'|e] wa] eqn:Hx1;
      [|discriminate Hrun].
    unfold bind at 1 in Hrun.
    match type of Hrun with
    | context [?go items wa] => destruct (go items wa) as [[rest'|e] wb] eqn:Hrest1
    end; [|discriminate Hrun].
    injection Hrun as <- <-.
    destruct (recursively_apply_again x w x' wa Hcl Hrx Hx1) as [Hga _].
    destruct (Hx w x' wa Hcl Hu Hrx Hx1) as [Hua Hxsub].
    assert (Hresta : forallb (fun kv => resolvable (w_heap wa) kv.2) items = true).
    { rewrite forallb_forall in *. intros kv Hin.
      eapply grows_resolvable; eauto. }
    destruct (IHitems wa (grows_heap_closed _ _ Hga) Hua Hresta rest' wb Hrest1)
      as (Hgb & Hub & Hrestsub).
    split; [by eapply grows_trans|]. split; [done|]. intros w2 Hg2 Hu2.
    simpl. f_equal; [|by apply Hrestsub]. f_equal. apply Hxsub; [|done].
    by eapply grows_trans.
Qed.

(** X6: the resolved replacement in closed form.  For a well-formed
    replacement [_recursively_apply_get_cassette_subclass] returns, and what
    it returns is the replacement itself with every class that the cache
    now has an entry for replaced by that entry: dictionaries keep their
    keys and order at every depth, values that are not classes, classes
    without a [cassette] attribute and classes already bound to a session
    come back as they were. *)
Theorem recursively_apply_closed_form v w :
  heap_closed (w_heap w) -> cache_unbound w ->
  resolvable (w_heap w) v = true ->
  exists v' w',
    _recursively_apply_get_cassette_subclass v w = (Returns v', w')
    /\ v' = substituted (_class_to_cassette_subclass (w_builder w')) v
    /\ cache_unbound w'.
Proof.
  intros Hcl Hu Hres.
  destruct (recursively_apply_returns v w Hcl Hres) as (v' & w' & Hrun & Hext).
  destruct (recursively_apply_substituted v w v' w' Hcl Hu Hres Hrun) as [Hu' Hsub].
  exists v', w'. split; [done|]. split; [|done].
  apply Hsub; [|done]. apply grows_refl. by destruct Hext as (_ & ? & _).
Qed.

Lemma recursively_apply_closed_form_witness :
  exists v' w',
    _recursively_apply_get_cassette_subclass replacement_nested world_custom
      = (Returns v', w')
    /\ v' = substituted (_class_to_cassette_subclass (w_builder w')) replacement_nested
    /\ cache_unbound w'.
Proof.
  apply (recursively_apply_closed_form replacement_nested world_custom).
  - exact heap_httplib_closed.
  - apply map_Forall_empty.
  - reflexivity.
Defined.

Example recursively_apply_nested :
  (_recursively_apply_get_cassette_subclass replacement_nested world_custom).1
  = Returns (VDict [ ("conn", VRef 5); ("timeout", VInt 30); ("plain", VRef 2);
                     ("nested", VDict [ ("tls", VRef 6) ]) ]).
Proof. reflexivity. Qed.

(** ** What [__exit__] leaves in the pools *)

Lemma instances_noninstances h cls q : instances h cls (noninstances h cls q) = [].
Proof.
  induction q as [|x q IH]; [done|]. rewrite noninstances_cons.
  destruct (isinstance h x cls) eqn:Hx; [done|].
  by rewrite instances_cons_other.
Qed.

Lemma instances_rev h cls q : instances h cls (rev q) = rev (instances h cls q).
Proof.
  induction q as [|x q IH]; [done|]. simpl. rewrite instances_app, IH.
  destruct (isinstance h x cls) eqn:Hx.
  - destruct (isinstance_Some h cls x Hx) as [c ->].
    by rewrite !instances_cons_instance.
  - rewrite !instances_cons_other by done. apply app_nil_r.
Qed.

(** A swept pool holds no connection of the class any more, and the tracked
    set has lost exactly the connections that were in the pool. *)
Lemma swept_no_instances h cls p p' connections connections' :
  tracked_ok h cls (queue_of p) connections ->
  swept h cls p p' connections connections' ->
  instances h cls (queue_of p') = []
  /\ connections' = connections ∖ list_to_set (instances h cls (queue_of p)).
Proof.
  intros [Hnd Hin] (taken & rest & Hsplit & -> & -> & Hstop & _).
  rewrite Hsplit, instances_app in Hnd, Hin |- *.
  assert (Hrest : instances h cls rest = []).
  { destruct Hstop as [->|Hempty]; [done|].
    destruct (instances h cls rest) as [|c l] eqn:Hl; [done|].
    apply NoDup_app in Hnd as (_ & Hdisj & _).
    apply Forall_app in Hin as [_ Hin]. apply Forall_cons in Hin as [Hc _].
    assert (c ∈ connections ∖ list_to_set (instances h cls taken)); [|set_solver].
    apply elem_of_difference. split; [done|]. rewrite elem_of_list_to_set.
    intros Hct. apply (Hdisj c Hct). by left. }
  rewrite Hrest, app_nil_r. split; [|done].
  unfold sifted, queue_of in *. destruct (pool_pool p) as [q|] eqn:Hq; simpl in *.
  - unfold requeued. destruct (QueueCls p); rewrite instances_app.
    + by rewrite instances_rev, instances_noninstances, Hrest.
    + by rewrite instances_noninstances, Hrest.
  - by rewrite Hq.
Qed.

(** X7: the sweep is complete.  When the tracker is in step with the pools
    it names, [__exit__] returns and leaves in none of those pools a
    connection of the session's class; each tracked set has lost exactly the
    connections that were found in its pool, so what is still tracked is
    what was checked out at the time. *)
Theorem exit_leaves_no_session_connection h self pools :
  exit_ready h self pools ->
  exists self' pools',
    ConnectionRemover.__exit__ h (self, pools) = (Returns tt, (self', pools'))
    /\ map fst (ConnectionRemover._connection_pool_to_connections self')
       = map fst (ConnectionRemover._connection_pool_to_connections self)
    /\ forall i pool connections,
         ConnectionRemover._connection_pool_to_connections self !! i
           = Some (pool, connections) ->
         instances h (ConnectionRemover._connection_class self) (queue_of (pools' pool))
           = []
         /\ ConnectionRemover._connection_pool_to_connections self' !! i
            = Some (pool,
                    connections
                      ∖ list_to_set (instances h (ConnectionRemover._connection_class self)
                                               (queue_of (pools pool)))).
Proof.
  intros Hready.
  destruct (exit_spec h _ self pools eq_refl Hready)
    as (self' & pools' & Hrun & _ & _ & Hall).
  destruct Hready as [_ Hok].
  exists self', pools'. split; [done|]. split.
  - clear -Hall. induction Hall as [|[] [] ? ? [Hk _] _ IH]; simpl in *; [done|].
    by rewrite Hk, IH.
  - intros i pool connections Hi.
    destruct (Forall2_lookup_l _ _ _ _ _ Hall Hi) as ([pool' conns'] & Hi' & Hk & Hsw).
    simpl in *. subst pool'.
    rewrite Forall_lookup in Hok. specialize (Hok _ _ Hi). simpl in Hok.
    destruct (swept_no_instances _ _ _ _ _ _ Hok Hsw) as [Hnone Hleft].
    split; [done|]. by rewrite Hi', Hleft.
Qed.

Lemma exit_leaves_no_session_connection_witness :
  exists self' pools',
    ConnectionRemover.__exit__ heap_pool (remover_s1, pools_lifo)
      = (Returns tt, (self', pools'))
    /\ map fst (ConnectionRemover._connection_pool_to_connections self')
       = map fst (ConnectionRemover._connection_pool_to_connections remover_s1)
    /\ forall i pool connections,
         ConnectionRemover._connection_pool_to_connections remover_s1 !! i
           = Some (pool, connections) ->
         instances heap_pool (ConnectionRemover._connection_class remover_s1)
                   (queue_of (pools' pool)) = []
         /\ ConnectionRemover._connection_pool_to_connections self' !! i
            = Some (pool,
                    connections
                      ∖ list_to_set
                          (instances heap_pool
                             (ConnectionRemover._connection_class remover_s1)
                             (queue_of (pools_lifo pool)))).
Proof.
  apply (exit_leaves_no_session_connection heap_pool remover_s1 pools_lifo).
  split.
  - vm_compute. repeat constructor; set_solver.
  - repeat constructor; vm_compute; set_solver.
Defined.

(** ** The tracker as a dictionary *)

Lemma pool_entry_setdefault_add pool c d :
  pool_entry pool (ConnectionRemover.setdefault_add pool c d)
  = Some ({[ c ]} ∪ default ∅ (pool_entry pool d)).
Proof.
  induction d as [|[k s] d IH]; simpl.
  - rewrite decide_True by done. f_equal. set_solver.
  - destruct (decide (k = pool)); simpl.
    + by rewrite decide_True.
    + by rewrite decide_False.
Qed.

Lemma pool_entry_setdefault_add_ne pool pool' c d :
  pool' <> pool ->
  pool_entry pool' (ConnectionRemover.setdefault_add pool c d) = pool_entry pool' d.
Proof.
  intros Hne. induction d as [|[k s] d IH]; simpl.
  - by rewrite decide_False.
  - destruct (decide (k = pool)) as [->|]; simpl.
    + by rewrite !decide_False.
    + destruct (decide (k = pool')); [done|]. apply IH.
Qed.

Lemma keys_setdefault_add pool c d :
  map fst (ConnectionRemover.setdefault_add pool c d)
  = map fst d ++ (if decide (pool ∈ map fst d) then [] else [pool]).
Proof.
  induction d as [|[k s] d IH]; simpl.
  - done.
  - destruct (decide (k = pool)) as [->|Hne]; simpl.
    + rewrite decide_True; [by rewrite app_nil_r|]. by left.
    + rewrite IH. f_equal. f_equal.
      destruct (decide (pool ∈ map fst d)) as [Hin|Hout].
      * rewrite decide_True; [done|]. by right.
      * rewrite decide_False; [done|]. rewrite not_elem_of_cons. by split.
Qed.

Lemma pool_entry_Some pool d s :
  pool_entry pool d = Some s -> (pool, s) ∈ d.
Proof.
  induction d as [|[k s'] d IH]; simpl; [done|].
  destruct (decide (k = pool)) as [->|].
  - intros [= ->]. by left.
  - intros H. right. by apply IH.
Qed.

Lemma pool_entry_NoDup pool d s :
  NoDup (map fst d) -> (pool, s) ∈ d -> pool_entry pool d = Some s.
Proof.
  induction d as [|[k s'] d IH]; simpl; [by intros _ ?%elem_of_nil|].
  rewrite NoDup_cons. intros [Hfresh Hnd] Hin.
  apply elem_of_cons in Hin as [[= <- <-]|Hin].
  - by rewrite decide_True.
  - rewrite decide_False; [by apply IH|]. intros ->. apply Hfresh.
    apply list_elem_of_fmap. by exists (pool, s).
Qed.

Lemma setdefault_add_idem pool c d :
  ConnectionRemover.setdefault_add pool c (ConnectionRemover.setdefault_add pool c d)
  = ConnectionRemover.setdefault_add pool c d.
Proof.
  induction d as [|[k s] d IH]; simpl.
  - rewrite decide_True by done. do 2 f_equal. set_solver.
  - destruct (decide (k = pool)) as [->|Hne]; simpl.
    + rewrite decide_True by done. do 2 f_equal. set_solver.
    + rewrite decide_False by done. by rewrite IH.
Qed.

(** X8: recording a connection is a dictionary update.  After
    [add_connection_to_pool_entry] with an instance of the remover's class,
    the pool's entry is its former tracked set (empty if the pool was not a
    key) plus the connection; every other pool's entry is as before; a pool
    that was not a key has become the last key, the other keys keep their
    places; and recording the same connection a second time changes
    nothing. *)
Theorem add_connection_to_pool_entry_lookup h pool connection self :
  isinstance h (Some connection) (ConnectionRemover._connection_class self) = true ->
  let self' := ConnectionRemover.add_connection_to_pool_entry h pool connection self in
  pool_entry pool (ConnectionRemover._connection_pool_to_connections self')
    = Some ({[ connection ]} ∪ tracked self pool)
  /\ (forall pool', pool' <> pool ->
        pool_entry pool' (ConnectionRemover._connection_pool_to_connections self')
        = pool_entry pool' (ConnectionRemover._connection_pool_to_connections self))
  /\ map fst (ConnectionRemover._connection_pool_to_connections self')
     = map fst (ConnectionRemover._connection_pool_to_connections self)
       ++ (if decide (pool ∈ map fst (ConnectionRemover._connection_pool_to_connections self))
           then [] else [pool])
  /\ ConnectionRemover._connection_class self' = ConnectionRemover._connection_class self
  /\ ConnectionRemover.add_connection_to_pool_entry h pool connection self' = self'.
Proof.
  intros Hinst self'. subst self'.
  unfold ConnectionRemover.add_connection_to_pool_entry. rewrite Hinst.
  cbn [ConnectionRemover._connection_class
       ConnectionRemover._connection_pool_to_connections].
  rewrite Hinst.
  split; [apply pool_entry_setdefault_add|].
  split; [intros pool' Hne; by apply pool_entry_setdefault_add_ne|].
  split; [apply keys_setdefault_add|]. split; [done|].
  by rewrite setdefault_add_idem.
Qed.

Lemma add_connection_to_pool_entry_lookup_witness :
  pool_entry 0 (ConnectionRemover._connection_pool_to_connections
                  (ConnectionRemover.add_connection_to_pool_entry heap_pool 0 conn_s2
                     remover_s1))
    = Some ({[ conn_s2 ]} ∪ tracked remover_s1 0)
  /\ (forall pool', pool' <> 0 ->
        pool_entry pool' (ConnectionRemover._connection_pool_to_connections
                            (ConnectionRemover.add_connection_to_pool_entry heap_pool 0
                               conn_s2 remover_s1))
        = pool_entry pool' (ConnectionRemover._connection_pool_to_connections remover_s1))
  /\ map fst (ConnectionRemover._connection_pool_to_connections
                (ConnectionRemover.add_connection_to_pool_entry heap_pool 0 conn_s2
                   remover_s1))
     = map fst (ConnectionRemover._connection_pool_to_connections remover_s1)
       ++ (if decide (0 ∈ map fst (ConnectionRemover._connection_pool_to_connections
                                     remover_s1))
           then [] else [0])
  /\ ConnectionRemover._connection_class
       (ConnectionRemover.add_connection_to_pool_entry heap_pool 0 conn_s2 remover_s1)
     = ConnectionRemover._connection_class remover_s1
  /\ ConnectionRemover.add_connection_to_pool_entry heap_pool 0 conn_s2
       (ConnectionRemover.add_connection_to_pool_entry heap_pool 0 conn_s2 remover_s1)
     = ConnectionRemover.add_connection_to_pool_entry heap_pool 0 conn_s2 remover_s1.
Proof.
  apply (add_connection_to_pool_entry_lookup heap_pool 0 conn_s2 remover_s1).
  reflexivity.
Defined.

(** ** The creation wrapper and the life of a session's connections *)

Lemma tracked_ok_mono h cls q (s s' : gset connection_object) :
  s ⊆ s' -> tracked_ok h cls q s -> tracked_ok h cls q s'.
Proof.
  intros Hsub [Hnd Hin]. split; [done|].
  eapply Forall_impl; [exact Hin|]. intros c Hc. by apply Hsub.
Qed.

Lemma tracked_add h pool pid c self :
  tracked self pid
  ⊆ tracked (ConnectionRemover.add_connection_to_pool_entry h pool c self) pid.
Proof.
  unfold tracked, ConnectionRemover.add_connection_to_pool_entry.
  destruct (isinstance h (Some c) (ConnectionRemover._connection_class self));
    [|done].
  cbn [ConnectionRemover._connection_pool_to_connections].
  destruct (decide (pid = pool)) as [->|Hne].
  - rewrite pool_entry_setdefault_add. simpl. set_solver.
  - by rewrite pool_entry_setdefault_add_ne.
Qed.

Lemma add_connection_class h pool c self :
  ConnectionRemover._connection_class
    (ConnectionRemover.add_connection_to_pool_entry h pool c self)
  = ConnectionRemover._connection_class self.
Proof.
  unfold ConnectionRemover.add_connection_to_pool_entry.
  by destruct (isinstance h (Some c) (ConnectionRemover._connection_class self)).
Qed.

Lemma add_connection_keys_NoDup h pool c self :
  NoDup (map fst (ConnectionRemover._connection_pool_to_connections self)) ->
  NoDup (map fst (ConnectionRemover._connection_pool_to_connections
                    (ConnectionRemover.add_connection_to_pool_entry h pool c self))).
Proof.
  intros Hnd. unfold ConnectionRemover.add_connection_to_pool_entry.
  destruct (isinstance h (Some c) (ConnectionRemover._connection_class self));
    [|done].
  cbn [ConnectionRemover._connection_pool_to_connections].
  rewrite keys_setdefault_add.
  destruct (decide (pool ∈ map fst
              (ConnectionRemover._connection_pool_to_connections self)));
    [by rewrite app_nil_r|].
  apply NoDup_app. split; [done|]. split; [|apply NoDup_singleton].
  intros x Hx ->%list_elem_of_singleton. done.
Qed.

Lemma in_step_add h pool c self ps :
  in_step h self ps ->
  in_step h (ConnectionRemover.add_connection_to_pool_entry h pool c self) ps.
Proof.
  intros [Hnd Hok]. split; [by apply add_connection_keys_NoDup|].
  intros pid. rewrite add_connection_class.
  eapply tracked_ok_mono; [apply tracked_add|apply Hok].
Qed.

(** X9: the creation wrapper keeps the tracker in step.  The closure
    built by [_patched_new_conn] hands on what the pool's own primitive
    returned or raised, and leaves the tracker in step with the pools: a
    connection of the remover's class is tracked for the pool it was made
    for from then on, nothing that was tracked is forgotten, and when the
    primitive raises or makes a connection of another class the remover is
    untouched. *)
Theorem patched_new_conn_keeps_in_step h new_conn pool self ps out ps' :
  new_conn pool ps = (out, ps') ->
  (forall pid, queue_of (ps' pid) = queue_of (ps pid)) ->
  in_step h self ps ->
  exists self',
    patched_new_conn h new_conn pool (self, ps) = (out, (self', ps'))
    /\ in_step h self' ps'
    /\ (forall pid, tracked self pid ⊆ tracked self' pid)
    /\ match out with
       | Returns c =>
           if isinstance h (Some c) (ConnectionRemover._connection_class self)
           then c ∈ tracked self' pool
           else self' = self
       | Raises _ => self' = self
       end.
Proof.
  intros Hnew Hqueues Hstep.
  assert (Hmove : forall self0, in_step h self0 ps -> in_step h self0 ps').
  { intros self0 [Hnd Hok]. split; [done|]. intros pid. rewrite Hqueues. apply Hok. }
  unfold patched_new_conn. rewrite Hnew. destruct out as [c|e].
  - eexists. split; [done|]. split; [by apply Hmove, in_step_add|].
    split; [intros pid; apply tracked_add|].
    destruct (isinstance h (Some c) (ConnectionRemover._connection_class self))
      eqn:Hc.
    + unfold tracked, ConnectionRemover.add_connection_to_pool_entry. rewrite Hc.
      cbn [ConnectionRemover._connection_pool_to_connections].
      rewrite pool_entry_setdefault_add. simpl. set_solver.
    + unfold ConnectionRemover.add_connection_to_pool_entry. by rewrite Hc.
  - exists self. split; [done|]. split; [by apply Hmove|]. by split.
Qed.

Lemma patched_new_conn_keeps_in_step_witness :
  exists self',
    patched_new_conn heap_pool (create_connection 2 12) 0 (remover_s1, pools_lifo)
      = (Returns conn_s2, (self', pools_lifo))
    /\ in_step heap_pool self' pools_lifo
    /\ (forall pid, tracked remover_s1 pid ⊆ tracked self' pid)
    /\ if isinstance heap_pool (Some conn_s2)
            (ConnectionRemover._connection_class remover_s1)
       then conn_s2 ∈ tracked self' 0
       else self' = remover_s1.
Proof.
  apply (patched_new_conn_keeps_in_step heap_pool (create_connection 2 12) 0
           remover_s1 pools_lifo (Returns conn_s2) pools_lifo).
  - reflexivity.
  - reflexivity.
  - split; [vm_compute; repeat constructor; set_solver|].
    intros [|pid].
    + split; vm_compute; repeat constructor; set_solver.
    + split; vm_compute; constructor.
Defined.

Lemma in_step_init h connection_class ps :
  (forall pid, instances h connection_class (queue_of (ps pid)) = []) ->
  in_step h (ConnectionRemover.__init__ connection_class) ps.
Proof.
  intros Hclean. split; [constructor|]. intros pid. unfold tracked_ok.
  simpl. rewrite Hclean. split; constructor.
Qed.

Lemma in_step_exit_ready h self ps : in_step h self ps -> exit_ready h self ps.
Proof.
  intros [Hnd Hok]. split; [done|]. apply Forall_forall. intros [pid s] Hin.
  simpl. specialize (Hok pid). unfold tracked in Hok.
  by rewrite (pool_entry_NoDup _ _ _ Hnd Hin) in Hok.
Qed.

(** X10: no connection of a session outlives it in a pool.  With the
    tracker in step, [__exit__] returns, and afterwards no pool at all,
    whether the remover names it or not, holds a connection of the
    remover's class. *)
Theorem exit_cleans_every_pool h self ps :
  in_step h self ps ->
  exists self' ps',
    ConnectionRemover.__exit__ h (self, ps) = (Returns tt, (self', ps'))
    /\ forall pid,
         instances h (ConnectionRemover._connection_class self) (queue_of (ps' pid)) = [].
Proof.
  intros Hstep. pose proof (in_step_exit_ready _ _ _ Hstep) as Hready.
  destruct (exit_spec h _ self ps eq_refl Hready)
    as (self' & ps' & Hrun & _ & Hother & Hall).
  exists self', ps'. split; [done|]. intros pid.
  destruct Hstep as [Hnd Hok]. specialize (Hok pid). unfold tracked in Hok.
  destruct (pool_entry pid (ConnectionRemover._connection_pool_to_connections self))
    as [s|] eqn:Hentry; simpl in Hok.
  - apply pool_entry_Some in Hentry.
    apply list_elem_of_lookup in Hentry as [i Hi].
    destruct (Forall2_lookup_l _ _ _ _ _ Hall Hi) as ([pid' s'] & _ & _ & Hsw).
    simpl in Hsw. by destruct (swept_no_instances _ _ _ _ _ _ Hok Hsw).
  - rewrite Hother.
    + destruct Hok as [_ Hsub].
      destruct (instances h _ (queue_of (ps pid))) as [|c l]; [done|].
      apply Forall_cons in Hsub as [Hc _]. set_solver.
    + intros Hin. apply list_elem_of_fmap in Hin as ([pid' s] & Heq & Hin).
      simpl in Heq. subst pid'.
      by rewrite (pool_entry_NoDup _ _ _ Hnd Hin) in Hentry.
Qed.

Lemma exit_cleans_every_pool_witness :
  exists self' ps',
    ConnectionRemover.__exit__ heap_pool (remover_s1, pools_lifo)
      = (Returns tt, (self', ps'))
    /\ forall pid,
         instances heap_pool (ConnectionRemover._connection_class remover_s1)
                   (queue_of (ps' pid)) = [].
Proof.
  apply (exit_cleans_every_pool heap_pool remover_s1 pools_lifo).
  split; [vm_compute; repeat constructor; set_solver|].
  intros [|pid].
  - split; vm_compute; repeat constructor; set_solver.
  - split; vm_compute; constructor.
Defined.

(** A session makes a connection through the wrapper and releases it to the
    pool; at the end of the session the pool is as the session found it and
    nothing is tracked any more. *)
Example session_connection_lifecycle :
  let '(made, (remover, ps)) :=
    patched_new_conn heap_pool (create_connection 2 11) 0
                     (ConnectionRemover.__init__ 2, pools_idle) in
  let released := <[0 := _put_conn (Some conn_s1) (ps 0)]> ps in
  let '(out, (remover', ps')) := ConnectionRemover.__exit__ heap_pool (remover, released) in
  made = Returns conn_s1
  /\ tracked remover 0 = {[ conn_s1 ]}
  /\ queue_of (released 0) = [Some conn_s1; Some conn_b; Some conn_a]
  /\ out = Returns tt
  /\ queue_of (ps' 0) = queue_of (pools_idle 0)
  /\ tracked remover' 0 = ∅.
Proof. vm_compute. repeat split; set_solver. Qed.

(** ** The acquire wrapper drops stale connections *)

Section SkipStale.
Context (h : list pyobj)
        (new_conn : nat -> M (nat -> connection_pool) connection_object)
        (pool : nat) (cls : nat) (rest : list (option connection_object)).
Context (Hcreate : creates_instances h new_conn pool cls).
Context (Hrest : match rest with
                 | Some c :: _ => isinstance h (Some c) cls = true
                 | _ => True
                 end).

Lemma get_conn_usable s :
  pool_pool (pools s pool) = Some rest ->
  exists c s',
    get_conn new_conn pool s = (Returns c, s')
    /\ isinstance h (Some c) cls = true
    /\ get_conn_calls s' = S (get_conn_calls s)
    /\ pool_pool (pools s' pool) = Some (tail rest)
    /\ match rest with Some c0 :: _ => c = c0 | _ => True end.
Proof.
  intros Hq.
  destruct (get_conn_step h new_conn pool cls Hcreate s rest Hq)
    as (c & s' & Hget & Hcalls & _ & Hstep).
  exists c, s'. split; [done|].
  destruct rest as [|[c0|] q']; simpl.
  - by destruct Hstep.
  - destruct Hstep as [-> Hq']. by repeat split.
  - by destruct Hstep.
Qed.

Lemma while_not_instance_skips stale : forall fuel s connection,
  isinstance h (Some connection) cls = false ->
  pool_pool (pools s pool) = Some (map Some stale ++ rest) ->
  Forall (fun c => isinstance h (Some c) cls = false) stale ->
  length stale < fuel ->
  exists c s',
    while_not_instance h new_conn fuel pool cls connection s = (Returns (Some c), s')
    /\ isinstance h (Some c) cls = true
    /\ get_conn_calls s' = get_conn_calls s + length stale + 1
    /\ pool_pool (pools s' pool) = Some (tail rest)
    /\ match rest with Some c0 :: _ => c = c0 | _ => True end.
Proof.
  induction stale as [|c1 stale IH]; intros fuel s connection Hconn Hq Hstale Hfuel;
    (destruct fuel as [|fuel]; [simpl in Hfuel; lia|]); simpl; rewrite Hconn.
  - destruct (get_conn_usable s Hq) as (c & s' & Hget & Hc & Hcalls & Hq' & Hfirst).
    unfold bind. rewrite Hget. exists c, s'.
    split; [destruct fuel; simpl; by rewrite Hc|]. split; [done|].
    split; [simpl; lia|]. by split.
  - apply Forall_cons in Hstale as [Hc1 Hstale].
    destruct (get_conn_step h new_conn pool cls Hcreate s _ Hq)
      as (c & s' & Hget & Hcalls & _ & -> & Hq').
    unfold bind. rewrite Hget.
    destruct (IH fuel s' c1 Hc1 Hq' Hstale ltac:(simpl in Hfuel; lia))
      as (c & s'' & Hrun & Hc & Hn & Hq'' & Hfirst).
    exists c, s''. split; [done|]. split; [done|]. split; [simpl; lia|]. by split.
Qed.

End SkipStale.

(** X11: what the acquire wrapper does to the pool.  When the queue starts
    with connections of another class, the wrapper takes exactly these out,
    one call of the original primitive each, and returns what the next call
    gives: the first entry behind them if that is a connection of the
    expected class, a newly created one otherwise.  The connections it
    passed over are not put back, and the entries behind the one it stopped
    at stay in the queue as they were. *)
Theorem patched_get_conn_drops_stale h new_conn getter pool ps stale rest fuel :
  pool_pool (ps pool) = Some (map Some stale ++ rest) ->
  Forall (fun c => isinstance h (Some c) (expected_class getter (ps pool)) = false)
         stale ->
  match rest with
  | Some c :: _ => isinstance h (Some c) (expected_class getter (ps pool)) = true
  | _ => True
  end ->
  creates_instances h new_conn pool (expected_class getter (ps pool)) ->
  length stale <= fuel ->
  exists c s',
    patched_get_conn h new_conn fuel getter pool {| pools := ps; get_conn_calls := 0 |}
      = (Returns (Some c), s')
    /\ isinstance h (Some c) (expected_class getter (ps pool)) = true
    /\ get_conn_calls s' = length stale + 1
    /\ pool_pool (pools s' pool) = Some (tail rest)
    /\ match rest with Some c0 :: _ => c = c0 | _ => True end.
Proof.
  intros Hq Hstale Hrest Hcreate Hfuel.
  set (cls := expected_class getter (ps pool)) in *.
  set (s := {| pools := ps; get_conn_calls := 0 |}).
  destruct (get_conn_step h new_conn pool cls Hcreate s _ Hq)
    as (c & s' & Hget & Hcalls & Hcls & Hstep).
  unfold patched_get_conn, bind. rewrite Hget. unfold gets.
  assert (Hsame : expected_class getter (pools s' pool) = cls).
  { unfold expected_class in *. by rewrite Hcls. }
  rewrite Hsame. destruct stale as [|c1 stale].
  - destruct (get_conn_usable h new_conn pool cls rest Hcreate Hrest s Hq)
      as (c' & s'' & Hget' & Hc & Hcalls' & Hq' & Hfirst).
    rewrite Hget in Hget'. injection Hget' as <- <-.
    exists c, s'. split; [destruct fuel; simpl; by rewrite Hc|].
    split; [done|]. split; [by rewrite Hcalls'|]. by split.
  - destruct Hstep as [-> Hq']. apply Forall_cons in Hstale as [Hc1 Hstale].
    destruct (while_not_instance_skips h new_conn pool cls rest Hcreate Hrest
                stale fuel s' c1 Hc1 Hq' Hstale ltac:(simpl in Hfuel; lia))
      as (c & s'' & Hrun & Hc & Hn & Hq'' & Hfirst).
    exists c, s''. split; [done|]. split; [done|].
    split; [rewrite Hn, Hcalls; simpl; lia|]. by split.
Qed.

Lemma patched_get_conn_drops_stale_witness :
  exists c s',
    patched_get_conn heap_pool (create_connection 2 20) 2 1 0
                     {| pools := pools_lifo; get_conn_calls := 0 |}
      = (Returns (Some c), s')
    /\ isinstance heap_pool (Some c) (expected_class 1 (pools_lifo 0)) = true
    /\ get_conn_calls s' = length [conn_b; conn_a] + 1
    /\ pool_pool (pools s' 0) = Some (tail [Some conn_s1])
    /\ c = conn_s1.
Proof.
  apply (patched_get_conn_drops_stale heap_pool (create_connection 2 20) 1 0 pools_lifo
           [conn_b; conn_a] [Some conn_s1] 2).
  - reflexivity.
  - repeat constructor.
  - reflexivity.
  - intros ps. by exists {| conn_id := 20; conn_class := 2 |}, ps.
  - simpl. lia.
Defined.

(** ** [reset_patchers] and the names saved at load time *)

Lemma quiet_ret {S A} (P : exn -> Prop) (a : A) : quiet (S := S) P (ret a).
Proof. intros s out s' [= <- <-]. by split. Qed.

Lemma quiet_raise {S A} (P : exn -> Prop) e : P e -> quiet (S := S) (A := A) P (raise e).
Proof. intros He s out s' [= <- <-]. split; [done|]. by intros ? [= <-]. Qed.

Lemma quiet_bind {S A B} (P : exn -> Prop) (m : M S A) (k : A -> M S B) :
  quiet P m -> (forall a, quiet P (k a)) -> quiet P (bind m k).
Proof.
  intros Hm Hk s out s'. unfold bind.
  destruct (m s) as [[a|e] s1] eqn:Hrun; destruct (Hm _ _ _ Hrun) as [-> He].
  - apply Hk.
  - intros [= <- <-]. split; [done|]. intros ? [= <-]. by apply He.
Qed.

Lemma quiet_bind_ret {S A B} (P : exn -> Prop) (a : A) (k : A -> M S B) :
  quiet P (k a) -> quiet P (bind (ret a) k).
Proof. intros Hk s out s' Hrun. by apply Hk. Qed.

Lemma quiet_gets {S A} (P : exn -> Prop) (f : S -> A) : quiet P (gets f).
Proof. intros s out s' [= <- <-]. by split. Qed.

Lemma quiet_attr (P : exn -> Prop) x a : P AttributeError -> quiet P (attr x a).
Proof.
  intros HP h out h'. unfold attr. destruct (getattr h x a); intros [= <- <-];
    (split; [done|]); intros ? [= <-]; done.
Qed.

Lemma quiet_try_import {S} (P : exn -> Prop) sys_modules name :
  quiet (S := S) P (try_import sys_modules name).
Proof. apply quiet_ret. Qed.

Lemma quiet_bound_Some {S} (P : exn -> Prop) name :
  is_Some name -> quiet (S := S) P (bound name).
Proof. intros [v ->]. apply quiet_ret. Qed.

Lemma quiet_bound {S} (P : exn -> Prop) name :
  P NameError -> quiet (S := S) P (bound name).
Proof. intros HP. destruct name; [apply quiet_ret|by apply quiet_raise]. Qed.

Lemma quiet_weaken {S A} (P Q : exn -> Prop) (m : M S A) :
  (forall e, P e -> Q e) -> quiet P m -> quiet Q m.
Proof.
  intros HPQ Hm s out s' Hrun. destruct (Hm _ _ _ Hrun) as [-> He].
  split; [done|]. intros e ->. by apply HPQ, He.
Qed.

(** Break a module-level computation into its statements. *)
Ltac quiet_step :=
  first
    [ apply quiet_ret
    | apply quiet_gets
    | apply quiet_try_import
    | apply quiet_attr; solve [auto]
    | apply quiet_bound_Some; solve [auto]
    | apply quiet_bound; solve [auto]
    | apply quiet_bind_ret
    | apply quiet_bind; [|intros ?]
    | match goal with
      | |- quiet _ (match ?x with Some _ => _ | None => _ end) =>
          let E := fresh "E" in destruct x eqn:E
      | |- quiet _ (if ?b then _ else _) => destruct b
      end ].

Section QuietReset.
Context (sys_modules : gmap string nat) (g : globals).
Context (Hbound : saved_names_bound sys_modules g).

Local Abbreviation attribute_error := (fun e => e = AttributeError).

Lemma quiet_reset_httplib : quiet attribute_error (reset_httplib g).
Proof. unfold reset_httplib. quiet_step. Qed.

Lemma quiet_reset_urllib3 : quiet attribute_error (reset_urllib3 sys_modules g).
Proof.
  destruct Hbound as (Hurllib3 & _).
  unfold reset_urllib3, try_import.
  destruct (sys_modules !! "urllib3.connection") as [c|] eqn:Hc; simpl.
  - destruct (sys_modules !! "urllib3.connectionpool") as [p|] eqn:Hp; simpl.
    + destruct Hurllib3 as (H1 & H2 & H3); [done..|].
      repeat quiet_step.
    + repeat quiet_step.
  - repeat quiet_step.
Qed.

Lemma quiet_reset_boto3 :
  quiet (fun e => e = AttributeError \/ botocore_names_missing sys_modules g e)
        (reset_boto3 sys_modules g).
Proof.
  unfold reset_boto3, try_import.
  destruct (sys_modules !! "botocore.awsrequest") as [m|] eqn:Hm; simpl;
    [|repeat quiet_step].
  destruct Hbound as (_ & _ & _ & _ & _ & Hboth).
  destruct (_cpoolBoto3HTTPConnection g) as [http|] eqn:Hhttp;
    destruct (_cpoolBoto3HTTPSConnection g) as [https|] eqn:Hhttps;
    try (exfalso; destruct Hboth as [H1 H2];
         first [ destruct H1 as [? H1]; [by eexists|discriminate H1]
               | destruct H2 as [? H2]; [by eexists|discriminate H2] ]).
  all: repeat quiet_step; try (apply quiet_raise; right; by repeat split).
Qed.

Lemma quiet_reset_httplib2 : quiet attribute_error (reset_httplib2 sys_modules g).
Proof.
  destruct Hbound as (_ & Hhttplib2 & _).
  unfold reset_httplib2, try_import.
  destruct (sys_modules !! "httplib2") as [m|] eqn:Hm; simpl; [|repeat quiet_step].
  destruct Hhttplib2 as (H1 & H2 & H3); [done|]. repeat quiet_step.
Qed.

Lemma quiet_reset_boto : quiet attribute_error (reset_boto sys_modules g).
Proof.
  destruct Hbound as (_ & _ & Hboto & _).
  unfold reset_boto, try_import.
  destruct (sys_modules !! "boto.https_connection") as [m|] eqn:Hm; simpl;
    [|repeat quiet_step].
  specialize (Hboto ltac:(done)). repeat quiet_step.
Qed.

Lemma quiet_reset_tornado : quiet attribute_error (reset_tornado sys_modules g).
Proof.
  destruct Hbound as (_ & _ & _ & Hsimple & Hcurl & _).
  unfold reset_tornado, try_import.
  destruct (sys_modules !! "tornado.simple_httpclient") as [m|] eqn:Hm;
    destruct (sys_modules !! "tornado.curl_httpclient") as [m'|] eqn:Hm'; simpl;
    try specialize (Hsimple ltac:(done)); try specialize (Hcurl ltac:(done));
    repeat quiet_step.
Qed.

Lemma quiet_reset_patchers :
  quiet (fun e => e = AttributeError \/ botocore_names_missing sys_modules g e)
        (reset_patchers sys_modules g).
Proof.
  unfold reset_patchers.
  apply quiet_bind; [eapply quiet_weaken; [|apply quiet_reset_httplib]; by left|intros ?].
  apply quiet_bind; [eapply quiet_weaken; [|apply quiet_reset_urllib3]; by left|intros ?].
  apply quiet_bind; [apply quiet_reset_boto3|intros ?].
  apply quiet_bind; [eapply quiet_weaken; [|apply quiet_reset_httplib2]; by left|intros ?].
  apply quiet_bind; [eapply quiet_weaken; [|apply quiet_reset_boto]; by left|intros ?].
  apply quiet_bind; [eapply quiet_weaken; [|apply quiet_reset_tornado]; by left|intros ?].
  apply quiet_ret.
Qed.

End QuietReset.

Section LoadBinds.
Context (sys_modules : gmap string nat).

Lemma capture_bound module path h o h' :
  capture sys_modules module path h = (Returns o, h') ->
  is_Some (sys_modules !! module) -> is_Some o.
Proof.
  unfold capture. intros H [m Hm]. rewrite Hm in H.
  step H. finish H. by eexists.
Qed.

Lemma load_names_bound h0 g h1 :
  load sys_modules h0 = (Returns g, h1) -> saved_names_bound sys_modules g.
Proof.
  intros H. unfold load in H. repeat step H. finish H.
  unfold saved_names_bound. simpl.
  split; [|repeat split; eauto using capture_bound].
  - intros [c Hc] [p Hp].
    apply ret_returns in Ha5 as [-> ->]. rewrite Hc in *. simpl in *.
    apply ret_returns in Ha6 as [-> ->]. rewrite Hp in *. simpl in *.
    repeat split;
      match goal with
      | H : bind (attr _ _) _ _ = (Returns ?r, _) |- is_Some ?r =>
          step H; finish H; by eexists
      end.
  - by intros [x ->]%fmap_is_Some; destruct x; eexists.
  - by intros [x ->]%fmap_is_Some; destruct x; eexists.
Qed.

End LoadBinds.

(** X12: [reset_patchers] and the names saved at load time.  Once
    [patch.py] has been loaded, [reset_patchers] reads the heap without
    changing it, whatever state the process is in, and the only exceptions it
    can raise are AttributeError, when a module lacks a class it is expected
    to have, and NameError in one situation: botocore's [awsrequest] can be
    imported but its two connection classes could not be when the module was
    loaded.  For every other backend the saved name is bound whenever the
    guarding import succeeds. *)
Theorem reset_patchers_after_load sys_modules g h0 h1 h out h' :
  load sys_modules h0 = (Returns g, h1) ->
  reset_patchers sys_modules g h = (out, h') ->
  h' = h
  /\ forall e, out = Raises e ->
       e = AttributeError \/ botocore_names_missing sys_modules g e.
Proof.
  intros Hload Hreset.
  apply (quiet_reset_patchers sys_modules g (load_names_bound _ _ _ _ Hload) _ _ _ Hreset).
Qed.

Lemma reset_patchers_after_load_witness :
  heap_in_session = heap_in_session
  /\ forall e, Returns reset_process = Raises e ->
       e = AttributeError
       \/ botocore_names_missing sys_modules_process globals_process e.
Proof.
  apply (reset_patchers_after_load sys_modules_process globals_process
           heap_process heap_process heap_in_session (Returns reset_process)
           heap_in_session).
  - vm_compute; reflexivity.
  - vm_compute; reflexivity.
Defined.

(** The exceptional case does occur: the module loads, and resetting then
    meets the unbound name. *)
Example reset_patchers_unbound_botocore_name :
  exists g,
    load sys_modules_botocore heap_botocore = (Returns g, heap_botocore)
    /\ reset_patchers sys_modules_botocore g heap_botocore
       = (Raises NameError, heap_botocore).
Proof. eexists. split; vm_compute; reflexivity. Qed.

(** ** [force_reset] is temporary *)

Lemma reset_patchers_reads_only sys_modules g :
  quiet (fun _ => True) (reset_patchers sys_modules g).
Proof.
  unfold reset_patchers, reset_httplib, reset_urllib3, reset_boto3, reset_httplib2,
    reset_boto, reset_tornado.
  repeat quiet_step.
Qed.

(** X13: [force_reset] leaves no trace.  Whatever the body returns or
    raises, and also when a handle cannot be entered or [reset_patchers]
    itself raises, the heap after the block is the heap before it, provided
    the body itself leaves the heap alone.  When every seam that
    [reset_patchers] names is present, the body runs, its outcome is the
    outcome of the block, and inside the block every attribute that is not
    one of these seams is as it was outside. *)
Theorem force_reset_leaves_no_trace {A} sys_modules g (body : M (list pyobj) A) h :
  (forall h1, (body h1).2 = h1) ->
  (force_reset sys_modules g body h).2 = h
  /\ forall ps,
       reset_patchers sys_modules g h = (Returns ps, h) ->
       Forall (fun p => hasattr h (p_target p) (p_attribute p) = true) ps ->
       exists seen,
         force_reset sys_modules g body h = ((body seen).1, h)
         /\ forall o a, (VRef o, a) ∉ patcher_seam <$> ps ->
                        own_attr seen o a = own_attr h o a.
Proof.
  intros Hbody. split.
  - unfold force_reset, bind.
    destruct (reset_patchers sys_modules g h) as [[ps|e] h'] eqn:Hreset;
      destruct (reset_patchers_reads_only _ _ _ _ _ Hreset) as [-> _]; [|done].
    by apply with_exit_stack_restores.
  - intros ps Hreset Hpresent.
    destruct (enter_contexts_spec ps [] h Hpresent)
      as (stack & seen & Henter & Hframe & _).
    exists seen. split; [|done].
    unfold force_reset, bind. rewrite Hreset. unfold with_exit_stack.
    rewrite Henter. specialize (Hbody seen).
    destruct (body seen) as [r h2]. simpl in *. subst h2.
    by rewrite (close_enter_contexts _ _ _ _ _ _ Henter).
Qed.

Lemma force_reset_leaves_no_trace_witness :
  (force_reset sys_modules_process globals_process
     (attr (VRef 8) "HTTPConnection") heap_in_session).2 = heap_in_session
  /\ forall ps,
       reset_patchers sys_modules_process globals_process heap_in_session
         = (Returns ps, heap_in_session) ->
       Forall (fun p => hasattr heap_in_session (p_target p) (p_attribute p) = true) ps ->
       exists seen,
         force_reset sys_modules_process globals_process
           (attr (VRef 8) "HTTPConnection") heap_in_session
         = ((attr (VRef 8) "HTTPConnection" seen).1, heap_in_session)
         /\ forall o a, (VRef o, a) ∉ patcher_seam <$> ps ->
                        own_attr seen o a = own_attr heap_in_session o a.
Proof.
  apply (force_reset_leaves_no_trace sys_modules_process globals_process
           (attr (VRef 8) "HTTPConnection") heap_in_session).
  intros h1. unfold attr. by destruct (getattr h1 (VRef 8) "HTTPConnection").
Defined.

Example force_reset_shows_original :
  (force_reset sys_modules_process globals_process
     (attr (VRef 8) "HTTPConnection") heap_in_session).1 = Returns (VRef 6)
  /\ (attr (VRef 8) "HTTPConnection" heap_in_session).1 = Returns (VRef 27).
Proof. split; vm_compute; reflexivity. Qed.

(** ** The guards of urllib3 and the classes its pools are given *)

Lemma recursively_apply_grows v : forall w,
  heap_closed (w_heap w) ->
  grows w (_recursively_apply_get_cassette_subclass v w).2.
Proof.
  induction v as [| | | o | |items IH] using value_rect_items; intros w Hcl;
    try (by apply grows_refl).
  - simpl. destruct (hasattr (w_heap w) (VRef o) "cassette"); [|by apply grows_refl].
    unfold bind. pose proof (grows_step o w Hcl) as Hg.
    by destruct (_get_cassette_subclass o w) as [[sub|e] w1].
  - simpl. unfold bind at 1.
    match goal with
    | |- context [?go items w] =>
        enough (Hgo : grows w (go items w).2);
        [by destruct (go items w) as [[items'|e] w1]|]
    end.
    revert w Hcl. induction IH as [|[k x] items Hx _ IHitems]; intros w Hcl.
    { by apply grows_refl. }
    unfold bind at 1. simpl in Hx. specialize (Hx w Hcl).
    destruct (_recursively_apply_get_cassette_subclass x w) as [[x'|e] wa];
      [|done].
    simpl in Hx. unfold bind at 1.
    specialize (IHitems wa (grows_heap_closed _ _ Hx)).
    match goal with
    | |- context [?go items wa] => destruct (go items wa) as [[rest'|e] wb]
    end; simpl in *; by eapply grows_trans.
Qed.

Lemma build_patcher_grows obj patched_attribute replacement_class w :
  heap_closed (w_heap w) ->
  grows w (_build_patcher obj patched_attribute replacement_class w).2.
Proof.
  intros Hcl. unfold _build_patcher.
  destruct (negb _); [by apply grows_refl|].
  unfold bind. pose proof (recursively_apply_grows replacement_class w Hcl) as Hg.
  by destruct (_recursively_apply_get_cassette_subclass replacement_class w)
    as [[new|e] w1].
Qed.

(** Each handle is built from one of the triples; when the replacement of
    that triple is a class whose answer was already fixed, the handle
    installs that answer. *)
Lemma build_patchers_new ts : forall w ps w',
  heap_closed (w_heap w) ->
  _build_patchers_from_mock_triples ts w = (Returns ps, w') ->
  grows w w'
  /\ forall p, p ∈ ps ->
       exists t, t ∈ ts
         /\ patcher_seam p = triple_seam t
         /\ forall k sub, t_replacement t = VRef k -> settled k sub w ->
                          p_new p = VRef sub.
Proof.
  induction ts as [|t ts IH]; intros w ps w' Hcl Hrun; simpl in Hrun.
  { finish Hrun. split; [by apply grows_refl|]. by intros p ?%elem_of_nil. }
  step Hrun. step Hrun. finish Hrun.
  pose proof (build_patcher_grows (t_obj t) (t_attribute t) (t_replacement t) w Hcl)
    as Hg. rewrite Ha in Hg. simpl in Hg.
  destruct (IH _ _ _ (grows_heap_closed _ _ Hg) Ha0) as [Hg' Hrest].
  split; [by eapply grows_trans|].
  assert (Hlater : forall p, p ∈ a0 ->
            exists t', t' ∈ t :: ts /\ patcher_seam p = triple_seam t'
              /\ forall k sub, t_replacement t' = VRef k -> settled k sub w ->
                               p_new p = VRef sub).
  { intros p Hp. destruct (Hrest p Hp) as (t' & Ht' & Hseam & Hnew).
    exists t'. split; [by right|]. split; [done|].
    intros k sub Hk Hs. apply (Hnew k sub Hk).
    by eapply settled_grows. }
  destruct a as [p0|]; [|exact Hlater].
  intros p [->|Hp]%elem_of_cons; [|by apply Hlater].
  exists t. split; [by left|].
  unfold _build_patcher in Ha.
  destruct (negb (hasattr (w_heap w) (t_obj t) (t_attribute t)));
    [discriminate Ha|].
  step Ha. finish Ha.
  match goal with H : Some p0 = Some _ |- _ => injection H as -> end.
  split; [done|]. intros k sub Hk Hs. simpl.
  rewrite Hk in Ha1. simpl in Ha1.
  assert (Hhas : hasattr (w_heap w) (VRef k) "cassette" = true).
  { unfold hasattr. apply bool_decide_eq_true.
    destruct Hs as [[_ (v & Hv & _)]|(_ & Hv & _)]; by eexists. }
  rewrite Hhas in Ha1. unfold bind in Ha1. rewrite (settled_get _ _ _ Hs) in Ha1.
  by injection Ha1 as <- <-.
Qed.

Lemma lift_attr_returns x a w v w' :
  lift (attr x a) w = (Returns v, w') ->
  w' = w /\ getattr (w_heap w) x a = Some v.
Proof.
  intros H. apply lift_returns in H as (h' & H & ->).
  apply attr_returns in H as [-> H]. split; [by destruct w|done].
Qed.

Lemma lift_alloc_grows ob w v w' :
  py_mro ob = [] ->
  heap_closed (w_heap w) ->
  lift (alloc ob) w = (Returns v, w') -> grows w w'.
Proof.
  intros Hmro Hcl H. apply lift_returns in H as (h' & H & ->).
  injection H as _ <-. split; [|done]. split; [done|]. split; [|by eexists].
  simpl. apply heap_closed_alloc; [done|]. rewrite Hmro. constructor.
Qed.

Lemma Mock_grows w v w' :
  heap_closed (w_heap w) -> Mock w = (Returns v, w') -> grows w w'.
Proof.
  intros Hcl H. unfold Mock in H. eapply lift_alloc_grows; [|done|exact H]. done.
Qed.

Lemma patched_get_conn_grows c w v w' :
  heap_closed (w_heap w) -> _patched_get_conn c w = (Returns v, w') -> grows w w'.
Proof.
  intros Hcl H. unfold _patched_get_conn in H. step H.
  apply lift_attr_returns in Ha as [-> _].
  eapply lift_alloc_grows; [|done|exact H]. done.
Qed.

Lemma patched_new_conn_grows c w v w' :
  heap_closed (w_heap w) -> _patched_new_conn c w = (Returns v, w') -> grows w w'.
Proof.
  intros Hcl H. unfold _patched_new_conn in H. step H.
  apply lift_attr_returns in Ha as [-> _].
  eapply lift_alloc_grows; [|done|exact H]. done.
Qed.

Lemma get_cassette_subclass_of_settles v sub w w' :
  heap_closed (w_heap w) ->
  get_cassette_subclass_of v w = (Returns sub, w') ->
  grows w w' /\ exists k, v = VRef k /\ settled k sub w'.
Proof.
  intros Hcl H. destruct v as [| | |k| |]; try discriminate H. simpl in H.
  pose proof (grows_step k w Hcl) as Hg. rewrite H in Hg. split; [done|].
  exists k. split; [done|]. by eapply get_cassette_subclass_settles.
Qed.

Lemma grows_getattr w w' x a v :
  heap_closed (w_heap w) -> grows w w' ->
  getattr (w_heap w) x a = Some v -> getattr (w_heap w') x a = Some v.
Proof. intros Hcl [(_ & _ & ext & ->) _]. by apply getattr_app. Qed.

(** What [_urllib3_patchers] has ready: the two guards are made for the
    substitutes of the two stub classes, and these same stub classes are the
    replacements in the triples. *)
Lemma urllib3_patchers_settled cpool conn stubs w u w1 :
  heap_closed (w_heap w) ->
  _urllib3_patchers cpool conn stubs w = (Returns u, w1) ->
  grows w w1
  /\ exists k1 k2 http https hp hsp m f1 f2 f3 f4,
       removers u = [ConnectionRemover.__init__ http; ConnectionRemover.__init__ https]
       /\ settled k1 http w1 /\ settled k2 https w1
       /\ getattr (w_heap w1) cpool "HTTPConnectionPool" = Some hp
       /\ getattr (w_heap w1) cpool "HTTPSConnectionPool" = Some hsp
       /\ mock_triples u
          = [ Triple conn "VerifiedHTTPSConnection" (VRef k2);
              Triple conn "HTTPConnection" (VRef k1);
              Triple conn "HTTPSConnection" (VRef k2);
              Triple cpool "is_connection_dropped" m;
              Triple hp "ConnectionCls" (VRef k1);
              Triple hsp "ConnectionCls" (VRef k2);
              Triple hp "_get_conn" f1;
              Triple hsp "_get_conn" f2;
              Triple hp "_new_conn" f3;
              Triple hsp "_new_conn" f4 ].
Proof.
  intros Hcl H. unfold _urllib3_patchers in H. repeat step H. finish H.
  apply lift_attr_returns in Ha as [-> Hstub1].
  apply get_cassette_subclass_of_settles in Ha0 as (Hg0 & k1 & -> & Hs1); [|done].
  pose proof (grows_heap_closed _ _ Hg0) as Hcl0.
  apply lift_attr_returns in Ha1 as [-> Hstub2].
  apply get_cassette_subclass_of_settles in Ha2 as (Hg2 & k2 & -> & Hs2); [|done].
  pose proof (grows_heap_closed _ _ Hg2) as Hcl2.
  apply lift_attr_returns in Ha3 as [-> Ht1].
  apply lift_attr_returns in Ha4 as [-> Ht2].
  apply lift_attr_returns in Ha5 as [-> Ht3].
  apply Mock_grows in Ha6 as Hg6; [|done].
  pose proof (grows_heap_closed _ _ Hg6) as Hcl6.
  apply lift_attr_returns in Ha7 as [-> Hhp].
  apply lift_attr_returns in Ha8 as [-> Ht5].
  apply lift_attr_returns in Ha9 as [-> Hhsp].
  apply lift_attr_returns in Ha10 as [-> Ht6].
  apply lift_attr_returns in Ha11 as [-> Hhp'].
  apply patched_get_conn_grows in Ha12 as Hg12; [|done].
  pose proof (grows_heap_closed _ _ Hg12) as Hcl12.
  apply lift_attr_returns in Ha13 as [-> Hhsp'].
  apply patched_get_conn_grows in Ha14 as Hg14; [|done].
  pose proof (grows_heap_closed _ _ Hg14) as Hcl14.
  apply lift_attr_returns in Ha15 as [-> Hhp''].
  apply patched_new_conn_grows in Ha16 as Hg16; [|done].
  pose proof (grows_heap_closed _ _ Hg16) as Hcl16.
  apply lift_attr_returns in Ha17 as [-> Hhsp''].
  apply patched_new_conn_grows in Ha18 as Hg18; [|done].
  pose proof (grows_trans _ _ _ Hg0 Hg2) as Hg02.
  pose proof (grows_trans _ _ _ Hg02 Hg6) as Hg06.
  pose proof (grows_trans _ _ _ (grows_trans _ _ _ (grows_trans _ _ _ Hg12 Hg14) Hg16) Hg18) as Hg6'.
  pose proof (grows_trans _ _ _ Hg6 Hg6') as Hg2'.
  split; [by eapply grows_trans|].
  (* the stub classes are read again and again from a heap that only grows *)
  pose proof (grows_getattr _ _ _ _ _ Hcl Hg02 Hstub1) as Hstub1'.
  pose proof (grows_getattr _ _ _ _ _ Hcl0 Hg2 Hstub2) as Hstub2'.
  rewrite Hstub2' in Ht1, Ht3. rewrite Hstub1' in Ht2.
  injection Ht1 as <-. injection Ht2 as <-. injection Ht3 as <-.
  pose proof (grows_getattr _ _ _ _ _ Hcl2 Hg6 Hstub1') as Hstub1''.
  pose proof (grows_getattr _ _ _ _ _ Hcl2 Hg6 Hstub2') as Hstub2''.
  rewrite Hstub1'' in Ht5. rewrite Hstub2'' in Ht6.
  injection Ht5 as <-. injection Ht6 as <-.
  rewrite Hhp in Hhp'. injection Hhp' as <-.
  pose proof (grows_trans _ _ _ Hg12 Hg14) as Hg614.
  pose proof (grows_trans _ _ _ Hg614 Hg16) as Hg616.
  rewrite (grows_getattr _ _ _ _ _ Hcl6 Hg12 Hhsp) in Hhsp'. injection Hhsp' as <-.
  rewrite (grows_getattr _ _ _ _ _ Hcl6 Hg614 Hhp) in Hhp''. injection Hhp'' as <-.
  rewrite (grows_getattr _ _ _ _ _ Hcl6 Hg616 Hhsp) in Hhsp''. injection Hhsp'' as <-.
  exists k1, k2, a0, a2, a7, a9, a6, a12, a14, a16, a18. simpl.
  split; [done|].
  split; [eapply settled_grows; [exact Hcl0|exact Hs1|]; by eapply grows_trans|].
  split; [by eapply settled_grows; [exact Hcl2|exact Hs2|]|].
  split; [by eapply grows_getattr; [exact Hcl6|exact Hg6'|]|].
  split; [by eapply grows_getattr; [exact Hcl6|exact Hg6'|]|].
  done.
Qed.

(** X14: the guards watch the classes the pools are given.  What the
    urllib3 adapter emits, however much the builder has done between
    preparing and emitting it, is its handles followed by the two guards,
    and the class each guard was made for is the very class the handles
    install: the guard for plain connections goes with [HTTPConnection] and
    with [ConnectionCls] of [HTTPConnectionPool], the guard for TLS
    connections with [HTTPSConnection], [VerifiedHTTPSConnection] and
    [ConnectionCls] of [HTTPSConnectionPool]. *)
Theorem urllib3_guards_match_handles cpool conn stubs w u w1 w2 rs w3 :
  heap_closed (w_heap w) ->
  _urllib3_patchers cpool conn stubs w = (Returns u, w1) ->
  grows w1 w2 ->
  chain_urllib3 (Some u) w2 = (Returns rs, w3) ->
  exists http https ps,
    rs = (RPatch <$> ps)
         ++ [ RRemover (ConnectionRemover.__init__ http);
              RRemover (ConnectionRemover.__init__ https) ]
    /\ forall p, p ∈ ps ->
         (p_attribute p = "HTTPConnection" -> p_new p = VRef http)
         /\ (p_attribute p = "HTTPSConnection"
             \/ p_attribute p = "VerifiedHTTPSConnection" -> p_new p = VRef https)
         /\ (p_attribute p = "ConnectionCls" ->
             (getattr (w_heap w1) cpool "HTTPConnectionPool" = Some (p_target p)
              /\ p_new p = VRef http)
             \/ (getattr (w_heap w1) cpool "HTTPSConnectionPool" = Some (p_target p)
                 /\ p_new p = VRef https)).
Proof.
  intros Hcl Hprep Hg Hemit.
  destruct (urllib3_patchers_settled _ _ _ _ _ _ Hcl Hprep)
    as (Hg1 & k1 & k2 & http & https & hp & hsp & m & f1 & f2 & f3 & f4
        & Hremovers & Hs1 & Hs2 & Hhp & Hhsp & Htriples).
  pose proof (grows_heap_closed _ _ Hg1) as Hcl1.
  pose proof (grows_heap_closed _ _ Hg) as Hcl2.
  simpl in Hemit. step Hemit. finish Hemit.
  destruct (build_patchers_new _ _ _ _ Hcl2 Ha) as [_ Hnew].
  exists http, https, a. rewrite Hremovers. split; [done|].
  intros p Hp. destruct (Hnew p Hp) as (t & Ht & Hseam & Hrepl).
  pose proof (settled_grows _ _ _ _ Hcl1 Hs1 Hg) as Hs1'.
  pose proof (settled_grows _ _ _ _ Hcl1 Hs2 Hg) as Hs2'.
  injection Hseam as Htarget Hattribute.
  rewrite Htriples in Ht.
  repeat (apply elem_of_cons in Ht as [->|Ht]);
    try (by apply elem_of_nil in Ht);
    simpl in *; rewrite Hattribute;
    (split; [intros [=]|split; [intros [[=]|[=]]|intros [=]]]);
    try (by apply (Hrepl _ _ eq_refl)).
  - left. rewrite Htarget. split; [done|]. by apply (Hrepl _ _ eq_refl).
  - right. rewrite Htarget. split; [done|]. by apply (Hrepl _ _ eq_refl).
Qed.

Lemma heap_process_closed : heap_closed heap_process.
Proof.
  unfold heap_closed.
  apply (bool_decide_unpack _). vm_compute. exact I.
Qed.

Lemma urllib3_guards_match_handles_witness :
  exists http https ps,
    resources_urllib3
    = (RPatch <$> ps)
      ++ [ RRemover (ConnectionRemover.__init__ http);
           RRemover (ConnectionRemover.__init__ https) ]
    /\ forall p, p ∈ ps ->
         (p_attribute p = "HTTPConnection" -> p_new p = VRef http)
         /\ (p_attribute p = "HTTPSConnection"
             \/ p_attribute p = "VerifiedHTTPSConnection" -> p_new p = VRef https)
         /\ (p_attribute p = "ConnectionCls" ->
             (getattr (w_heap world_urllib3) (VRef 15) "HTTPConnectionPool"
                = Some (p_target p)
              /\ p_new p = VRef http)
             \/ (getattr (w_heap world_urllib3) (VRef 15) "HTTPSConnectionPool"
                   = Some (p_target p)
                 /\ p_new p = VRef https)).
Proof.
  apply (urllib3_guards_match_handles (VRef 15) (VRef 8) (VRef 18) world_process
           urllib3_process world_urllib3 world_urllib3 resources_urllib3
           (chain_urllib3 (Some urllib3_process) world_urllib3).2).
  - exact heap_process_closed.
  - vm_compute; reflexivity.
  - apply grows_refl. unfold heap_closed.
    apply (bool_decide_unpack _). vm_compute. exact I.
  - vm_compute; reflexivity.
Defined.

Example urllib3_guards_process :
  resource_label <$> resources_urllib3 = urllib3_order
  /\ drop 10 resources_urllib3
     = [ RRemover (ConnectionRemover.__init__ 27);
         RRemover (ConnectionRemover.__init__ 28) ].
Proof. split; vm_compute; reflexivity. Qed.

(** ** What [build] can raise *)

Lemma only_ret {S A} (P : exn -> Prop) (a : A) : raises_only (S := S) P (ret a).
Proof. by intros s e s' [=]. Qed.

Lemma only_raise {S A} (P : exn -> Prop) e :
  P e -> raises_only (S := S) (A := A) P (raise e).
Proof. by intros He s e' s' [= <- <-]. Qed.

Lemma only_bind {S A B} (P : exn -> Prop) (m : M S A) (k : A -> M S B) :
  raises_only P m -> (forall a, raises_only P (k a)) -> raises_only P (bind m k).
Proof.
  intros Hm Hk s e s'. unfold bind.
  destruct (m s) as [[a|e'] s1] eqn:Hrun.
  - apply Hk.
  - intros [= <- <-]. by eapply Hm.
Qed.

Lemma only_bind_ret {S A B} (P : exn -> Prop) (a : A) (k : A -> M S B) :
  raises_only P (k a) -> raises_only P (bind (ret a) k).
Proof. intros Hk s e s' Hrun. exact (Hk s e s' Hrun). Qed.

Lemma only_gets {S A} (P : exn -> Prop) (f : S -> A) : raises_only P (gets f).
Proof. by intros s e s' [=]. Qed.

Lemma only_lift {A} (P : exn -> Prop) (m : M (list pyobj) A) :
  raises_only P m -> raises_only P (lift m).
Proof.
  intros Hm w e w'. unfold lift. destruct (m (w_heap w)) as [out h'] eqn:Hrun.
  intros [= -> <-]. by eapply Hm.
Qed.

Lemma only_attr x a : raises_only lookup_error (attr x a).
Proof.
  intros h e h'. unfold attr. destruct (getattr h x a); intros [= <- <-].
  right. by left.
Qed.

Lemma only_alloc ob : raises_only lookup_error (alloc ob).
Proof. by intros h e h' [=]. Qed.

Lemma only_import_from sys_modules module name :
  raises_only lookup_error (import_from sys_modules module name).
Proof.
  intros h e h'. unfold import_from. destruct (sys_modules !! module); [|].
  - destruct (getattr h _ name); intros [= <- <-]. by left.
  - intros [= <- <-]. by left.
Qed.

Lemma only_import_module {S} sys_modules name :
  raises_only (S := S) lookup_error (import_module sys_modules name).
Proof.
  unfold import_module. destruct (sys_modules !! name);
    [apply only_ret|apply only_raise; by left].
Qed.

Lemma only_bound_Some {S} (P : exn -> Prop) name :
  is_Some name -> raises_only (S := S) P (bound name).
Proof. intros [v ->]. apply only_ret. Qed.

Lemma only_get_cassette_subclass klass :
  raises_only lookup_error (_get_cassette_subclass klass).
Proof.
  intros w e w' Hrun. pose proof (get_cassette_subclass_cases klass w) as Hcase.
  rewrite Hrun in Hcase. simpl in Hcase. inversion Hcase; subst.
  - right. by left.
  - right. by right.
Qed.

Lemma only_get_cassette_subclass_of v :
  raises_only lookup_error (get_cassette_subclass_of v).
Proof.
  destruct v; try (apply only_raise; right; by left).
  apply only_get_cassette_subclass.
Qed.

Lemma only_recursively_apply v :
  raises_only lookup_error (_recursively_apply_get_cassette_subclass v).
Proof.
  induction v as [| | | o | |items IH] using value_rect_items;
    try apply only_ret.
  - intros w e w'. simpl.
    destruct (hasattr (w_heap w) (VRef o) "cassette"); [|done].
    apply only_bind; [apply only_get_cassette_subclass|intros ?; apply only_ret].
  - simpl. apply only_bind; [|intros ?; apply only_ret].
    induction IH as [|[k x] items Hx _ IHitems]; [apply only_ret|].
    apply only_bind; [exact Hx|intros ?].
    apply only_bind; [exact IHitems|intros ?; apply only_ret].
Qed.

Lemma only_build_patcher obj patched_attribute replacement_class :
  raises_only lookup_error (_build_patcher obj patched_attribute replacement_class).
Proof.
  intros w e w'. unfold _build_patcher. destruct (negb _); [done|].
  apply only_bind; [apply only_recursively_apply|intros ?; apply only_ret].
Qed.

Lemma only_build_patchers ts :
  raises_only lookup_error (_build_patchers_from_mock_triples ts).
Proof.
  induction ts as [|t ts IH]; simpl; [apply only_ret|].
  apply only_bind; [apply only_build_patcher|intros ?].
  apply only_bind; [exact IH|intros ?; apply only_ret].
Qed.

(** Break a method of the builder into its statements. *)
Ltac only_step :=
  first
    [ apply only_ret
    | apply only_gets
    | apply only_build_patchers
    | apply only_get_cassette_subclass_of
    | apply only_import_module
    | apply only_lift;
      first [apply only_attr | apply only_alloc | apply only_import_from]
    | apply only_bound_Some; solve [auto]
    | apply only_bind_ret
    | apply only_bind; [|intros ?]
    | match goal with
      | |- raises_only _ (match ?x with Some _ => _ | None => _ end) =>
          let E := fresh "E" in destruct x eqn:E
      end ].

Lemma only_Mock : raises_only lookup_error Mock.
Proof. unfold Mock. only_step. Qed.

Lemma only_patched_get_conn c : raises_only lookup_error (_patched_get_conn c).
Proof. unfold _patched_get_conn. repeat only_step. Qed.

Lemma only_patched_new_conn c : raises_only lookup_error (_patched_new_conn c).
Proof. unfold _patched_new_conn. repeat only_step. Qed.

Lemma only_urllib3_patchers cpool conn stubs :
  raises_only lookup_error (_urllib3_patchers cpool conn stubs).
Proof.
  unfold _urllib3_patchers.
  repeat first [ apply only_Mock | apply only_patched_get_conn
               | apply only_patched_new_conn | only_step ].
Qed.

Lemma only_chain_urllib3 u : raises_only lookup_error (chain_urllib3 u).
Proof. unfold chain_urllib3. repeat only_step. Qed.

Lemma only_decorator function :
  raises_only lookup_error function ->
  raises_only lookup_error (_build_patchers_from_mock_triples_decorator function).
Proof.
  intros Hf. unfold _build_patchers_from_mock_triples_decorator.
  apply only_bind; [done|intros ?]. repeat only_step.
Qed.

Section OnlyAdapters.
Context (sys_modules : gmap string nat) (g : globals).
Context (Hbound : stub_names_bound sys_modules g).

Lemma only_httplib : raises_only lookup_error (_httplib g).
Proof. unfold _httplib. only_step. Qed.

Lemma only_requests : raises_only lookup_error (_requests sys_modules g).
Proof.
  unfold _requests. repeat first [apply only_urllib3_patchers | only_step].
Qed.

Lemma only_boto3 : raises_only lookup_error (_boto3 sys_modules).
Proof. unfold _boto3. repeat only_step. Qed.

Lemma only_urllib3 : raises_only lookup_error (_urllib3 sys_modules).
Proof.
  unfold _urllib3. repeat first [apply only_urllib3_patchers | only_step].
Qed.

Lemma only_httplib2 : raises_only lookup_error (_httplib2 sys_modules).
Proof. unfold _httplib2. repeat only_step. Qed.

Lemma only_boto : raises_only lookup_error (_boto sys_modules).
Proof. unfold _boto. repeat only_step. Qed.

Lemma only_call_stub module factory original name :
  is_Some original ->
  raises_only lookup_error (call_stub sys_modules module factory original name).
Proof. intros Ho. unfold call_stub. repeat only_step. Qed.

Lemma only_tornado : raises_only lookup_error (_tornado sys_modules g).
Proof.
  destruct Hbound as (Hsimple & Hcurl & _).
  unfold _tornado, try_import.
  destruct (sys_modules !! "tornado.simple_httpclient") as [m|] eqn:Hm;
    destruct (sys_modules !! "tornado.curl_httpclient") as [m'|] eqn:Hm'; simpl;
    try specialize (Hsimple ltac:(done)); try specialize (Hcurl ltac:(done));
    repeat first [apply only_call_stub; assumption | only_step].
Qed.

Lemma only_aiohttp : raises_only lookup_error (_aiohttp sys_modules g).
Proof.
  destruct Hbound as (_ & _ & Haiohttp & _).
  unfold _aiohttp, try_import.
  destruct (sys_modules !! "aiohttp.client") as [m|] eqn:Hm; simpl;
    try specialize (Haiohttp ltac:(done));
    repeat first [apply only_call_stub; assumption | only_step].
Qed.

Lemma only_httpx : raises_only lookup_error (_httpx sys_modules g).
Proof.
  destruct Hbound as (_ & _ & _ & Hhttpx).
  unfold _httpx, try_import.
  destruct (sys_modules !! "httpx") as [m|] eqn:Hm; simpl;
    [destruct Hhttpx as [Hsync Hasync]; [done|]|];
    repeat first [apply only_call_stub; assumption | only_step].
Qed.

Lemma only_build : raises_only lookup_error (build sys_modules g).
Proof.
  unfold build.
  apply only_bind; [apply only_requests|intros ?].
  apply only_bind; [apply only_urllib3|intros ?].
  apply only_bind; [apply only_gets|intros ?].
  apply only_bind; [apply only_decorator, only_httplib|intros ?].
  apply only_bind; [apply only_chain_urllib3|intros ?].
  apply only_bind; [apply only_decorator, only_boto3|intros ?].
  apply only_bind; [apply only_chain_urllib3|intros ?].
  apply only_bind; [apply only_decorator, only_httplib2|intros ?].
  apply only_bind; [apply only_decorator, only_boto|intros ?].
  apply only_bind; [apply only_decorator, only_tornado|intros ?].
  apply only_bind; [apply only_decorator, only_aiohttp|intros ?].
  apply only_bind; [apply only_decorator, only_httpx|intros ?].
  apply only_bind; [apply only_build_patchers|intros ?].
  apply only_ret.
Qed.

End OnlyAdapters.

Lemma load_stub_names_bound sys_modules h0 g h1 :
  load sys_modules h0 = (Returns g, h1) -> stub_names_bound sys_modules g.
Proof.
  intros H. unfold load in H. repeat step H. finish H.
  unfold stub_names_bound. simpl. repeat split; eauto using capture_bound.
Qed.

(** X15: what [build] can raise.  Once [patch.py] has been loaded, building
    the handles of a session, whatever the session and the state of the
    process, raises nothing but ImportError (a stub module or one of its
    names cannot be imported), AttributeError (an object lacks an attribute
    it is expected to have) or TypeError (a replacement that is to be
    subclassed is not a class); in particular the originals handed to the
    stub factories of tornado, aiohttp and httpx are bound whenever the
    backend can be imported, so that no NameError and no KeyError can come
    out. *)
Theorem build_raises_lookup_errors_only sys_modules g h0 h1 w e w' :
  load sys_modules h0 = (Returns g, h1) ->
  build sys_modules g w = (Raises e, w') ->
  e = ImportError \/ e = AttributeError \/ e = TypeError.
Proof.
  intros Hload Hbuild.
  exact (only_build sys_modules g (load_stub_names_bound _ _ _ _ Hload) _ _ _ Hbuild).
Qed.

Lemma build_raises_lookup_errors_only_witness :
  load sys_modules_botocore heap_botocore = (Returns globals_botocore, heap_botocore)
  /\ (build sys_modules_botocore globals_botocore world_botocore).1 = Raises ImportError
  /\ (ImportError = ImportError \/ ImportError = AttributeError
      \/ ImportError = TypeError).
Proof.
  split; [vm_compute; reflexivity|]. split; [vm_compute; reflexivity|].
  apply (build_raises_lookup_errors_only sys_modules_botocore globals_botocore
           heap_botocore heap_botocore world_botocore ImportError
           (build sys_modules_botocore globals_botocore world_botocore).2).
  - vm_compute; reflexivity.
  - vm_compute; reflexivity.
Defined.

(** ** The originals are the values at load *)

Section LoadValues.
Context (sys_modules : gmap string nat).

Lemma at_load_attr h0 x a v :
  getattr h0 x a = Some v -> at_load h0 x [a] = Some v.
Proof. intros H. unfold at_load. simpl. unfold bind, attr. by rewrite H. Qed.

Lemma capture_at_load module path h o h' m :
  capture sys_modules module path h = (Returns o, h') ->
  sys_modules !! module = Some m ->
  h' = h /\ o = at_load h (VRef m) path /\ is_Some o.
Proof.
  unfold capture, at_load. intros H Hm. rewrite Hm in H.
  step H. finish H.
  pose proof (attr_path_returns _ _ _ _ _ Ha) as [-> _].
  rewrite Ha. simpl. by eauto.
Qed.

Lemma import_from_at_load module name h v h' m :
  import_from sys_modules module name h = (Returns v, h') ->
  sys_modules !! module = Some m ->
  at_load h (VRef m) [name] = Some v.
Proof.
  unfold import_from. intros H Hm. rewrite Hm in H.
  destruct (getattr h (VRef m) name) eqn:Hget; [|discriminate H].
  injection H as <- <-. by apply at_load_attr.
Qed.

Lemma load_boto3_at_load h o h' m :
  load_boto3 sys_modules h = (Returns o, h') ->
  sys_modules !! "botocore.awsrequest" = Some m ->
  h' = h
  /\ forall http https, o = Some (http, https) ->
       at_load h (VRef m) ["AWSHTTPConnection"] = Some http
       /\ at_load h (VRef m) ["AWSHTTPSConnection"] = Some https.
Proof.
  intros H Hm. pose proof (load_boto3_returns _ _ _ _ H) as [-> _].
  split; [done|]. intros http https ->. unfold load_boto3 in H.
  destruct (import_from sys_modules "botocore.awsrequest" "AWSHTTPConnection" h)
    as [[a|e] h1] eqn:H1.
  - destruct (import_from sys_modules "botocore.awsrequest" "AWSHTTPSConnection" h)
      as [[b|e] h2] eqn:H2.
    + injection H as <- <-. split; by eapply import_from_at_load.
    + by destruct (sys_modules !! "botocore.vendored.requests").
  - by destruct (sys_modules !! "botocore.vendored.requests").
Qed.

End LoadValues.

(** The state of a module-level statement that returned is the state it
    started from. *)
Ltac same_heap :=
  repeat match goal with
    | H : import_module _ _ ?s = (Returns _, ?s') |- _ =>
        tryif constr_eq s s' then fail else
          (pose proof (import_module_returns _ _ _ _ _ H); subst s')
    | H : import_from _ _ _ ?s = (Returns _, ?s') |- _ =>
        tryif constr_eq s s' then fail else
          (pose proof (proj1 (import_from_returns _ _ _ _ _ _ H)); subst s')
    | H : attr _ _ ?s = (Returns _, ?s') |- _ =>
        tryif constr_eq s s' then fail else
          (pose proof (proj1 (attr_returns _ _ _ _ _ H)); subst s')
    | H : load_boto3 _ ?s = (Returns _, ?s') |- _ =>
        tryif constr_eq s s' then fail else
          (pose proof (proj1 (load_boto3_returns _ _ _ _ H)); subst s')
    | H : load_requests _ ?s = (Returns _, ?s') |- _ =>
        tryif constr_eq s s' then fail else
          (pose proof (load_requests_returns _ _ _ _ H); subst s')
    | H : capture _ _ ?path ?s = (Returns _, ?s') |- _ =>
        tryif constr_eq s s' then fail else
          (pose proof (proj1 (capture_returns _ _ path _ _ _ ltac:(done) H)); subst s')
    | H : try_import _ _ ?s = (Returns _, ?s') |- _ =>
        tryif constr_eq s s' then fail else
          (pose proof (proj2 (ret_returns _ _ _ _ H)); subst s')
    | H : match ?o with Some _ => try_import _ _ | None => ret None end ?s
          = (Returns _, ?s') |- _ =>
        tryif constr_eq s s' then fail else
          (assert (s' = s) by (destruct o; by apply ret_returns in H as [_ ?]);
           subst s')
    | H : match ?o with Some _ => bind (attr _ _) _ | None => ret None end ?s
          = (Returns _, ?s') |- _ =>
        tryif constr_eq s s' then fail else
          (pose proof (proj1 (optional_attr_returns _ _ _ _ _ H)); subst s')
    end.

Lemma attr_some_at_load x a h r h' :
  (let* v := attr x a in ret (Some v)) h = (Returns r, h') -> r = at_load h x [a].
Proof.
  intros H. step H. finish H. apply attr_returns in Ha as [-> Ha].
  symmetry. by apply at_load_attr.
Qed.

Lemma load_values sys_modules h0 g h1 :
  load sys_modules h0 = (Returns g, h1) -> saved_at_load sys_modules h0 g.
Proof.
  intros H. unfold load in H. repeat step H. finish H. same_heap.
  unfold saved_at_load. simpl. split; [|split; [|split; [|split; [|split; [|split]]]]].
  - unfold import_module in Ha.
    destruct (sys_modules !! "http.client") as [m|] eqn:Hm; [|discriminate Ha].
    finish Ha. exists m. split; [done|]. split; [done|].
    apply attr_returns in Ha2 as [_ Ha2]. apply attr_returns in Ha3 as [_ Ha3].
    split; by apply at_load_attr.
  - intros c p Hc Hp.
    apply ret_returns in Ha5 as [-> _]. rewrite Hc in *. simpl in *.
    apply ret_returns in Ha6 as [-> _]. rewrite Hp in *. simpl in *.
    repeat split; eapply attr_some_at_load; eassumption.
  - intros m Hm.
    destruct (load_boto3_at_load _ _ _ _ _ Ha4 Hm) as [_ Hboto].
    destruct a4 as [[http https]|]; simpl.
    + destruct (Hboto _ _ eq_refl) as [-> ->]. by split.
    + split; by intros [? [=]].
  - intros m Hm. repeat split; by eapply capture_at_load.
  - intros m Hm. by eapply capture_at_load.
  - intros m Hm. by eapply capture_at_load.
  - intros m Hm. by eapply capture_at_load.
Qed.

(** ** [reset_patchers] names the seams to restore, each with its value at load *)

(** Take a run of [reset_patchers] apart, keeping what was read. *)
Ltac reset_step :=
  match goal with
  | H : bind _ _ _ = (Returns _, _) |- _ => step H
  | H : ret _ _ = (Returns _, _) |- _ => finish H
  | H : raise _ _ = (Returns _, _) |- _ => discriminate H
  | H : attr _ _ _ = (Returns _, _) |- _ =>
      let E := fresh in apply attr_returns in H as [E H]; subst
  | H : bound _ _ = (Returns _, _) |- _ =>
      let E := fresh in apply bound_returns in H as [E H]; subst
  | H : gets _ _ = (Returns _, _) |- _ =>
      let E1 := fresh in let E2 := fresh in
      apply ret_returns in H as [E1 E2]; subst
  | H : (if hasattr ?h ?x ?a then _ else _) _ = (Returns _, _) |- _ =>
      let E := fresh "Hhas" in destruct (hasattr h x a) eqn:E
  end.

Ltac reset_close :=
  split; [done|]; simpl;
  repeat (match goal with
          | H : getattr _ _ _ = Some _ |- _ => rewrite H
          | H : hasattr _ _ _ = _ |- _ => rewrite H
          end; simpl);
  unfold handle_entry, patch_object, patcher_seam; simpl;
  repeat match goal with
    | H1 : ?f = Some ?x, H2 : ?f = Some ?y |- _ =>
        tryif constr_eq H1 H2 then fail
        else (rewrite H1 in H2; injection H2 as <-)
    end;
  repeat match goal with
    | E : _ = at_load _ _ _ |- _ => rewrite <- E; clear E
    end;
  repeat match goal with
    | H : _ = Some _ |- _ => rewrite H
    end;
  done.

Section ResetExact.
Context (sys_modules : gmap string nat) (g : globals) (h0 : list pyobj).
Context (Hsaved : saved_at_load sys_modules h0 g).

Lemma reset_httplib_exact h ps h' :
  reset_httplib g h = (Returns ps, h') ->
  h' = h /\ handle_entry <$> ps = expect_httplib sys_modules h0.
Proof.
  destruct Hsaved as ((m & Hm & Hg & H1 & H2) & _).
  intros H. unfold reset_httplib in H. finish H. split; [done|].
  unfold expect_httplib. by rewrite Hm, Hg, H1, H2.
Qed.

Lemma reset_urllib3_exact h ps h' :
  reset_urllib3 sys_modules g h = (Returns ps, h') ->
  h' = h /\ handle_entry <$> ps = expect_urllib3 sys_modules h0 h.
Proof.
  destruct Hsaved as (_ & Hurllib3 & _).
  intros H. unfold reset_urllib3, try_import, expect_urllib3 in *.
  destruct (sys_modules !! "urllib3.connection") as [c|] eqn:Hc; simpl in H.
  - destruct (sys_modules !! "urllib3.connectionpool") as [p|] eqn:Hp; simpl in H.
    + destruct (Hurllib3 c p eq_refl eq_refl) as (E1 & E2 & E3).
      repeat reset_step; reset_close.
    + finish H. by split.
  - finish H. by split.
Qed.

Lemma reset_boto3_exact h ps h' :
  reset_boto3 sys_modules g h = (Returns ps, h') ->
  h' = h /\ handle_entry <$> ps = expect_boto3 sys_modules h0 h.
Proof.
  destruct Hsaved as (_ & _ & Hboto3 & _).
  intros H. unfold reset_boto3, try_import, expect_boto3 in *.
  destruct (sys_modules !! "botocore.awsrequest") as [m|] eqn:Hm; simpl in H.
  - destruct (Hboto3 m eq_refl) as (E1 & E2).
    repeat reset_step;
      try (specialize (E1 ltac:(by eexists))); try (specialize (E2 ltac:(by eexists)));
      reset_close.
  - finish H. by split.
Qed.

Lemma reset_httplib2_exact h ps h' :
  reset_httplib2 sys_modules g h = (Returns ps, h') ->
  h' = h /\ handle_entry <$> ps = expect_httplib2 sys_modules h0.
Proof.
  destruct Hsaved as (_ & _ & _ & Hhttplib2 & _).
  intros H. unfold reset_httplib2, try_import, expect_httplib2 in *.
  destruct (sys_modules !! "httplib2") as [m|] eqn:Hm; simpl in H.
  - destruct (Hhttplib2 m eq_refl) as (E1 & E2 & E3).
    repeat reset_step; reset_close.
  - finish H. by split.
Qed.

Lemma reset_boto_exact h ps h' :
  reset_boto sys_modules g h = (Returns ps, h') ->
  h' = h /\ handle_entry <$> ps = expect_boto sys_modules h0.
Proof.
  destruct Hsaved as (_ & _ & _ & _ & Hboto & _).
  intros H. unfold reset_boto, try_import, expect_boto in *.
  destruct (sys_modules !! "boto.https_connection") as [m|] eqn:Hm; simpl in H.
  - pose proof (Hboto m eq_refl) as E1.
    repeat reset_step; reset_close.
  - finish H. by split.
Qed.

Lemma reset_tornado_exact h ps h' :
  reset_tornado sys_modules g h = (Returns ps, h') ->
  h' = h /\ handle_entry <$> ps = expect_tornado sys_modules h0 h.
Proof.
  destruct Hsaved as (_ & _ & _ & _ & _ & Hsimple & Hcurl).
  intros H. unfold reset_tornado, try_import, expect_tornado, expect_fetch_impl in *.
  destruct (sys_modules !! "tornado.simple_httpclient") as [m|] eqn:Hm;
    destruct (sys_modules !! "tornado.curl_httpclient") as [m'|] eqn:Hm';
    simpl in H;
    try (pose proof (Hsimple m eq_refl) as E1);
    try (pose proof (Hcurl m' eq_refl) as E2);
    repeat reset_step; reset_close.
Qed.

Lemma reset_patchers_exact h ps h' :
  reset_patchers sys_modules g h = (Returns ps, h') ->
  h' = h /\ handle_entry <$> ps = reset_expectation sys_modules h0 h.
Proof.
  intros H. unfold reset_patchers in H. repeat step H. finish H.
  apply reset_httplib_exact in Ha as [-> E1].
  apply reset_urllib3_exact in Ha0 as [-> E2].
  apply reset_boto3_exact in Ha1 as [-> E3].
  apply reset_httplib2_exact in Ha2 as [-> E4].
  apply reset_boto_exact in Ha3 as [-> E5].
  apply reset_tornado_exact in Ha4 as [-> E6].
  split; [done|]. unfold reset_expectation.
  by rewrite !fmap_app, E1, E2, E3, E4, E5, E6.
Qed.

End ResetExact.

(** C9 (amended): the handles of [reset_patchers] are, seam by seam and in
    order, those of [reset_expectation]: the connection classes of
    [http.client] and [urllib3.connection], the [ConnectionCls] of the pool
    classes of urllib3 and botocore, botocore's [AWSHTTPSConnection], the
    three names of httplib2, boto's connection class and tornado's two
    [fetch_impl].  Entering [force_reset] writes to each of them the value
    its attribute had when [patch.py] was loaded ([ConnectionCls] gets the
    connection class its module had then), whatever the seam holds now; the
    pool primitives [_get_conn] and [_new_conn] and [is_connection_dropped]
    are not among these seams and keep the value they have. *)
Theorem force_reset_restores_saved_originals sys_modules g h0 h ps h' :
  load sys_modules h0 = (Returns g, h0) ->
  reset_patchers sys_modules g h = (Returns ps, h') ->
  Forall (fun p => hasattr h (p_target p) (p_attribute p) = true) ps ->
  NoDup (patcher_seam <$> ps) ->
  exists seen,
    force_reset sys_modules g (gets (fun h => h)) h = (Returns seen, h)
    /\ handle_entry <$> ps = reset_expectation sys_modules h0 h
    /\ Forall (fun e => is_Some (snd e) /\ seam_value seen (fst e) = snd e)
              (reset_expectation sys_modules h0 h)
    /\ (forall p, p ∈ ps ->
          seam_value seen (patcher_seam p) = Some (p_new p)
          /\ read_from h0 (p_new p))
    /\ (forall o a, a ∈ pool_primitive_names ->
          own_attr seen o a = own_attr h o a).
Proof.
  intros Hload Hreset Hpresent Hnd.
  pose proof (reset_patchers_spec _ _ _ _ _ Hreset) as [-> Hsaved].
  pose proof (reset_patchers_exact _ _ _ (load_values _ _ _ _ Hload) _ _ _ Hreset)
    as [_ Hexact].
  destruct (load_saved _ _ _ _ Hload) as [_ Hread].
  destruct (enter_contexts_spec ps [] h Hpresent)
    as (stack & seen & Henter & Hframe & Hvalues).
  exists seen. split; [|split; [done|split; [|split]]].
  - unfold force_reset, bind. rewrite Hreset. unfold with_exit_stack.
    rewrite Henter. simpl.
    by rewrite (close_enter_contexts _ _ _ _ _ _ Henter).
  - rewrite <- Hexact. apply Forall_fmap, Forall_forall. intros p Hp. simpl.
    split; [by eexists|]. by apply Hvalues.
  - intros p Hp. split; [by apply Hvalues|].
    rewrite Forall_forall in Hsaved. rewrite Forall_forall in Hread.
    destruct (Hsaved p Hp) as [_ Hin]. by eapply Hread.
  - intros o a Ha. apply Hframe. intros Hin.
    apply list_elem_of_fmap in Hin as (p & Hseam & Hp).
    rewrite Forall_forall in Hsaved. destruct (Hsaved p Hp) as [Hname _].
    unfold patcher_seam in Hseam. injection Hseam as _ ->.
    by apply (pool_primitives_not_reset (p_attribute p)).
Qed.

Lemma force_reset_restores_saved_originals_witness :
  exists seen,
    force_reset sys_modules_process globals_process (gets (fun h => h)) heap_in_session
      = (Returns seen, heap_in_session)
    /\ handle_entry <$> reset_process
       = reset_expectation sys_modules_process heap_process heap_in_session
    /\ Forall (fun e => is_Some (snd e) /\ seam_value seen (fst e) = snd e)
              (reset_expectation sys_modules_process heap_process heap_in_session)
    /\ (forall p, p ∈ reset_process ->
          seam_value seen (patcher_seam p) = Some (p_new p)
          /\ read_from heap_process (p_new p))
    /\ (forall o a, a ∈ pool_primitive_names ->
          own_attr seen o a = own_attr heap_in_session o a).
Proof.
  apply (force_reset_restores_saved_originals sys_modules_process globals_process
           heap_process heap_in_session reset_process heap_in_session).
  - vm_compute; reflexivity.
  - vm_compute; reflexivity.
  - apply Forall_present_forallb. vm_compute; reflexivity.
  - apply NoDup_seams_by_key. vm_compute; reflexivity.
Defined.

(** In the session on the process above, the seams to restore and their
    values at load: the two pool classes go back to the connection classes
    of [urllib3.connection]. *)
Example reset_expectation_process :
  reset_expectation sys_modules_process heap_process heap_in_session
  = [ ((VRef 4, "HTTPConnection"), Some (VRef 2));
      ((VRef 4, "HTTPSConnection"), Some (VRef 3));
      ((VRef 8, "VerifiedHTTPSConnection"), Some (VRef 7));
      ((VRef 8, "HTTPConnection"), Some (VRef 6));
      ((VRef 8, "HTTPSConnection"), Some (VRef 7));
      ((VRef 12, "ConnectionCls"), Some (VRef 6));
      ((VRef 13, "ConnectionCls"), Some (VRef 7)) ].
Proof. vm_compute; reflexivity. Qed.

(** ** What [build] emits *)

Lemma getattr_allocated h x a v :
  Forall (fun ob => map_Forall (fun _ v => allocated h v = true) (py_dict ob)) h ->
  getattr h x a = Some v -> allocated h v = true.
Proof.
  intros Hwf. destruct x as [| | |o| |]; try done. unfold getattr.
  destruct (h !! o) as [ob|] eqn:Ho; [|done].
  assert (Hres : forall chain v, resolve_attr h chain a = Some v -> allocated h v = true).
  { induction chain as [|c chain IH]; intros v'; simpl; [done|].
    unfold own_attr at 1. destruct (h !! c) as [ob'|] eqn:Hc; [|apply IH].
    destruct (py_dict ob' !! a) as [v''|] eqn:Hv; [|apply IH].
    intros [= <-]. rewrite Forall_forall in Hwf.
    exact (Hwf ob' (list_elem_of_lookup_2 _ _ _ Hc) a v'' Hv). }
  destruct (py_kind ob); try apply Hres.
  destruct (resolve_attr h (o :: py_mro ob) a) as [v'|] eqn:Hr.
  - intros [= <-]. by eapply Hres.
  - intros [= <-]. simpl. apply bool_decide_eq_true. by eapply lookup_lt_Some.
Qed.

Lemma grows_getattr_eq w w' x a :
  heap_closed (w_heap w) -> grows w w' -> allocated (w_heap w) x = true ->
  getattr (w_heap w') x a = getattr (w_heap w) x a.
Proof.
  intros Hcl [(_ & _ & ext & ->) _] Hx. destruct x as [| | |o| |]; try done.
  simpl in Hx. apply bool_decide_eq_true in Hx. by apply getattr_app_eq.
Qed.

Lemma emitted_present h ts :
  List.filter (emitted h) (Some ∘ triple_seam <$> ts)
  = Some ∘ triple_seam <$> List.filter (present h) ts.
Proof.
  induction ts as [|t ts IH]; [done|]. simpl.
  unfold present at 1. destruct (hasattr h (t_obj t) (t_attribute t)); simpl;
    [f_equal|]; exact IH.
Qed.

(** The handles are those of the triples whose target has the attribute,
    in the order of the triples. *)
Lemma build_patchers_exact ts : forall w ps w',
  heap_closed (w_heap w) ->
  Forall (fun t => allocated (w_heap w) (t_obj t) = true) ts ->
  _build_patchers_from_mock_triples ts w = (Returns ps, w') ->
  grows w w'
  /\ patcher_seam <$> ps = triple_seam <$> List.filter (present (w_heap w)) ts.
Proof.
  induction ts as [|t ts IH]; intros w ps w' Hcl Halloc Hrun; simpl in Hrun.
  { finish Hrun. split; [by apply grows_refl|done]. }
  apply Forall_cons in Halloc as [Ht Hts].
  step Hrun. step Hrun. finish Hrun.
  pose proof (build_patcher_grows (t_obj t) (t_attribute t) (t_replacement t) w Hcl)
    as Hg. rewrite Ha in Hg. simpl in Hg.
  destruct (IH s a0 s0) as [Hg' Hrest]; [by eapply grows_heap_closed| |done|].
  { destruct Hg as [(_ & _ & ext & ->) _].
    eapply Forall_impl; [exact Hts|]. intros t'. apply allocated_app. }
  split; [by eapply grows_trans|].
  assert (Hsame : List.filter (present (w_heap s)) ts
                  = List.filter (present (w_heap w)) ts).
  { apply filter_ext_in. intros t' Hin. unfold present.
    apply grows_hasattr; [done..|].
    rewrite Forall_forall in Hts. apply Hts. by apply list_elem_of_In. }
  rewrite Hsame in Hrest. cbn [List.filter]. unfold present at 1.
  unfold _build_patcher in Ha.
  destruct (hasattr (w_heap w) (t_obj t) (t_attribute t)); simpl in Ha.
  - step Ha. finish Ha. by rewrite !fmap_cons, Hrest.
  - injection Ha as <- <-. done.
Qed.

Lemma lift_import_from_returns sys_modules module name w v w' :
  lift (import_from sys_modules module name) w = (Returns v, w') -> w' = w.
Proof.
  intros H. apply lift_returns in H as (h' & H & ->).
  apply import_from_returns in H as [-> _]. by destruct w.
Qed.

Lemma call_stub_grows sys_modules module factory original name w v w' :
  heap_closed (w_heap w) ->
  call_stub sys_modules module factory original name w = (Returns v, w') ->
  grows w w'.
Proof.
  intros Hcl H. unfold call_stub in H. step H. step H.
  apply lift_import_from_returns in Ha as ->.
  apply bound_returns in Ha0 as [-> _].
  eapply lift_alloc_grows; [|done|exact H]. done.
Qed.

(** One statement of an adapter that only reads. *)
Ltac adapter_step :=
  match goal with
  | H : bind _ _ _ = (Returns _, _) |- _ => step H
  | H : ret _ _ = (Returns _, _) |- _ => finish H
  | H : raise _ _ = (Returns _, _) |- _ => discriminate H
  | H : lift (attr _ _) _ = (Returns _, _) |- _ =>
      apply lift_attr_returns in H as [-> H]
  | H : lift (import_from _ _ _) _ = (Returns _, _) |- _ =>
      apply lift_import_from_returns in H as ->
  | H : import_module _ _ _ = (Returns _, _) |- _ =>
      apply import_module_returns in H as ->
  end.

(** The calls of stub factories only add to the heap. *)
Ltac stub_grows :=
  repeat match goal with
    | Hcl : heap_closed (w_heap ?s),
      H : call_stub _ _ _ _ _ ?s = (Returns _, ?s') |- _ =>
        let Hg := fresh "Hg" in
        pose proof (call_stub_grows _ _ _ _ _ _ _ _ Hcl H) as Hg; clear H;
        pose proof (grows_heap_closed _ _ Hg)
    end.

Section BuildExact.
Context (sys_modules : gmap string nat) (g : globals) (w0 : world).
Context (Hok : process_ok sys_modules g (w_heap w0)).

Local Abbreviation h := (w_heap w0).

Lemma ok_closed : heap_closed h.
Proof. by destruct Hok. Qed.

Lemma ok_module name m : sys_modules !! name = Some m -> allocated h (VRef m) = true.
Proof.
  destruct Hok as (_ & _ & Hmods & _). intros Hm. simpl.
  apply bool_decide_eq_true. by apply (Hmods name m).
Qed.

Lemma ok_getattr w x a v :
  grows w0 w -> allocated h x = true ->
  getattr (w_heap w) x a = Some v ->
  getattr h x a = Some v /\ allocated h v = true.
Proof.
  intros Hg Hx Hv. rewrite (grows_getattr_eq w0 w) in Hv by (done || apply ok_closed).
  split; [done|]. destruct Hok as (_ & Hattrs & _). by eapply getattr_allocated.
Qed.

(** The handles of a list of triples, seen from the heap [build] started
    with. *)
Lemma build_patchers_exact_from ts w ps w' :
  grows w0 w ->
  Forall (fun t => allocated h (t_obj t) = true) ts ->
  _build_patchers_from_mock_triples ts w = (Returns ps, w') ->
  grows w0 w'
  /\ patcher_seam <$> ps = triple_seam <$> List.filter (present h) ts.
Proof.
  intros Hg Halloc Hrun. pose proof Hg as [(_ & Hcl & ext & Hext) _].
  destruct (build_patchers_exact ts w ps w' Hcl) as [Hg' Hseams]; [|done|].
  { eapply Forall_impl; [exact Halloc|]. intros t. rewrite Hext. apply allocated_app. }
  split; [by eapply grows_trans|]. rewrite Hseams. f_equal.
  apply filter_ext_in. intros t Hin. unfold present.
  apply grows_hasattr; [apply ok_closed|done|].
  rewrite Forall_forall in Halloc. apply Halloc. by apply list_elem_of_In.
Qed.

Lemma decorator_exact function seams w rs w' :
  grows w0 w ->
  (forall ts w1, function w = (Returns ts, w1) ->
     grows w w1 /\ Some ∘ triple_seam <$> ts = seams
     /\ Forall (fun t => allocated h (t_obj t) = true) ts) ->
  _build_patchers_from_mock_triples_decorator function w = (Returns rs, w') ->
  grows w0 w' /\ resource_seam <$> rs = List.filter (emitted h) seams.
Proof.
  intros Hg Hf H. unfold _build_patchers_from_mock_triples_decorator in H.
  step H. step H. finish H.
  destruct (Hf _ _ Ha) as (Hg1 & <- & Halloc).
  destruct (build_patchers_exact_from a s a0 s0) as [Hg2 Hseams];
    [by eapply grows_trans|done..|].
  split; [done|]. rewrite emitted_present.
  rewrite (list_fmap_compose triple_seam Some), <- Hseams.
  by rewrite <- !list_fmap_compose.
Qed.

Lemma httplib_exact w ts w1 :
  _httplib g w = (Returns ts, w1) ->
  grows w0 w ->
  grows w w1
  /\ Some ∘ triple_seam <$> ts
     = [ Some (httplib g, "HTTPConnection"); Some (httplib g, "HTTPSConnection") ]
  /\ Forall (fun t => allocated h (t_obj t) = true) ts.
Proof.
  intros H Hg. unfold _httplib in H. finish H.
  split; [apply grows_refl; by eapply grows_heap_closed|]. split; [done|].
  destruct Hok as (_ & _ & _ & Hhttplib & _). by repeat constructor.
Qed.

Lemma ok_class_seam w m name client attribute target :
  grows w0 w -> sys_modules !! name = Some m ->
  getattr (w_heap w) (VRef m) client = Some target ->
  class_seam h m client attribute = [ Some (target, attribute) ]
  /\ allocated h target = true.
Proof.
  intros Hg Hm Hget.
  destruct (ok_getattr w _ _ _ Hg (ok_module _ _ Hm) Hget) as [E A].
  unfold class_seam. by rewrite E.
Qed.

(** The classes an adapter looked up are those of the heap [build] started
    with. *)
Ltac class_seams :=
  repeat match goal with
    | H : getattr (w_heap ?s) (VRef ?m) ?client = Some ?t,
      Hm : sys_modules !! _ = Some ?m
      |- context [class_seam _ ?m ?client ?attr] =>
        let A := fresh "A" in
        destruct (ok_class_seam s m _ client attr t
                    ltac:(eauto 6 using grows_trans) Hm H) as [-> A];
        clear H
    end.

Ltac adapter_done :=
  split; [eauto 6 using grows_trans|];
  split; [done|]; simpl; repeat constructor; done.

Lemma boto3_exact w ts w1 :
  _boto3 sys_modules w = (Returns ts, w1) ->
  grows w0 w ->
  grows w w1
  /\ Some ∘ triple_seam <$> ts
     = match sys_modules !! "botocore.awsrequest" with
       | Some m =>
           class_seam h m "AWSHTTPConnectionPool" "ConnectionCls"
           ++ class_seam h m "AWSHTTPSConnectionPool" "ConnectionCls"
       | None => []
       end
  /\ Forall (fun t => allocated h (t_obj t) = true) ts.
Proof.
  intros H Hg. pose proof (grows_refl w (grows_heap_closed _ _ Hg)) as Hrefl.
  unfold _boto3, try_import in H.
  destruct (sys_modules !! "botocore.awsrequest") as [m|] eqn:Hm; simpl in H.
  - repeat adapter_step.
    destruct (ok_class_seam _ _ _ _ "ConnectionCls" _ Hg Hm Ha0) as [-> A1].
    destruct (ok_class_seam _ _ _ _ "ConnectionCls" _ Hg Hm Ha2) as [-> A2].
    split; [done|]. split; [done|]. by repeat constructor.
  - repeat adapter_step. split; [done|]. split; [done|constructor].
Qed.

Lemma httplib2_exact w ts w1 :
  _httplib2 sys_modules w = (Returns ts, w1) ->
  grows w0 w ->
  grows w w1
  /\ Some ∘ triple_seam <$> ts
     = match sys_modules !! "httplib2" with
       | Some m =>
           [ Some (VRef m, "HTTPConnectionWithTimeout");
             Some (VRef m, "HTTPSConnectionWithTimeout");
             Some (VRef m, "SCHEME_TO_CONNECTION") ]
       | None => []
       end
  /\ Forall (fun t => allocated h (t_obj t) = true) ts.
Proof.
  intros H Hg. pose proof (grows_refl w (grows_heap_closed _ _ Hg)) as Hrefl.
  unfold _httplib2, try_import in H.
  destruct (sys_modules !! "httplib2") as [m|] eqn:Hm; simpl in H.
  - repeat adapter_step. pose proof (ok_module _ _ Hm).
    split; [done|]. split; [done|]. by repeat constructor.
  - repeat adapter_step. split; [done|]. split; [done|constructor].
Qed.

Lemma boto_exact w ts w1 :
  _boto sys_modules w = (Returns ts, w1) ->
  grows w0 w ->
  grows w w1
  /\ Some ∘ triple_seam <$> ts
     = match sys_modules !! "boto.https_connection" with
       | Some m => [ Some (VRef m, "CertValidatingHTTPSConnection") ]
       | None => []
       end
  /\ Forall (fun t => allocated h (t_obj t) = true) ts.
Proof.
  intros H Hg. pose proof (grows_refl w (grows_heap_closed _ _ Hg)) as Hrefl.
  unfold _boto, try_import in H.
  destruct (sys_modules !! "boto.https_connection") as [m|] eqn:Hm; simpl in H.
  - repeat adapter_step. pose proof (ok_module _ _ Hm).
    split; [done|]. split; [done|]. by repeat constructor.
  - repeat adapter_step. split; [done|]. split; [done|constructor].
Qed.

Lemma tornado_exact w ts w1 :
  _tornado sys_modules g w = (Returns ts, w1) ->
  grows w0 w ->
  grows w w1
  /\ Some ∘ triple_seam <$> ts
     = match sys_modules !! "tornado.simple_httpclient" with
       | Some m => class_seam h m "SimpleAsyncHTTPClient" "fetch_impl"
       | None => []
       end
       ++ match sys_modules !! "tornado.curl_httpclient" with
          | Some m => class_seam h m "CurlAsyncHTTPClient" "fetch_impl"
          | None => []
          end
  /\ Forall (fun t => allocated h (t_obj t) = true) ts.
Proof.
  intros H Hg. pose proof (grows_heap_closed _ _ Hg) as Hcl.
  pose proof (grows_refl w Hcl) as Hrefl.
  unfold _tornado, try_import in H.
  destruct (sys_modules !! "tornado.simple_httpclient") as [m|] eqn:Hm;
    destruct (sys_modules !! "tornado.curl_httpclient") as [m'|] eqn:Hm';
    simpl in H; repeat adapter_step; stub_grows; class_seams; adapter_done.
Qed.

Lemma aiohttp_exact w ts w1 :
  _aiohttp sys_modules g w = (Returns ts, w1) ->
  grows w0 w ->
  grows w w1
  /\ Some ∘ triple_seam <$> ts
     = match sys_modules !! "aiohttp.client" with
       | Some m => class_seam h m "ClientSession" "_request"
       | None => []
       end
  /\ Forall (fun t => allocated h (t_obj t) = true) ts.
Proof.
  intros H Hg. pose proof (grows_heap_closed _ _ Hg) as Hcl.
  pose proof (grows_refl w Hcl) as Hrefl.
  unfold _aiohttp, try_import in H.
  destruct (sys_modules !! "aiohttp.client") as [m|] eqn:Hm;
    simpl in H; repeat adapter_step; stub_grows; class_seams; adapter_done.
Qed.

Lemma httpx_exact w ts w1 :
  _httpx sys_modules g w = (Returns ts, w1) ->
  grows w0 w ->
  grows w w1
  /\ Some ∘ triple_seam <$> ts
     = match sys_modules !! "httpx" with
       | Some m => class_seam h m "AsyncClient" "send" ++ class_seam h m "Client" "send"
       | None => []
       end
  /\ Forall (fun t => allocated h (t_obj t) = true) ts.
Proof.
  intros H Hg. pose proof (grows_heap_closed _ _ Hg) as Hcl.
  pose proof (grows_refl w Hcl) as Hrefl.
  unfold _httpx, try_import in H.
  destruct (sys_modules !! "httpx") as [m|] eqn:Hm;
    simpl in H; repeat adapter_step; stub_grows; class_seams; adapter_done.
Qed.

Lemma urllib3_patchers_exact cpool conn stubs w u w1 :
  grows w0 w -> allocated h cpool = true -> allocated h conn = true ->
  _urllib3_patchers cpool conn stubs w = (Returns u, w1) ->
  grows w w1 /\ prepared h (Some u) (urllib3_seams h cpool conn).
Proof.
  intros Hg Hcpool Hconn H.
  destruct (urllib3_patchers_settled _ _ _ _ _ _ (grows_heap_closed _ _ Hg) H)
    as (Hg1 & k1 & k2 & http & https & hp & hsp & m & f1 & f2 & f3 & f4
        & Hremovers & _ & _ & Hhp & Hhsp & Htriples).
  pose proof (grows_trans _ _ _ Hg Hg1) as Hg01.
  destruct (ok_getattr _ _ _ _ Hg01 Hcpool Hhp) as [E1 A1].
  destruct (ok_getattr _ _ _ _ Hg01 Hcpool Hhsp) as [E2 A2].
  split; [done|]. unfold prepared, urllib3_seams.
  rewrite Htriples, Hremovers, E1, E2. split; [done|]. split; [|done].
  by repeat constructor.
Qed.

Lemma chain_urllib3_exact u seams w rs w' :
  grows w0 w -> prepared h u seams ->
  chain_urllib3 u w = (Returns rs, w') ->
  grows w0 w' /\ resource_seam <$> rs = List.filter (emitted h) seams.
Proof.
  intros Hg Hu H. destruct u as [u|]; simpl in *.
  - destruct Hu as (<- & Halloc & Hlen). step H. finish H.
    destruct (build_patchers_exact_from _ _ _ _ Hg Halloc Ha) as [Hg1 Hseams].
    split; [done|]. rewrite List.filter_app, emitted_present, fmap_app.
    rewrite (list_fmap_compose triple_seam Some), <- Hseams.
    rewrite <- !list_fmap_compose. f_equal.
    by destruct (removers u) as [|r1 [|r2 [|r3 rest]]].
  - subst seams. finish H. done.
Qed.

Lemma requests_exact w u w1 :
  _requests sys_modules g w = (Returns u, w1) ->
  grows w0 w ->
  grows w w1
  /\ prepared h u (match sys_modules !! "vcr.stubs.requests_stubs" with
                 | Some _ => urllib3_seams h (cpool g) (conn g)
                 | None => []
                 end).
Proof.
  intros H Hg. pose proof (grows_refl w (grows_heap_closed _ _ Hg)) as Hrefl.
  destruct Hok as (_ & _ & _ & _ & Hcpool & Hconn).
  unfold _requests, try_import in H.
  destruct (sys_modules !! "vcr.stubs.requests_stubs") as [m|] eqn:Hm; simpl in H.
  - repeat adapter_step. by eapply urllib3_patchers_exact.
  - repeat adapter_step. done.
Qed.

Lemma urllib3_exact w u w1 :
  _urllib3 sys_modules w = (Returns u, w1) ->
  grows w0 w ->
  grows w w1
  /\ prepared h u (match sys_modules !! "urllib3.connection",
                       sys_modules !! "urllib3.connectionpool" with
                 | Some c, Some p => urllib3_seams h (VRef p) (VRef c)
                 | _, _ => []
                 end).
Proof.
  intros H Hg. pose proof (grows_refl w (grows_heap_closed _ _ Hg)) as Hrefl.
  unfold _urllib3, try_import in H.
  destruct (sys_modules !! "urllib3.connection") as [c|] eqn:Hc; simpl in H;
    [destruct (sys_modules !! "urllib3.connectionpool") as [p|] eqn:Hp; simpl in H|].
  - repeat adapter_step.
    eapply urllib3_patchers_exact; [done|by eapply ok_module..|done].
  - repeat adapter_step. done.
  - repeat adapter_step. done.
Qed.

End BuildExact.

(** C7: whatever the process has installed, the handles and guards of the
    built-in adapters come out in one fixed order, that of httplib,
    requests, boto3, urllib3, httplib2, boto, tornado, aiohttp and httpx,
    and the handles built from the session's custom triples come after all
    of them, in the order in which the caller supplied the triples.  In a
    well-formed process nothing else is dropped or moved: the built-in part
    is, seam by seam, [builtin_seams] without the handles whose target
    lacks the attribute, and the custom part is the caller's triples
    without those whose target lacks the attribute. *)
Theorem build_emits_in_order sys_modules g w rs w' :
  build sys_modules g w = (Returns rs, w') ->
  exists builtin custom,
    rs = builtin ++ (RPatch <$> custom)
    /\ resource_label <$> builtin `sublist_of` builtin_order
    /\ patcher_seam <$> custom
       `sublist_of` triple_seam <$> custom_patches (_cassette (w_builder w))
    /\ (process_ok sys_modules g (w_heap w) ->
        Forall (fun t => allocated (w_heap w) (t_obj t) = true)
               (custom_patches (_cassette (w_builder w))) ->
        resource_seam <$> builtin
        = List.filter (emitted (w_heap w)) (builtin_seams sys_modules g (w_heap w))
        /\ patcher_seam <$> custom
           = triple_seam <$> List.filter (present (w_heap w))
                               (custom_patches (_cassette (w_builder w)))).
Proof.
  intros H. unfold build in H.
  step H. step H. step H.
  pose proof (keeps_requests sys_modules g w) as Hk1. rewrite Ha in Hk1.
  pose proof (keeps_urllib3 sys_modules s) as Hk2. rewrite Ha0 in Hk2.
  apply ret_returns in Ha1 as [-> ->]. simpl in Hk1, Hk2. rewrite Hk2, Hk1 in H.
  assert (Hreq : match a with
                 | Some u => Some <$> (t_attribute <$> mock_triples u)
                             = take 10 urllib3_order /\ length (removers u) = 2
                 | None => True
                 end).
  { clear -Ha. unfold _requests in Ha. run Ha; [|done].
    by eapply urllib3_patchers_order. }
  assert (Hurl : match a0 with
                 | Some u => Some <$> (t_attribute <$> mock_triples u)
                             = take 10 urllib3_order /\ length (removers u) = 2
                 | None => True
                 end).
  { clear -Ha0. unfold _urllib3 in Ha0. run Ha0; try done.
    by eapply urllib3_patchers_order. }
  do 10 step H. finish H.
  exists (a1 ++ a2 ++ a3 ++ a4 ++ a5 ++ a6 ++ a7 ++ a8 ++ a9), a10.
  split; [by rewrite <- !app_assoc|]. split; [|split].
  - unfold builtin_order. rewrite !fmap_app.
    repeat apply sublist_app.
    + eapply (decorator_labels _ _ _ _ ["HTTPConnection"; "HTTPSConnection"]);
        [apply httplib_order|done].
    + eapply chain_urllib3_order; [|eassumption]; done.
    + eapply (decorator_labels _ _ _ _ ["ConnectionCls"; "ConnectionCls"]);
        [apply boto3_order|done].
    + eapply chain_urllib3_order; [|eassumption]; done.
    + eapply (decorator_labels _ _ _ _ [_; _; _]); [apply httplib2_order|done].
    + eapply (decorator_labels _ _ _ _ [_]); [apply boto_order|done].
    + eapply (decorator_labels _ _ _ _ [_; _]); [apply tornado_order|done].
    + eapply (decorator_labels _ _ _ _ [_]); [apply aiohttp_order|done].
    + eapply (decorator_labels _ _ _ _ [_; _]); [apply httpx_order|done].
  - by eapply build_patchers_sublist.
  - intros Hok Hcustom.
    pose proof (grows_refl w (ok_closed _ _ _ Hok)) as Hg0.
    destruct (requests_exact _ _ _ Hok _ _ _ Ha Hg0) as [Hg1 Hp1].
    destruct (urllib3_exact _ _ _ Hok _ _ _ Ha0 Hg1) as [Hg2 Hp2].
    pose proof (grows_trans _ _ _ Hg1 Hg2) as Hg02.
    destruct (decorator_exact _ _ _ Hok _ _ _ _ _ Hg02
                (fun ts w1 Hrun => httplib_exact _ _ _ Hok _ _ _ Hrun Hg02) Ha1)
      as [Hg3 E1].
    destruct (chain_urllib3_exact _ _ _ Hok _ _ _ _ _ Hg3 Hp1 Ha2) as [Hg4 E2].
    destruct (decorator_exact _ _ _ Hok _ _ _ _ _ Hg4
                (fun ts w1 Hrun => boto3_exact _ _ _ Hok _ _ _ Hrun Hg4) Ha3)
      as [Hg5 E3].
    destruct (chain_urllib3_exact _ _ _ Hok _ _ _ _ _ Hg5 Hp2 Ha4) as [Hg6 E4].
    destruct (decorator_exact _ _ _ Hok _ _ _ _ _ Hg6
                (fun ts w1 Hrun => httplib2_exact _ _ _ Hok _ _ _ Hrun Hg6) Ha5)
      as [Hg7 E5].
    destruct (decorator_exact _ _ _ Hok _ _ _ _ _ Hg7
                (fun ts w1 Hrun => boto_exact _ _ _ Hok _ _ _ Hrun Hg7) Ha6)
      as [Hg8 E6].
    destruct (decorator_exact _ _ _ Hok _ _ _ _ _ Hg8
                (fun ts w1 Hrun => tornado_exact _ _ _ Hok _ _ _ Hrun Hg8) Ha7)
      as [Hg9 E7].
    destruct (decorator_exact _ _ _ Hok _ _ _ _ _ Hg9
                (fun ts w1 Hrun => aiohttp_exact _ _ _ Hok _ _ _ Hrun Hg9) Ha8)
      as [Hg10 E8].
    destruct (decorator_exact _ _ _ Hok _ _ _ _ _ Hg10
                (fun ts w1 Hrun => httpx_exact _ _ _ Hok _ _ _ Hrun Hg10) Ha9)
      as [Hg11 E9].
    destruct (build_patchers_exact_from _ _ _ Hok _ _ _ _ Hg11 Hcustom Ha10) as [_ E10].
    split; [|done].
    unfold builtin_seams.
    rewrite !fmap_app, E1, E2, E3, E4, E5, E6, E7, E8, E9.
    by rewrite !List.filter_app, <- !app_assoc.
Qed.


Lemma process_ok_process :
  process_ok sys_modules_process globals_process (w_heap world_process).
Proof.
  unfold process_ok, heap_closed.
  split; [apply (bool_decide_unpack _); vm_compute; exact I|].
  split; [apply (bool_decide_unpack _); vm_compute; exact I|].
  split; [apply (bool_decide_unpack _); vm_compute; exact I|].
  split; [vm_compute; reflexivity|]. split; vm_compute; reflexivity.
Qed.

Lemma custom_targets_process :
  Forall (fun t => allocated (w_heap world_process) (t_obj t) = true)
         (custom_patches (_cassette (w_builder world_process))).
Proof. apply (bool_decide_unpack _). vm_compute. exact I. Qed.

Lemma build_emits_in_order_witness :
  exists builtin custom,
    resources_process = builtin ++ (RPatch <$> custom)
    /\ resource_label <$> builtin `sublist_of` builtin_order
    /\ patcher_seam <$> custom
       `sublist_of` triple_seam <$> custom_patches (_cassette (w_builder world_process))
    /\ resource_seam <$> builtin
       = List.filter (emitted (w_heap world_process))
                     (builtin_seams sys_modules_process globals_process
                                    (w_heap world_process))
    /\ patcher_seam <$> custom
       = triple_seam <$> List.filter (present (w_heap world_process))
                           (custom_patches (_cassette (w_builder world_process))).
Proof.
  destruct (build_emits_in_order sys_modules_process globals_process world_process
              resources_process
              (build sys_modules_process globals_process world_process).2)
    as (builtin & custom & Hsplit & Hlabels & Hcustom & Hexact); [by vm_compute|].
  exists builtin, custom.
  split; [exact Hsplit|]. split; [exact Hlabels|]. split; [exact Hcustom|].
  exact (Hexact process_ok_process custom_targets_process).
Defined.

(** In the process above every seam is present, so nothing is dropped: the
    sixteen built-in resources and the one custom handle. *)
Example build_seams_process :
  resource_seam <$> resources_process
  = [ Some (VRef 4, "HTTPConnection"); Some (VRef 4, "HTTPSConnection");
      Some (VRef 8, "VerifiedHTTPSConnection");
      Some (VRef 8, "HTTPConnection"); Some (VRef 8, "HTTPSConnection");
      Some (VRef 15, "is_connection_dropped");
      Some (VRef 12, "ConnectionCls"); Some (VRef 13, "ConnectionCls");
      Some (VRef 12, "_get_conn"); Some (VRef 13, "_get_conn");
      Some (VRef 12, "_new_conn"); Some (VRef 13, "_new_conn"); None; None;
      Some (VRef 22, "send"); Some (VRef 21, "send");
      Some (VRef 4, "HTTPConnection") ].
Proof. vm_compute; reflexivity. Qed.
